(** * dnsscale: the reconciliation engine of main.go and the Route53 provider

    A shallow embedding of the change detector ([syncNodes]), of the per-key
    reconcile state machine ([reconcile], [deleteNodeDNS], [shouldManageNode],
    [nodesEqual]), of one iteration of [worker], and of
    [Route53Provider.ListRecords], followed by the properties the
    specification states about them.

    Modelling conventions.
    - Go strings are byte strings: [string] of Stdlib (a list of 8-bit
      characters).
    - [map[string]TailscaleNode] and [map[string]string] are [gmap string _].
    - The DNS backend is the Go interface [providers.DNSProvider]; it is a
      type class over the type of backend states, and every call made through
      it is recorded, with the answer it got, in a call log.
    - The work queue is [k8s.io/client-go/util/workqueue]; the engine only
      calls it, so the model keeps the log of the calls made on it.
    - Logging has no effect on the engine and is left out. *)

From Stdlib Require Import ZArith Ascii DecimalString.
From stdpp Require Import base strings list gmap fin_maps.

#[local] Set Warnings "-clear-no-such-hyp".



(** ** The functions of Go's [strings] package that the engine uses *)

Module strings.

(** [strings.HasPrefix]. *)
Fixpoint HasPrefix (s prefix : string) {struct prefix} : bool :=
  match prefix, s with
  | EmptyString, _ => true
  | String _ _, EmptyString => false
  | String p prefix', String c s' => bool_decide (c = p) && HasPrefix s' prefix'
  end.

(** [strings.Contains s substr]: [substr] occurs in [s] at some offset. *)
Fixpoint Contains (s substr : string) : bool :=
  HasPrefix s substr ||
  match s with
  | EmptyString => false
  | String _ s' => Contains s' substr
  end.

(** [strings.HasSuffix]:
    [len(s) >= len(suffix) && s[len(s)-len(suffix):] == suffix]. *)
Definition HasSuffix (s suffix : string) : bool :=
  bool_decide (String.length suffix ≤ String.length s)%nat &&
  bool_decide (String.substring (String.length s - String.length suffix)
                                (String.length suffix) s = suffix).

(** [strings.TrimSuffix]. *)
Definition TrimSuffix (s suffix : string) : string :=
  if HasSuffix s suffix
  then String.substring 0 (String.length s - String.length suffix) s
  else s.

End strings.


(** ** Errors and results *)

(** A Go [error] value, by its message. [fmt.Errorf("...: %w", err)] prefixes
    the message of the wrapped error. *)
Abbreviation error := string (only parsing).

(** A Go result pair [(a, err)]: [Ok a] is [(a, nil)], [Err e] is [(_, e)]. *)
Inductive Result (A : Type) : Type :=
| Ok (a : A)
| Err (e : error).
Arguments Ok {A} a.
Arguments Err {A} e.

(** ** Package [providers]: the record model and the backend contract *)

Module providers.

(** [type DNSRecord struct]. The field [Type] is spelled [Type_]. *)
Record DNSRecord : Type := {
  Name : string;
  Type_ : string;
  Value : string;
  TTL : Z
}.

#[export] Instance DNSRecord_eq_dec : EqDecision DNSRecord.
Proof. solve_decision. Defined.

(** [type DNSProvider interface]: four operations on a zone. [B] is the
    state of the backend behind the provider; an operation may change it
    and answers with an error or with [nil] ([None]). *)
Class DNSProvider (B : Type) : Type := {
  ListRecords : string → B → Result (list DNSRecord) * B;
  CreateRecord : string → DNSRecord → B → option error * B;
  UpdateRecord : string → DNSRecord → B → option error * B;
  DeleteRecord : string → DNSRecord → B → option error * B
}.

(** One call made through the interface, with the answer it got. *)
Inductive DNSCall : Type :=
| CallList (zone : string) (res : Result (list DNSRecord))
| CallCreate (zone : string) (record : DNSRecord) (err : option error)
| CallUpdate (zone : string) (record : DNSRecord) (err : option error)
| CallDelete (zone : string) (record : DNSRecord) (err : option error).

(** *** The Route53 provider *)

(** The parts of the AWS SDK's [types.ResourceRecordSet] that
    [ListRecords] reads. The SDK holds [Name], [TTL] and [Value] behind
    pointers; they are members the service always fills in for a record
    set that carries resource records, and they are modelled by their
    values. *)
Module types.
Record ResourceRecord : Type := { Value : string }.
Record ResourceRecordSet : Type := {
  Name : string;
  Type_ : string;
  TTL : Z;
  ResourceRecords : list ResourceRecord
}.
Inductive ChangeAction : Type :=
| ChangeActionCreate
| ChangeActionUpsert
| ChangeActionDelete.
End types.

Module route53.
(** [route53.ListResourceRecordSetsOutput], one page of a listing. *)
Record ListResourceRecordSetsOutput : Type := {
  ResourceRecordSets : list types.ResourceRecordSet
}.

(** The two operations of [route53.Client] the provider uses. A listing
    is what the paginator yields for the hosted zone: the answers to its
    successive [NextPage] calls, each a page or an error. *)
Class Client (C : Type) : Type := {
  ListResourceRecordSetsPages :
    string → C → list (Result ListResourceRecordSetsOutput) * C;
  ChangeResourceRecordSets :
    string → types.ChangeAction → DNSRecord → C → option error * C
}.
End route53.

(** [type Route53Provider struct]. *)
Record Route53Provider (C : Type) : Type := {
  client : C;
  zoneID : string
}.
Arguments client {C} _.
Arguments zoneID {C} _.

(** The body of the loop over [page.ResourceRecordSets]: a record set of
    type A or AAAA contributes one [DNSRecord] per resource record. *)
Definition appendRecordSet (records : list DNSRecord)
    (rrs : types.ResourceRecordSet) : list DNSRecord :=
  if bool_decide (types.Type_ rrs = "A") || bool_decide (types.Type_ rrs = "AAAA")
  then fold_left
         (λ records rr,
            records ++ [ {| Name := types.Name rrs;
                            Type_ := types.Type_ rrs;
                            Value := types.Value rr;
                            TTL := types.TTL rrs |} ])
         (types.ResourceRecords rrs) records
  else records.

(** The loop [for paginator.HasMorePages()]: the first page that fails
    ends the listing with [(nil, err)]. *)
Fixpoint listPages (pages : list (Result route53.ListResourceRecordSetsOutput))
    (records : list DNSRecord) : Result (list DNSRecord) :=
  match pages with
  | [] => Ok records
  | Err e :: _ => Err e
  | Ok page :: pages' =>
      listPages pages' (fold_left appendRecordSet (route53.ResourceRecordSets page) records)
  end.

Section Route53.
Context {C : Type} `{!route53.Client C}.

(** [func (r *Route53Provider) ListRecords]. *)
Definition Route53_ListRecords (zone : string) (r : Route53Provider C)
    : Result (list DNSRecord) * Route53Provider C :=
  let '(pages, c) := route53.ListResourceRecordSetsPages (zoneID r) (client r) in
  (listPages pages [], {| client := c; zoneID := zoneID r |}).

(** The body shared by [CreateRecord], [UpdateRecord] and
    [DeleteRecord]: one change batch with one change. *)
Definition Route53_change (action : types.ChangeAction) (zone : string)
    (record : DNSRecord) (r : Route53Provider C)
    : option error * Route53Provider C :=
  let '(err, c) := route53.ChangeResourceRecordSets (zoneID r) action record (client r) in
  (err, {| client := c; zoneID := zoneID r |}).

#[export] Instance Route53Provider_DNSProvider : DNSProvider (Route53Provider C) := {
  ListRecords := Route53_ListRecords;
  CreateRecord := Route53_change types.ChangeActionCreate;
  UpdateRecord := Route53_change types.ChangeActionUpsert;
  DeleteRecord := Route53_change types.ChangeActionDelete
}.
End Route53.

End providers.

Import providers.

(** ** Package [main]: the node model *)

(** [type TailscaleNode struct]. [LastSeen] is an instant, kept as a count
    of nanoseconds; the engine never computes with it. *)
Record TailscaleNode : Type := {
  ID : string;
  Name : string;
  Hostname : string;
  Addresses : list string;
  Tags : list string;
  Online : bool;
  LastSeen : Z
}.

#[export] Instance TailscaleNode_eq_dec : EqDecision TailscaleNode.
Proof. solve_decision. Defined.

(** The loop [for i, addr := range a.Addresses] of [nodesEqual], started
    at index [i]. Indexing [b.Addresses[i]] out of range would panic; the
    length test before the loop rules it out, and the model answers [false]
    there. *)
Fixpoint addressesEqualFrom (i : nat) (aAddresses bAddresses : list string) : bool :=
  match aAddresses with
  | [] => true
  | addr :: rest =>
      match bAddresses !! i with
      | Some baddr =>
          if bool_decide (addr ≠ baddr) then false
          else addressesEqualFrom (S i) rest bAddresses
      | None => false
      end
  end.

(** [func nodesEqual(a, b TailscaleNode) bool]. *)
Definition nodesEqual (a b : TailscaleNode) : bool :=
  if bool_decide (Name a ≠ Name b)
     || bool_decide (Online a ≠ Online b)
     || bool_decide (length (Addresses a) ≠ length (Addresses b))
  then false
  else addressesEqualFrom 0 (Addresses a) (Addresses b).

(** ** The reconciler *)

(** One call made on the work queue. *)
Inductive QueueCall : Type :=
| QAdd (item : string)
| QAddRateLimited (item : string)
| QForget (item : string)
| QDone (item : string).

#[export] Instance QueueCall_eq_dec : EqDecision QueueCall.
Proof. solve_decision. Defined.

(** [type DNSReconciler struct], without the two clients and the logger.
    [queue] is the log of the calls made on the work queue, oldest first.
    The mutex guards [nodeCache]: [syncNodes] runs as one step under the
    write lock and [reconcile] reads the cache in one step under the read
    lock. *)
Record DNSReconciler : Type := {
  domain : string;
  queue : list QueueCall;
  nodeCache : gmap string TailscaleNode;
  annotations : gmap string string
}.

Definition setNodeCache (c : gmap string TailscaleNode) (r : DNSReconciler) : DNSReconciler :=
  {| domain := domain r; queue := queue r; nodeCache := c; annotations := annotations r |}.

Definition callQueue (q : QueueCall) (r : DNSReconciler) : DNSReconciler :=
  {| domain := domain r; queue := queue r ++ [q];
     nodeCache := nodeCache r; annotations := annotations r |}.

(** The loop over [node.Tags] in [shouldManageNode]. *)
Fixpoint anyTagAnnotated (annotations : gmap string string) (tags : list string) : bool :=
  match tags with
  | [] => false
  | tag :: rest =>
      match annotations !! tag with
      | Some _ => true
      | None => anyTagAnnotated annotations rest
      end
  end.

(** [func (r *DNSReconciler) shouldManageNode]. *)
Definition shouldManageNode (r : DNSReconciler) (node : TailscaleNode) : bool :=
  if bool_decide (0 < size (annotations r))
  then anyTagAnnotated (annotations r) (Tags node)
  else true.

(** *** The change detector *)

(** The order in which [for id := range r.nodeCache] visits the keys. Go
    leaves it unspecified; every key of the map is visited once (the loop
    body deletes only the key it is visiting). *)
Record RangeOrder : Type := {
  rangeKeys :> gmap string TailscaleNode → list string;
  rangeKeys_perm : ∀ m, rangeKeys m ≡ₚ (map_to_list m).*1
}.

(** Body of the first loop of [syncNodes], "new or updated nodes". *)
Definition syncNode (st : DNSReconciler * gmap string bool) (node : TailscaleNode)
    : DNSReconciler * gmap string bool :=
  let '(r, currentNodes) := st in
  let currentNodes := <[ID node := true]> currentNodes in
  let changed :=
    match nodeCache r !! ID node with
    | Some existingNode => negb (nodesEqual existingNode node)
    | None => true
    end in
  if changed
  then (callQueue (QAdd (ID node)) (setNodeCache (<[ID node := node]> (nodeCache r)) r),
        currentNodes)
  else (r, currentNodes).

(** Reading [m[id]] in a Go [map[string]bool]: a missing key reads as
    [false]. *)
Definition lookupBool (m : gmap string bool) (id : string) : bool := default false (m !! id).

(** Body of the second loop of [syncNodes], "deleted nodes". *)
Definition syncDeleted (currentNodes : gmap string bool) (r : DNSReconciler) (id : string)
    : DNSReconciler :=
  if negb (lookupBool currentNodes id)
  then callQueue (QAdd (id +:+ ":delete")) (setNodeCache (delete id (nodeCache r)) r)
  else r.

(** [func (r *DNSReconciler) syncNodes]. [listed] is the answer of
    [r.tailscale.ListNodes(ctx)]. *)
Definition syncNodes (ord : RangeOrder) (listed : Result (list TailscaleNode))
    (r : DNSReconciler) : DNSReconciler :=
  match listed with
  | Err _ => r
  | Ok nodes =>
      let '(r1, currentNodes) := fold_left syncNode nodes (r, ∅) in
      fold_left (syncDeleted currentNodes) (ord (nodeCache r1)) r1
  end.

(** The poller: one [syncNodes] per tick, each with the answer the
    snapshot source gave and the order the map happened to be ranged in. *)
Definition pollCycles (polls : list (RangeOrder * Result (list TailscaleNode)))
    (r : DNSReconciler) : DNSReconciler :=
  fold_left (λ r p, syncNodes p.1 p.2 r) polls r.

(** *** Backend calls: a monad of backend state and call log *)

(** What a piece of engine code leaves behind: its result, the state of
    the backend, and the calls it made, oldest first. *)
Record Run (B A : Type) : Type := {
  value : A;
  backend : B;
  calls : list DNSCall
}.
Arguments value {B A} _.
Arguments backend {B A} _.
Arguments calls {B A} _.

Definition M (B A : Type) : Type := B → Run B A.

Definition ret {B A : Type} (a : A) : M B A :=
  λ b, {| value := a; backend := b; calls := [] |}.

Definition bind {B A A' : Type} (m : M B A) (k : A → M B A') : M B A' :=
  λ b, let r1 := m b in
       let r2 := k (value r1) (backend r1) in
       {| value := value r2; backend := backend r2; calls := calls r1 ++ calls r2 |}.

Notation "x <~ m ;; k" := (bind m (λ x, k))
  (at level 100, m at next level, right associativity).

(** A call without its answer. *)
Inductive DNSRequest : Type :=
| ReqList (zone : string)
| ReqCreate (zone : string) (record : DNSRecord)
| ReqUpdate (zone : string) (record : DNSRecord)
| ReqDelete (zone : string) (record : DNSRecord).

Definition request (c : DNSCall) : DNSRequest :=
  match c with
  | CallList zone _ => ReqList zone
  | CallCreate zone record _ => ReqCreate zone record
  | CallUpdate zone record _ => ReqUpdate zone record
  | CallDelete zone record _ => ReqDelete zone record
  end.

Section Engine.
Context {B : Type} `{!DNSProvider B}.

(** [r.dnsProvider.ListRecords(ctx, zone)]. *)
Definition callListRecords (zone : string) : M B (Result (list DNSRecord)) :=
  λ b, let ans := ListRecords zone b in
       {| value := ans.1; backend := ans.2; calls := [CallList zone ans.1] |}.

(** [r.dnsProvider.UpdateRecord(ctx, zone, record)]. *)
Definition callUpdateRecord (zone : string) (record : DNSRecord) : M B (option error) :=
  λ b, let ans := UpdateRecord zone record b in
       {| value := ans.1; backend := ans.2; calls := [CallUpdate zone record ans.1] |}.

(** [r.dnsProvider.DeleteRecord(ctx, zone, record)]. *)
Definition callDeleteRecord (zone : string) (record : DNSRecord) : M B (option error) :=
  λ b, let ans := DeleteRecord zone record b in
       {| value := ans.1; backend := ans.2; calls := [CallDelete zone record ans.1] |}.

(** *** The upsert path *)

(** [fmt.Sprintf("%s.%s", node.Name, r.domain)]. *)
Definition recordName (r : DNSReconciler) (node : TailscaleNode) : string :=
  Name node +:+ "." +:+ domain r.

(** The record built for one address in the loop of [reconcile]. *)
Definition addressRecord (r : DNSReconciler) (node : TailscaleNode) (addr : string)
    : DNSRecord :=
  {| providers.Name := recordName r node;
     providers.Type_ := if strings.Contains addr ":" then "AAAA" else "A";
     providers.Value := addr;
     providers.TTL := 300 |}.

(** The double-quote character. *)
Definition dquote : string := String "034"%char EmptyString.

(** [txtRecord] of [reconcile]; its value is
    [fmt.Sprintf("\"dnsscale-managed node_id=%s\"", node.ID)]. *)
Definition txtRecord (r : DNSReconciler) (node : TailscaleNode) : DNSRecord :=
  {| providers.Name := recordName r node;
     providers.Type_ := "TXT";
     providers.Value := dquote +:+ "dnsscale-managed node_id=" +:+ ID node +:+ dquote;
     providers.TTL := 300 |}.

(** The loop [for _, addr := range node.Addresses] of [reconcile]:
    [Some e] when it left [reconcile] through [return fmt.Errorf(...)],
    [None] when it ran to its end. *)
Fixpoint updateAddresses (r : DNSReconciler) (node : TailscaleNode)
    (addrs : list string) : M B (option error) :=
  match addrs with
  | [] => ret None
  | addr :: rest =>
      err <~ callUpdateRecord (domain r) (addressRecord r node addr) ;;
      match err with
      | Some e => ret (Some ("failed to update DNS record: " +:+ e))
      | None => updateAddresses r node rest
      end
  end.

(** *** The deletion path *)

(** The test [record.Type == "TXT" &&
    strings.Contains(record.Value, fmt.Sprintf("node_id=%s", nodeID))]. *)
Definition isOwnershipRecord (nodeID : string) (record : DNSRecord) : bool :=
  bool_decide (providers.Type_ record = "TXT")
  && strings.Contains (providers.Value record) ("node_id=" +:+ nodeID).

(** The inner loop [for _, recordToDelete := range records]. The error
    of a failed delete is logged and dropped. *)
Fixpoint deleteNamed (zone name : string) (records : list DNSRecord) : M B unit :=
  match records with
  | [] => ret tt
  | recordToDelete :: rest =>
      if bool_decide (providers.Name recordToDelete = name)
      then _ <~ callDeleteRecord zone recordToDelete ;; deleteNamed zone name rest
      else deleteNamed zone name rest
  end.

(** The outer loop [for _, record := range records] over the part [rest]
    of the listing still to be looked at; [break] after the first
    ownership record. *)
Fixpoint findAndDelete (zone nodeID : string) (records rest : list DNSRecord) : M B unit :=
  match rest with
  | [] => ret tt
  | record :: rest' =>
      if isOwnershipRecord nodeID record
      then deleteNamed zone (providers.Name record) records
      else findAndDelete zone nodeID records rest'
  end.

(** [func (r *DNSReconciler) deleteNodeDNS]. *)
Definition deleteNodeDNS (r : DNSReconciler) (nodeID : string) : M B (option error) :=
  res <~ callListRecords (domain r) ;;
  match res with
  | Err e => ret (Some e)
  | Ok records =>
      _ <~ findAndDelete (domain r) nodeID records records ;;
      ret None
  end.

(** [func (r *DNSReconciler) reconcile]. *)
Definition reconcile (r : DNSReconciler) (key : string) : M B (option error) :=
  if strings.HasSuffix key ":delete"
  then deleteNodeDNS r (strings.TrimSuffix key ":delete")
  else
    match nodeCache r !! key with
    | None => ret (Some ("node " +:+ key +:+ " not found in cache"))
    | Some node =>
        if negb (shouldManageNode r node) then ret None
        else
          err <~ updateAddresses r node (Addresses node) ;;
          match err with
          | Some e => ret (Some e)
          | None =>
              _ <~ callUpdateRecord (domain r) (txtRecord r node) ;;
              ret None
          end
    end.

(** The body of the loop of [worker] for one [item] taken from the queue:
    [reconcile], then [AddRateLimited] or [Forget], then the deferred
    [Done]. *)
Definition workerItem (item : string) (r : DNSReconciler) : M B DNSReconciler :=
  err <~ reconcile r item ;;
  let r' :=
    match err with
    | Some _ => callQueue (QAddRateLimited item) r
    | None => callQueue (QForget item) r
    end in
  ret (callQueue (QDone item) r').

End Engine.

(** [func NewDNSReconciler]: a fresh queue, an empty cache, no tag
    filter. *)
Definition NewDNSReconciler (domain : string) : DNSReconciler :=
  {| domain := domain; queue := []; nodeCache := ∅; annotations := ∅ |}.

(** The loop of [runDNSScale] over [config.App.RequiredTags]:
    [reconciler.annotations[tag] = "true"]. *)
Definition addRequiredTags (requiredTags : list string) (r : DNSReconciler) : DNSReconciler :=
  fold_left
    (λ r tag, {| domain := domain r; queue := queue r; nodeCache := nodeCache r;
                 annotations := <[tag := "true"]> (annotations r) |})
    requiredTags r.

(** The reconciler [runDNSScale] starts: built by [NewDNSReconciler], then
    given the required tags. *)
Definition newReconciler (domain : string) (requiredTags : list string) : DNSReconciler :=
  addRequiredTags requiredTags (NewDNSReconciler domain).

(** ** Vocabulary of the properties *)

(** The ids of a fetched node list, as a set. *)
Definition nodeIDs (nodes : list TailscaleNode) : gset string := list_to_set (ID <$> nodes).

(** [b] is [a] with another tag list. *)
Definition differOnlyInTags (a b : TailscaleNode) : Prop :=
  ID a = ID b ∧ Name a = Name b ∧ Hostname a = Hostname b ∧
  Addresses a = Addresses b ∧ Online a = Online b ∧ LastSeen a = LastSeen b.

(** How many times the call [c] occurs in a log of queue calls. *)
Definition timesCalled (c : QueueCall) (log : list QueueCall) : nat :=
  length (filter (λ x, x = c) log).

(** The calls [queue.Add(id + ":delete")] for the ids of [ids] that
    [currentNodes] does not hold, in the order of [ids]. *)
Definition deletionCalls (currentNodes : gmap string bool) (ids : list string)
    : list QueueCall :=
  (λ id, QAdd (id +:+ ":delete")) <$> filter (λ id, lookupBool currentNodes id = false) ids.

(** The list the cache was last diffed against: the answer of the last
    poll that succeeded, starting from [nodes]. *)
Definition lastFetched (polls : list (RangeOrder * Result (list TailscaleNode)))
    (nodes : list TailscaleNode) : list TailscaleNode :=
  fold_left (λ nodes p, match p.2 with Ok nodes' => nodes' | Err _ => nodes end) polls nodes.

(** The records the upsert path publishes for a node: one per address,
    then the ownership record. *)
Definition nodeRecords (r : DNSReconciler) (node : TailscaleNode) : list DNSRecord :=
  (addressRecord r node <$> Addresses node) ++ [txtRecord r node].

(** The first record of a listing that passes the ownership test for
    [nodeID]. *)
Definition firstOwnershipRecord (nodeID : string) (records : list DNSRecord)
    : option DNSRecord :=
  head (filter (λ record, isOwnershipRecord nodeID record = true) records).

(** The records of a listing with the name [name], in listing order. *)
Definition named (name : string) (records : list DNSRecord) : list DNSRecord :=
  filter (λ record, providers.Name record = name) records.

(** The records [ListRecords] of the Route53 provider can return. *)
Definition addressTyped (record : DNSRecord) : Prop :=
  providers.Type_ record = "A" ∨ providers.Type_ record = "AAAA".

(** An [UpdateRecord] call for an address record (any type but TXT) that
    the backend answered with an error. *)
Definition failedAddressUpdate (c : DNSCall) : bool :=
  match c with
  | CallUpdate _ record (Some _) => negb (bool_decide (providers.Type_ record = "TXT"))
  | _ => false
  end.

(** An [UpdateRecord] call for a TXT record that the backend answered
    with an error. *)
Definition failedOwnershipUpdate (c : DNSCall) : bool :=
  match c with
  | CallUpdate _ record (Some _) => bool_decide (providers.Type_ record = "TXT")
  | _ => false
  end.

(** The log of [UpdateRecord] calls, all answered with [nil], for the
    address records of [addrs]. *)
Definition succeeded (r : DNSReconciler) (node : TailscaleNode) (addrs : list string)
    : list DNSCall :=
  (λ addr, CallUpdate (domain r) (addressRecord r node addr) None) <$> addrs.

(** ** Backends held in memory, and example data

    They serve to run the engine on concrete inputs. *)

(** A DNS zone as a list of records. [refuses] picks the records whose
    create, update or delete the backend turns down with an error; a listing
    always succeeds. *)
Section Fake.
Variable refuses : DNSRecord → bool.

Definition sameSlot (a b : DNSRecord) : bool :=
  bool_decide (providers.Name a = providers.Name b)
  && bool_decide (providers.Type_ a = providers.Type_ b)
  && bool_decide (providers.Value a = providers.Value b).

Definition fakeWrite (put : bool) (record : DNSRecord) (zone : list DNSRecord)
    : option error * list DNSRecord :=
  if refuses record then (Some "refused", zone)
  else (None, filter (λ x, negb (sameSlot record x)) zone
                ++ (if put then [record] else [])).

Definition fakeProvider : DNSProvider (list DNSRecord) := {|
  ListRecords := λ _ zone, (Ok zone, zone);
  CreateRecord := λ _, fakeWrite true;
  UpdateRecord := λ _, fakeWrite true;
  DeleteRecord := λ _, fakeWrite false
|}.
End Fake.

Definition neverRefuses (_ : DNSRecord) : bool := false.

Definition refusesTXT (record : DNSRecord) : bool :=
  bool_decide (providers.Type_ record = "TXT").

Definition refusesAAAA (record : DNSRecord) : bool :=
  bool_decide (providers.Type_ record = "AAAA").

(** A Route53 hosted zone as the list of its record sets, listed in one
    page; changes are accepted and not stored. *)
Definition fakeRoute53 : route53.Client (list types.ResourceRecordSet) := {|
  route53.ListResourceRecordSetsPages :=
    λ _ zone, ([Ok {| route53.ResourceRecordSets := zone |}], zone);
  route53.ChangeResourceRecordSets := λ _ _ _ zone, (None, zone)
|}.

(** The keys of the map in the order of [map_to_list]. *)
Definition defaultOrder : RangeOrder :=
  {| rangeKeys := λ m, (map_to_list m).*1; rangeKeys_perm := λ m, reflexivity _ |}.

(** The node of the specification's upsert example. *)
Definition webServer : TailscaleNode :=
  {| ID := "n1"; Name := "web-server"; Hostname := "web-server";
     Addresses := ["100.64.1.1"; "fd7a:115c:a1e0::1"]; Tags := ["tag:dev"];
     Online := true; LastSeen := 0 |}.

(** [webServer] with another tag list. *)
Definition webServerRetagged : TailscaleNode :=
  {| ID := "n1"; Name := "web-server"; Hostname := "web-server";
     Addresses := ["100.64.1.1"; "fd7a:115c:a1e0::1"]; Tags := ["tag:prod"; "tag:web"];
     Online := true; LastSeen := 0 |}.

Definition dbServer : TailscaleNode :=
  {| ID := "n2"; Name := "db"; Hostname := "db.tail4cf751.ts.net";
     Addresses := ["100.64.1.2"]; Tags := []; Online := false; LastSeen := 7 |}.

(** A node whose id is, as a string, the deletion key of [webServer]. *)
Definition oddlyNamed : TailscaleNode :=
  {| ID := "n1:delete"; Name := "odd"; Hostname := "odd";
     Addresses := ["100.64.1.3"]; Tags := []; Online := true; LastSeen := 0 |}.

(** The reconciler after a first poll that fetched [nodes], for the zone
    [example.com] and without a tag filter. *)
Definition polledOnce (nodes : list TailscaleNode) : DNSReconciler :=
  syncNodes defaultOrder (Ok nodes) (newReconciler "example.com" []).

(** The node of the specification's deletion example, with the id
    [123456]. *)
Definition fooNode : TailscaleNode :=
  {| ID := "123456"; Name := "foo"; Hostname := "foo";
     Addresses := ["100.64.0.7"; "fd7a:115c:a1e0::7"]; Tags := [];
     Online := true; LastSeen := 0 |}.

(** A record the engine did not create. *)
Definition unmanagedRecord : DNSRecord :=
  {| providers.Name := "mail.example.com"; providers.Type_ := "A";
     providers.Value := "192.0.2.1"; providers.TTL := 3600 |}.

(** A zone with [unmanagedRecord] and the records published for
    [fooNode]. *)
Definition exampleZone : list DNSRecord :=
  unmanagedRecord :: nodeRecords (newReconciler "example.com" []) fooNode.

(** A hosted zone with the three record sets the upsert path creates for
    [fooNode]. *)
Definition fooHostedZone : list types.ResourceRecordSet :=
  (λ record : DNSRecord,
     {| types.Name := providers.Name record; types.Type_ := providers.Type_ record;
        types.TTL := providers.TTL record;
        types.ResourceRecords := [ {| types.Value := providers.Value record |} ] |})
  <$> nodeRecords (newReconciler "example.com" []) fooNode.

(** A backend that is out of reach: every operation answers with an
    error. *)
Definition unreachableProvider : DNSProvider unit := {|
  ListRecords := λ _ b, (Err "connection refused", b);
  CreateRecord := λ _ _ b, (Some "connection refused", b);
  UpdateRecord := λ _ _ b, (Some "connection refused", b);
  DeleteRecord := λ _ _ b, (Some "connection refused", b)
|}.

(** [webServer] with its two addresses in the other order. *)
Definition webServerReordered : TailscaleNode :=
  {| ID := "n1"; Name := "web-server"; Hostname := "web-server";
     Addresses := ["fd7a:115c:a1e0::1"; "100.64.1.1"]; Tags := ["tag:dev"];
     Online := true; LastSeen := 0 |}.

(** ** More of package [main]: devices, configuration, provider choice *)

(** The verb [%d] of [fmt]: an integer in decimal. *)
Definition formatInt (z : Z) : string := NilZero.string_of_int (Z.to_int z).

(** [strings.Index s substr]: the offset of the first occurrence of
    [substr] in [s], or [-1]. *)
Fixpoint strings_Index (s substr : string) : Z :=
  if strings.HasPrefix s substr then 0
  else match s with
       | EmptyString => -1
       | String _ s' =>
           let i := strings_Index s' substr in
           if bool_decide (i < 0)%Z then (-1)%Z else (i + 1)%Z
       end.

(** [type TailscaleDevice struct], the device as the Tailscale API lists
    it. Instants ([time.Time]) are counts of nanoseconds. *)
Module TailscaleDevice.
Record t : Type := {
  ID : string;
  Name : string;
  Hostname : string;
  ClientVersion : string;
  UpdateAvailable : bool;
  OS : string;
  Created : Z;
  LastSeen : Z;
  KeyExpiryDisabled : bool;
  Expires : Z;
  Authorized : bool;
  IsExternal : bool;
  MachineKey : string;
  NodeKey : string;
  BlocksIncomingConnections : bool;
  EnabledRoutes : list string;
  AdvertisedRoutes : list string;
  Tags : list string;
  TailnetLockError : string;
  TailnetLockKey : string;
  Addresses : list string;
  User : string
}.
End TailscaleDevice.

(** [time.Minute] and [time.Second], in nanoseconds. *)
Definition Second : Z := 1000000000.
Definition Minute : Z := 60 * Second.

(** The name [ToTailscaleNode] gives a node: the device name, the hostname
    when the name is empty, cut before the first dot when that dot is not
    the first character. *)
Definition deviceName (d : TailscaleDevice.t) : string :=
  let name := TailscaleDevice.Name d in
  let name := if bool_decide (name = "") then TailscaleDevice.Hostname d else name in
  let dotIndex := strings_Index name "." in
  if bool_decide (0 < dotIndex)%Z then String.substring 0 (Z.to_nat dotIndex) name else name.

(** [func (d *TailscaleDevice) ToTailscaleNode]. [now] is the clock
    reading of [time.Since]. A [time.Duration] saturates at about 292 years,
    far from the five minutes it is compared with, so the difference of the
    two instants is taken in [Z]. *)
Definition ToTailscaleNode (now : Z) (d : TailscaleDevice.t) : TailscaleNode :=
  let online := bool_decide (now - TailscaleDevice.LastSeen d < 5 * Minute)%Z in
  {| ID := TailscaleDevice.ID d;
     Name := deviceName d;
     Hostname := TailscaleDevice.Hostname d;
     Addresses := TailscaleDevice.Addresses d;
     Tags := TailscaleDevice.Tags d;
     Online := online;
     LastSeen := TailscaleDevice.LastSeen d |}.

(** What the HTTP exchange of [ListNodes] came to: no request could be
    built, the request got no response, or a response with its status and
    the outcome of decoding its body as a [TailscaleDevicesResponse]. *)
Inductive TailscaleExchange : Type :=
| RequestNotCreated (e : error)
| RequestFailed (e : error)
| Responded (StatusCode : Z) (Status : string) (Devices : Result (list TailscaleDevice.t)).

(** The loop of [ListNodes] over [devicesResp.Devices]. [clock tick] is the
    reading of the clock at its [tick]-th use; every authorized device uses
    it once. *)
Fixpoint convertDevices (clock : nat → Z) (tick : nat) (devices : list TailscaleDevice.t)
    (nodes : list TailscaleNode) : list TailscaleNode :=
  match devices with
  | [] => nodes
  | device :: rest =>
      if negb (TailscaleDevice.Authorized device)
      then convertDevices clock tick rest nodes
      else convertDevices clock (S tick) rest (nodes ++ [ToTailscaleNode (clock tick) device])
  end.

(** [func (t *TailscaleClient) ListNodes], from the outcome of its HTTP
    exchange. *)
Definition ListNodes (clock : nat → Z) (exchange : TailscaleExchange)
    : Result (list TailscaleNode) :=
  match exchange with
  | RequestNotCreated e => Err ("failed to create request: " +:+ e)
  | RequestFailed e => Err ("failed to make API request: " +:+ e)
  | Responded StatusCode Status decoded =>
      if bool_decide (StatusCode ≠ 200%Z)
      then Err ("API request failed with status " +:+ formatInt StatusCode +:+ ": " +:+ Status)
      else match decoded with
           | Err e => Err ("failed to decode API response: " +:+ e)
           | Ok devices => Ok (convertDevices clock 0 devices [])
           end
  end.

(** One round of [watchTailscale]: [syncNodes] on what [ListNodes] made of
    the exchange. *)
Definition pollOnce (ord : RangeOrder) (clock : nat → Z) (exchange : TailscaleExchange)
    (r : DNSReconciler) : DNSReconciler :=
  syncNodes ord (ListNodes clock exchange) r.

(** *** Configuration *)

Record TailscaleConfig : Type := {
  APIKey : string;
  Tailnet : string
}.

Record Route53Config : Type := {
  Profile : string;
  Region : string
}.

Module CloudflareConfig.
Record t : Type := { APIToken : string }.
End CloudflareConfig.

Module PiholeConfig.
Record t : Type := {
  BaseURL : string;
  APIToken : string;
  TLSInsecureSkipVerify : bool
}.
End PiholeConfig.

Record DNSConfig : Type := {
  Provider : string;
  Domain : string;
  ZoneID : string;
  Route53 : Route53Config;
  Cloudflare : CloudflareConfig.t;
  Pihole : PiholeConfig.t
}.

(** [Workers] is an [int], [PollInterval] a [time.Duration] in
    nanoseconds. *)
Record AppConfig : Type := {
  Workers : Z;
  PollInterval : Z;
  RequiredTags : list string
}.

Record LoggingConfig : Type := {
  Level : string;
  Format : string
}.

(** [type Config struct]. *)
Record Config : Type := {
  Tailscale : TailscaleConfig;
  DNS : DNSConfig;
  App : AppConfig;
  Logging : LoggingConfig
}.

Definition setApp (a : AppConfig) (c : Config) : Config :=
  {| Tailscale := Tailscale c; DNS := DNS c; App := a; Logging := Logging c |}.

Definition setLogging (l : LoggingConfig) (c : Config) : Config :=
  {| Tailscale := Tailscale c; DNS := DNS c; App := App c; Logging := l |}.

(** The loops of [Validate] over [validLevels] and [validFormats]. *)
Fixpoint inStrings (x : string) (valid : list string) : bool :=
  match valid with
  | [] => false
  | v :: rest => if bool_decide (x = v) then true else inStrings x rest
  end.

(** The verb [%v] of [fmt] on a [[]string]. *)
Fixpoint joinStrings (l : list string) : string :=
  match l with
  | [] => ""
  | [x] => x
  | x :: rest => x +:+ " " +:+ joinStrings rest
  end.

Definition formatStrings (l : list string) : string := "[" +:+ joinStrings l +:+ "]".

Definition validLevels : list string := ["debug"; "info"; "warn"; "error"].
Definition validFormats : list string := ["json"; "console"].

(** The [switch c.DNS.Provider] of [Validate]. *)
Definition validateProvider (d : DNSConfig) : option error :=
  if bool_decide (Provider d = "route53") then
    if bool_decide (ZoneID d = "")
    then Some "dns.zone_id is required for route53 provider" else None
  else if bool_decide (Provider d = "cloudflare") then
    if bool_decide (ZoneID d = "")
    then Some "dns.zone_id is required for cloudflare provider"
    else if bool_decide (CloudflareConfig.APIToken (Cloudflare d) = "")
    then Some "dns.cloudflare.api_token is required when using cloudflare provider"
    else None
  else if bool_decide (Provider d = "pihole") then
    if bool_decide (PiholeConfig.BaseURL (Pihole d) = "")
    then Some "dns.pihole.base_url is required when using pihole provider"
    else if bool_decide (PiholeConfig.APIToken (Pihole d) = "")
    then Some "dns.pihole.api_token is required when using pihole provider"
    else None
  else Some ("unsupported dns provider: " +:+ Provider d
             +:+ " (supported: route53, cloudflare, pihole)").

(** The part of [Validate] on [c.App]: the two defaults. *)
Definition defaultApp (c : Config) : Config :=
  let c := if bool_decide (Workers (App c) ≤ 0)%Z
           then setApp {| Workers := 2; PollInterval := PollInterval (App c);
                          RequiredTags := RequiredTags (App c) |} c
           else c in
  if bool_decide (PollInterval (App c) ≤ 0)%Z
  then setApp {| Workers := Workers (App c); PollInterval := 30 * Second;
                 RequiredTags := RequiredTags (App c) |} c
  else c.

(** The part of [Validate] on [c.Logging.Level]. *)
Definition validateLevel (c : Config) : Config * option error :=
  if negb (inStrings (Level (Logging c)) validLevels) then
    if bool_decide (Level (Logging c) = "")
    then (setLogging {| Level := "info"; Format := Format (Logging c) |} c, None)
    else (c, Some ("invalid logging level: " +:+ Level (Logging c)
                   +:+ " (supported: " +:+ formatStrings validLevels +:+ ")"))
  else (c, None).

(** The part of [Validate] on [c.Logging.Format]. *)
Definition validateFormat (c : Config) : Config * option error :=
  if negb (inStrings (Format (Logging c)) validFormats) then
    if bool_decide (Format (Logging c) = "")
    then (setLogging {| Level := Level (Logging c); Format := "console" |} c, None)
    else (c, Some ("invalid logging format: " +:+ Format (Logging c)
                   +:+ " (supported: " +:+ formatStrings validFormats +:+ ")"))
  else (c, None).

(** [func (c *Config) Validate]. The receiver is a pointer: the result is
    the configuration as the call leaves it, with the error or [nil]. *)
Definition Validate (c : Config) : Config * option error :=
  if bool_decide (APIKey (Tailscale c) = "")
  then (c, Some "tailscale.api_key is required")
  else if bool_decide (Tailnet (Tailscale c) = "")
  then (c, Some "tailscale.tailnet is required")
  else if bool_decide (Provider (DNS c) = "")
  then (c, Some "dns.provider is required")
  else if bool_decide (Domain (DNS c) = "")
  then (c, Some "dns.domain is required")
  else match validateProvider (DNS c) with
       | Some e => (c, Some e)
       | None =>
           match validateLevel (defaultApp c) with
           | (c1, Some e) => (c1, Some e)
           | (c1, None) => validateFormat c1
           end
       end.

(** ** The HTTP providers of package [providers] *)

(** *** HTTP exchanges: a monad of server state and request log *)

(** What a piece of provider code leaves behind: its result, the state of
    the server, and the requests it sent, oldest first. *)
Record Sent (Q S A : Type) : Type := {
  reply : A;
  server : S;
  sent : list Q
}.
Arguments reply {Q S A} _.
Arguments server {Q S A} _.
Arguments sent {Q S A} _.

Definition H (Q S A : Type) : Type := S → Sent Q S A.

Definition hret {Q S A : Type} (a : A) : H Q S A :=
  λ s, {| reply := a; server := s; sent := [] |}.

Definition hbind {Q S A A' : Type} (m : H Q S A) (k : A → H Q S A') : H Q S A' :=
  λ s, let r1 := m s in
       let r2 := k (reply r1) (server r1) in
       {| reply := reply r2; server := server r2; sent := sent r1 ++ sent r2 |}.

Notation "x <<~ m ;; k" := (hbind m (λ x, k))
  (at level 100, m at next level, right associativity).

(** The settings of an [http.Client] the providers choose: the timeout, in
    nanoseconds, and whether the TLS certificate goes unverified. *)
Record HTTPClient : Type := {
  Timeout : Z;
  InsecureSkipVerify : bool
}.

(** *** pihole.go *)

Module pihole.

(** [type PiholeProvider struct]. *)
Record PiholeProvider : Type := {
  baseURL : string;
  apiToken : string;
  httpClient : HTTPClient
}.

(** [type PiholeAPIResponse struct]. *)
Record PiholeAPIResponse : Type := {
  Status : string;
  Error : string
}.

(** A request of [makeRequest]: the method, the URL before any query, the
    [url.Values] (in the query for GET, as the form body otherwise). *)
Record Request : Type := {
  Method : string;
  URL : string;
  Values : gmap string (list string)
}.

(** The part of an [http.Response] the provider reads. *)
Record Response : Type := {
  StatusCode : Z;
  Body : string
}.

(** The world outside the provider: [http.NewRequestWithContext] refusing
    a request, [httpClient.Do], and the two JSON decoders of a body, into
    the [Data] of a [PiholeCustomDNSResponse] and into a
    [PiholeAPIResponse]. *)
Class Server (S : Type) : Type := {
  NewRequest : Request → option error;
  Do : Request → S → Result Response * S;
  DecodeCustomDNS : string → Result (list (list string));
  DecodeAPIResponse : string → Result PiholeAPIResponse
}.

(** [func NewPiholeProvider]. *)
Definition NewPiholeProvider (baseURL apiToken : string) (tlsInsecureSkipVerify : bool)
    : Result PiholeProvider :=
  if bool_decide (baseURL = "") then Err "pi-hole base URL is required"
  else if bool_decide (apiToken = "") then Err "pi-hole API token is required"
  else Ok {| baseURL := strings.TrimSuffix baseURL "/";
             apiToken := apiToken;
             httpClient := {| Timeout := 30 * Second;
                              InsecureSkipVerify := tlsInsecureSkipVerify |} |}.

Section Provider.
Context {S : Type} `{!Server S}.

(** [func (p *PiholeProvider) makeRequest]. Both branches set [auth] in
    the values. *)
Definition makeRequest (p : PiholeProvider) (method endpoint : string)
    (params : gmap string (list string)) : H Request S (Result Response) :=
  let req := {| Method := method; URL := baseURL p +:+ endpoint;
                Values := <["auth" := [apiToken p]]> params |} in
  match NewRequest req with
  | Some e => hret (Err ("failed to create request: " +:+ e))
  | None =>
      λ s, let ans := Do req s in
           {| reply := match ans.1 with
                       | Err e => Err ("request failed: " +:+ e)
                       | Ok resp => Ok resp
                       end;
              server := ans.2;
              sent := [req] |}
  end.

(** The body of the loop of [ListRecords] over [customDNSResp.Data]. *)
Definition appendEntry (zone : string) (records : list DNSRecord) (entry : list string)
    : list DNSRecord :=
  match entry with
  | domain :: ipAddress :: _ =>
      if strings.HasSuffix domain zone
      then records ++ [ {| providers.Name := domain;
                           providers.Type_ :=
                             if strings.Contains ipAddress ":" then "AAAA" else "A";
                           providers.Value := ipAddress;
                           providers.TTL := 300 |} ]
      else records
  | _ => records
  end.

(** [func (p *PiholeProvider) ListRecords]. *)
Definition ListRecords (p : PiholeProvider) (zone : string)
    : H Request S (Result (list DNSRecord)) :=
  resp <<~ makeRequest p "GET" "/admin/api.php" {["customdns" := [""]]} ;;
  match resp with
  | Err e => hret (Err e)
  | Ok resp =>
      if bool_decide (StatusCode resp ≠ 200%Z)
      then hret (Err ("pi-hole API returned status " +:+ formatInt (StatusCode resp)))
      else match DecodeCustomDNS (Body resp) with
           | Err e => hret (Err ("failed to decode response: " +:+ e))
           | Ok data => hret (Ok (fold_left (appendEntry zone) data []))
           end
  end.

(** What [UpdateRecord] and [DeleteRecord] make of the response to their
    POST; [tolerateNotFound] is the test on the error text in
    [DeleteRecord]. *)
Definition checkAPIResponse (tolerateNotFound : bool) (resp : Response) : option error :=
  if bool_decide (StatusCode resp ≠ 200%Z)
  then Some ("pi-hole API returned status " +:+ formatInt (StatusCode resp))
  else match DecodeAPIResponse (Body resp) with
       | Err e => Some ("failed to decode response: " +:+ e)
       | Ok apiResp =>
           if bool_decide (Status apiResp ≠ "success")
           then if tolerateNotFound && strings.Contains (Error apiResp) "not found"
                then None
                else Some ("pi-hole API error: " +:+ Error apiResp)
           else None
       end.

(** [func (p *PiholeProvider) DeleteRecord]. *)
Definition DeleteRecord (p : PiholeProvider) (zone : string) (record : DNSRecord)
    : H Request S (option error) :=
  if bool_decide (providers.Type_ record ≠ "A") && bool_decide (providers.Type_ record ≠ "AAAA")
  then hret None
  else
    resp <<~ makeRequest p "POST" "/admin/api.php"
               (<["customdns" := ["delete"]]>
                  (<["domain" := [providers.Name record]]>
                     {["ip" := [providers.Value record]]})) ;;
    match resp with
    | Err e => hret (Some e)
    | Ok resp => hret (checkAPIResponse true resp)
    end.

(** The loop of [UpdateRecord] over [existingRecords]: the first record
    with the name and type of [record] is deleted, and the loop ends. *)
Fixpoint deleteExisting (p : PiholeProvider) (zone : string) (record : DNSRecord)
    (existingRecords : list DNSRecord) : H Request S (option error) :=
  match existingRecords with
  | [] => hret None
  | existing :: rest =>
      if bool_decide (providers.Name existing = providers.Name record)
         && bool_decide (providers.Type_ existing = providers.Type_ record)
      then
        err <<~ DeleteRecord p zone existing ;;
        match err with
        | Some e => hret (Some ("failed to delete existing record: " +:+ e))
        | None => hret None
        end
      else deleteExisting p zone record rest
  end.

(** [func (p *PiholeProvider) UpdateRecord]. *)
Definition UpdateRecord (p : PiholeProvider) (zone : string) (record : DNSRecord)
    : H Request S (option error) :=
  if bool_decide (providers.Type_ record ≠ "A") && bool_decide (providers.Type_ record ≠ "AAAA")
  then hret (Some ("pi-hole only supports A and AAAA records, got " +:+ providers.Type_ record))
  else
    existingRecords <<~ ListRecords p zone ;;
    match existingRecords with
    | Err e => hret (Some ("failed to check existing records: " +:+ e))
    | Ok existingRecords =>
        err <<~ deleteExisting p zone record existingRecords ;;
        match err with
        | Some e => hret (Some e)
        | None =>
            resp <<~ makeRequest p "POST" "/admin/api.php"
                       (<["customdns" := ["add"]]>
                          (<["domain" := [providers.Name record]]>
                             {["ip" := [providers.Value record]]})) ;;
            match resp with
            | Err e => hret (Some e)
            | Ok resp => hret (checkAPIResponse false resp)
            end
        end
    end.

(** [func (p *PiholeProvider) CreateRecord]. *)
Definition CreateRecord (p : PiholeProvider) (zone : string) (record : DNSRecord)
    : H Request S (option error) :=
  UpdateRecord p zone record.

(** A Pi-hole provider with the server it talks to is a [DNSProvider]. *)
#[export] Instance PiholeProvider_DNSProvider : DNSProvider (PiholeProvider * S) := {
  providers.ListRecords zone b :=
    let out := ListRecords b.1 zone b.2 in (reply out, (b.1, server out));
  providers.CreateRecord zone record b :=
    let out := CreateRecord b.1 zone record b.2 in (reply out, (b.1, server out));
  providers.UpdateRecord zone record b :=
    let out := UpdateRecord b.1 zone record b.2 in (reply out, (b.1, server out));
  providers.DeleteRecord zone record b :=
    let out := DeleteRecord b.1 zone record b.2 in (reply out, (b.1, server out))
}.

End Provider.

End pihole.

(** *** cloudflare.go *)

Module cloudflare.

(** [type CloudflareProvider struct]. *)
Record CloudflareProvider : Type := {
  apiToken : string;
  zoneID : string;
  httpClient : HTTPClient;
  baseURL : string
}.

(** [type CloudflareRecord struct]. [TTL] is an [int], taken as 64 bits
    wide like the [int64] of [DNSRecord]. [Meta] and [Data] hold JSON
    objects the provider neither reads nor sets; they are kept as raw text,
    [None] for the nil map. *)
Record CloudflareRecord : Type := {
  ID : string;
  ZoneID : string;
  ZoneName : string;
  Name : string;
  Type_ : string;
  Content : string;
  TTL : Z;
  Priority : option Z;
  Proxied : option bool;
  Meta : option string;
  Data : option string
}.

(** [type CloudflareError struct]. *)
Record CloudflareError : Type := {
  Code : Z;
  Message : string
}.

(** [type CloudflareMessage struct]. *)
Module CloudflareMessage.
Record t : Type := {
  Code : Z;
  Message : string
}.
End CloudflareMessage.

(** [type CloudflareResultInfo struct]. *)
Record CloudflareResultInfo : Type := {
  Page : Z;
  PerPage : Z;
  Count : Z;
  TotalCount : Z;
  TotalPages : Z
}.

(** [type CloudflareResponse struct]. The field [Result], a
    [json.RawMessage], is spelled [Result_]. *)
Record CloudflareResponse : Type := {
  Success : bool;
  Errors : list CloudflareError;
  Messages : list CloudflareMessage.t;
  Result_ : string;
  ResultInfo : option CloudflareResultInfo
}.

(** A request of [makeRequest]: method, URL, the [Authorization] header
    and the record sent as JSON body, if any. *)
Record Request : Type := {
  Method : string;
  URL : string;
  Authorization : string;
  Body : option CloudflareRecord
}.

(** The world outside the provider: [http.NewRequestWithContext] refusing
    a request, [httpClient.Do] answering with a body, the JSON decoder of a
    body into a [CloudflareResponse], and [json.Unmarshal] of a raw result
    into records. Marshalling a [CloudflareRecord] cannot fail. *)
Class Server (S : Type) : Type := {
  NewRequest : Request → option error;
  Do : Request → S → Result string * S;
  DecodeResponse : string → Result CloudflareResponse;
  UnmarshalRecords : string → Result (list CloudflareRecord)
}.

(** [func NewCloudflareProvider]. *)
Definition NewCloudflareProvider (apiToken zoneID : string) : Result CloudflareProvider :=
  if bool_decide (apiToken = "") || bool_decide (zoneID = "")
  then Err "API token and zone ID are required"
  else Ok {| apiToken := apiToken;
             zoneID := zoneID;
             httpClient := {| Timeout := 30 * Second; InsecureSkipVerify := false |};
             baseURL := "https://api.cloudflare.com/client/v4" |}.

Section Provider.
Context {S : Type} `{!Server S}.

(** What [makeRequest] makes of a decoded response. *)
Definition checkResponse (cfResp : CloudflareResponse) : Result CloudflareResponse :=
  if negb (Success cfResp) then
    match Errors cfResp with
    | first :: _ =>
        Err ("cloudflare API error: " +:+ Message first
             +:+ " (code: " +:+ formatInt (Code first) +:+ ")")
    | [] => Err "cloudflare API request failed"
    end
  else Ok cfResp.

(** [func (c *CloudflareProvider) makeRequest]. *)
Definition makeRequest (c : CloudflareProvider) (method endpoint : string)
    (body : option CloudflareRecord) : H Request S (Result CloudflareResponse) :=
  let req := {| Method := method; URL := baseURL c +:+ endpoint;
                Authorization := "Bearer " +:+ apiToken c; Body := body |} in
  match NewRequest req with
  | Some e => hret (Err ("failed to create request: " +:+ e))
  | None =>
      λ s, let ans := Do req s in
           {| reply := match ans.1 with
                       | Err e => Err ("request failed: " +:+ e)
                       | Ok bytes =>
                           match DecodeResponse bytes with
                           | Err e => Err ("failed to decode response: " +:+ e)
                           | Ok cfResp => checkResponse cfResp
                           end
                       end;
              server := ans.2;
              sent := [req] |}
  end.

(** The body of the loop of [ListRecords] over the records of the
    response. *)
Definition appendRecord (dnsRecords : list DNSRecord) (record : CloudflareRecord)
    : list DNSRecord :=
  if bool_decide (Type_ record = "A") || bool_decide (Type_ record = "AAAA")
     || bool_decide (Type_ record = "TXT")
  then dnsRecords ++ [ {| providers.Name := Name record;
                          providers.Type_ := Type_ record;
                          providers.Value := Content record;
                          providers.TTL := TTL record |} ]
  else dnsRecords.

(** [func (c *CloudflareProvider) ListRecords]. *)
Definition ListRecords (c : CloudflareProvider) (zone : string)
    : H Request S (Result (list DNSRecord)) :=
  resp <<~ makeRequest c "GET" ("/zones/" +:+ zoneID c +:+ "/dns_records") None ;;
  match resp with
  | Err e => hret (Err e)
  | Ok resp =>
      match UnmarshalRecords (Result_ resp) with
      | Err e => hret (Err ("failed to unmarshal DNS records: " +:+ e))
      | Ok records => hret (Ok (fold_left appendRecord records []))
      end
  end.

(** The record [CreateRecord] and [UpdateRecord] send: never proxied. *)
Definition cfRecord (record : DNSRecord) : CloudflareRecord :=
  {| ID := ""; ZoneID := ""; ZoneName := "";
     Name := providers.Name record;
     Type_ := providers.Type_ record;
     Content := providers.Value record;
     TTL := providers.TTL record;
     Priority := None;
     Proxied := Some false;
     Meta := None; Data := None |}.

(** [func (c *CloudflareProvider) CreateRecord]. *)
Definition CreateRecord (c : CloudflareProvider) (zone : string) (record : DNSRecord)
    : H Request S (option error) :=
  resp <<~ makeRequest c "POST" ("/zones/" +:+ zoneID c +:+ "/dns_records")
             (Some (cfRecord record)) ;;
  match resp with
  | Err e => hret (Some e)
  | Ok _ => hret None
  end.

(** The endpoint of the lookup by name and type. *)
Definition lookupEndpoint (c : CloudflareProvider) (record : DNSRecord) : string :=
  "/zones/" +:+ zoneID c +:+ "/dns_records?name=" +:+ providers.Name record
  +:+ "&type=" +:+ providers.Type_ record.

(** The loop of [UpdateRecord] over [existingRecords]: at each listed
    record with the name and type of [record], the lookup is sent; the id of
    the first record of the first lookup that finds one is the result. *)
Fixpoint findRecordID (c : CloudflareProvider) (record : DNSRecord)
    (existingRecords : list DNSRecord) : H Request S (Result (option string)) :=
  match existingRecords with
  | [] => hret (Ok None)
  | existing :: rest =>
      if bool_decide (providers.Name existing = providers.Name record)
         && bool_decide (providers.Type_ existing = providers.Type_ record)
      then
        resp <<~ makeRequest c "GET" (lookupEndpoint c record) None ;;
        match resp with
        | Err e => hret (Err e)
        | Ok resp =>
            match UnmarshalRecords (Result_ resp) with
            | Err e => hret (Err ("failed to unmarshal DNS records: " +:+ e))
            | Ok (first :: _) => hret (Ok (Some (ID first)))
            | Ok [] => findRecordID c record rest
            end
        end
      else findRecordID c record rest
  end.

(** [func (c *CloudflareProvider) UpdateRecord]. *)
Definition UpdateRecord (c : CloudflareProvider) (zone : string) (record : DNSRecord)
    : H Request S (option error) :=
  existingRecords <<~ ListRecords c zone ;;
  match existingRecords with
  | Err e => hret (Some ("failed to list existing records: " +:+ e))
  | Ok existingRecords =>
      found <<~ findRecordID c record existingRecords ;;
      match found with
      | Err e => hret (Some e)
      | Ok None => CreateRecord c zone record
      | Ok (Some recordID) =>
          resp <<~ makeRequest c "PUT"
                     ("/zones/" +:+ zoneID c +:+ "/dns_records/" +:+ recordID)
                     (Some (cfRecord record)) ;;
          match resp with
          | Err e => hret (Some e)
          | Ok _ => hret None
          end
      end
  end.

(** [func (c *CloudflareProvider) DeleteRecord]. *)
Definition DeleteRecord (c : CloudflareProvider) (zone : string) (record : DNSRecord)
    : H Request S (option error) :=
  resp <<~ makeRequest c "GET" (lookupEndpoint c record) None ;;
  match resp with
  | Err e => hret (Some e)
  | Ok resp =>
      match UnmarshalRecords (Result_ resp) with
      | Err e => hret (Some ("failed to unmarshal DNS records: " +:+ e))
      | Ok [] => hret None
      | Ok (first :: _) =>
          resp <<~ makeRequest c "DELETE"
                     ("/zones/" +:+ zoneID c +:+ "/dns_records/" +:+ ID first) None ;;
          match resp with
          | Err e => hret (Some e)
          | Ok _ => hret None
          end
      end
  end.

(** A Cloudflare provider with the server it talks to is a
    [DNSProvider]. *)
#[export] Instance CloudflareProvider_DNSProvider : DNSProvider (CloudflareProvider * S) := {
  providers.ListRecords zone b :=
    let out := ListRecords b.1 zone b.2 in (reply out, (b.1, server out));
  providers.CreateRecord zone record b :=
    let out := CreateRecord b.1 zone record b.2 in (reply out, (b.1, server out));
  providers.UpdateRecord zone record b :=
    let out := UpdateRecord b.1 zone record b.2 in (reply out, (b.1, server out));
  providers.DeleteRecord zone record b :=
    let out := DeleteRecord b.1 zone record b.2 in (reply out, (b.1, server out))
}.

End Provider.

End cloudflare.

(** *** The choice of the provider *)

(** A value of the interface [providers.DNSProvider] as
    [createDNSProvider] returns it: one of the three providers. [C] is the
    type of Route53 clients. *)
Inductive ProviderValue (C : Type) : Type :=
| Route53Value (p : Route53Provider C)
| CloudflareValue (p : cloudflare.CloudflareProvider)
| PiholeValue (p : pihole.PiholeProvider).
Arguments Route53Value {C} p.
Arguments CloudflareValue {C} p.
Arguments PiholeValue {C} p.

(** [func NewRoute53Provider]. [loaded] is the client built from what
    [config.LoadDefaultConfig] returned, or the error of the load. *)
Definition NewRoute53Provider {C : Type} (loaded : Result C) (zoneID : string)
    : Result (Route53Provider C) :=
  match loaded with
  | Err e => Err e
  | Ok c => Ok {| client := c; zoneID := zoneID |}
  end.

Definition asValue {C P : Type} (wrap : P → ProviderValue C) (made : Result P)
    : Result (ProviderValue C) :=
  match made with
  | Ok p => Ok (wrap p)
  | Err e => Err e
  end.

(** [func createDNSProvider]. *)
Definition createDNSProvider {C : Type} (loaded : Result C) (config : Config)
    : Result (ProviderValue C) :=
  if bool_decide (Provider (DNS config) = "route53") then
    asValue Route53Value (NewRoute53Provider loaded (ZoneID (DNS config)))
  else if bool_decide (Provider (DNS config) = "cloudflare") then
    if bool_decide (CloudflareConfig.APIToken (Cloudflare (DNS config)) = "")
    then Err "cloudflare API token is required when using cloudflare provider"
    else asValue CloudflareValue
           (cloudflare.NewCloudflareProvider
              (CloudflareConfig.APIToken (Cloudflare (DNS config))) (ZoneID (DNS config)))
  else if bool_decide (Provider (DNS config) = "pihole") then
    if bool_decide (PiholeConfig.BaseURL (Pihole (DNS config)) = "")
       || bool_decide (PiholeConfig.APIToken (Pihole (DNS config)) = "")
    then Err "pi-hole base URL and API token are required when using pihole provider"
    else asValue PiholeValue
           (pihole.NewPiholeProvider
              (PiholeConfig.BaseURL (Pihole (DNS config)))
              (PiholeConfig.APIToken (Pihole (DNS config)))
              (PiholeConfig.TLSInsecureSkipVerify (Pihole (DNS config))))
  else Err ("unsupported DNS provider: " +:+ Provider (DNS config)).

(** *** Example data for the code above *)

(** A configuration file that names Pi-hole and leaves the worker count,
    the poll interval and the logging settings out. *)
Definition piholeConfig : Config :=
  {| Tailscale := {| APIKey := "tskey-api-k"; Tailnet := "example.com" |};
     DNS := {| Provider := "pihole"; Domain := "example.com"; ZoneID := "";
               Route53 := {| Profile := ""; Region := "" |};
               Cloudflare := {| CloudflareConfig.APIToken := "" |};
               Pihole := {| PiholeConfig.BaseURL := "http://192.168.1.100/";
                            PiholeConfig.APIToken := "secret";
                            PiholeConfig.TLSInsecureSkipVerify := false |} |};
     App := {| Workers := 0; PollInterval := 0; RequiredTags := [] |};
     Logging := {| Level := ""; Format := "" |} |}.

(** [piholeConfig] as [Validate] leaves it. *)
Definition piholeConfigValidated : Config := (Validate piholeConfig).1.

(** Two devices as the API lists them: an authorized laptop with a
    fully qualified name, and a phone that is not authorized. *)
Definition laptopDevice : TailscaleDevice.t :=
  {| TailscaleDevice.ID := "n1";
     TailscaleDevice.Name := "lbr-macbook-pro.tail4cf751.ts.net";
     TailscaleDevice.Hostname := "lbr-macbook-pro";
     TailscaleDevice.ClientVersion := "1.80.0"; TailscaleDevice.UpdateAvailable := false;
     TailscaleDevice.OS := "macOS"; TailscaleDevice.Created := 0;
     TailscaleDevice.LastSeen := 1000; TailscaleDevice.KeyExpiryDisabled := false;
     TailscaleDevice.Expires := 0; TailscaleDevice.Authorized := true;
     TailscaleDevice.IsExternal := false; TailscaleDevice.MachineKey := "mkey:1";
     TailscaleDevice.NodeKey := "nodekey:1";
     TailscaleDevice.BlocksIncomingConnections := false;
     TailscaleDevice.EnabledRoutes := []; TailscaleDevice.AdvertisedRoutes := [];
     TailscaleDevice.Tags := ["tag:dev"]; TailscaleDevice.TailnetLockError := "";
     TailscaleDevice.TailnetLockKey := "";
     TailscaleDevice.Addresses := ["100.64.1.1"; "fd7a:115c:a1e0::1"];
     TailscaleDevice.User := "lbr@example.com" |}.

(** [laptopDevice] after its authorization was withdrawn. *)
Definition laptopUnauthorized : TailscaleDevice.t :=
  {| TailscaleDevice.ID := "n1";
     TailscaleDevice.Name := "lbr-macbook-pro.tail4cf751.ts.net";
     TailscaleDevice.Hostname := "lbr-macbook-pro";
     TailscaleDevice.ClientVersion := "1.80.0"; TailscaleDevice.UpdateAvailable := false;
     TailscaleDevice.OS := "macOS"; TailscaleDevice.Created := 0;
     TailscaleDevice.LastSeen := 1000; TailscaleDevice.KeyExpiryDisabled := false;
     TailscaleDevice.Expires := 0; TailscaleDevice.Authorized := false;
     TailscaleDevice.IsExternal := false; TailscaleDevice.MachineKey := "mkey:1";
     TailscaleDevice.NodeKey := "nodekey:1";
     TailscaleDevice.BlocksIncomingConnections := false;
     TailscaleDevice.EnabledRoutes := []; TailscaleDevice.AdvertisedRoutes := [];
     TailscaleDevice.Tags := ["tag:dev"]; TailscaleDevice.TailnetLockError := "";
     TailscaleDevice.TailnetLockKey := "";
     TailscaleDevice.Addresses := ["100.64.1.1"; "fd7a:115c:a1e0::1"];
     TailscaleDevice.User := "lbr@example.com" |}.

(** A clock that stands still. *)
Definition stoppedClock (now : Z) : nat → Z := λ _, now.

(** The devices of an answer that are authorized, in the order of the
    answer. *)
Definition authorized (devices : list TailscaleDevice.t) : list TailscaleDevice.t :=
  filter (λ d, TailscaleDevice.Authorized d = true) devices.

(** The string [deviceName] starts from: the device name, or the hostname
    when the name is empty. *)
Definition nameSource (d : TailscaleDevice.t) : string :=
  if bool_decide (TailscaleDevice.Name d = "")
  then TailscaleDevice.Hostname d else TailscaleDevice.Name d.

(** A Pi-hole that accepts every request: it answers 200, its custom DNS
    list decodes to [data] and its API responses decode to success. *)
Definition fakePihole (data : list (list string)) : pihole.Server unit := {|
  pihole.NewRequest := λ _, None;
  pihole.Do := λ _ s, (Ok {| pihole.StatusCode := 200; pihole.Body := "" |}, s);
  pihole.DecodeCustomDNS := λ _, Ok data;
  pihole.DecodeAPIResponse := λ _, Ok {| pihole.Status := "success"; pihole.Error := "" |}
|}.

(** The provider [NewPiholeProvider] builds for [http://192.168.1.100/]. *)
Definition examplePihole : pihole.PiholeProvider :=
  {| pihole.baseURL := "http://192.168.1.100"; pihole.apiToken := "secret";
     pihole.httpClient := {| Timeout := 30 * Second; InsecureSkipVerify := false |} |}.

(** The custom DNS list of a Pi-hole that maps [web-server.example.com] to an
    older address. *)
Definition exampleCustomDNS : list (list string) :=
  [ ["printer.lan"; "192.168.1.20"]; ["web-server.example.com"; "100.64.9.9"] ].

(** The GET request of [pihole.ListRecords]. *)
Definition piholeListRequest (p : pihole.PiholeProvider) : pihole.Request :=
  {| pihole.Method := "GET";
     pihole.URL := pihole.baseURL p +:+ "/admin/api.php";
     pihole.Values := <["auth" := [pihole.apiToken p]]> {["customdns" := [""]]} |}.

(** The POST request of [pihole.UpdateRecord] ([action] is [add]) and of
    [pihole.DeleteRecord] ([action] is [delete]) for a record. *)
Definition piholeWriteRequest (p : pihole.PiholeProvider) (action : string)
    (record : DNSRecord) : pihole.Request :=
  {| pihole.Method := "POST";
     pihole.URL := pihole.baseURL p +:+ "/admin/api.php";
     pihole.Values :=
       <["auth" := [pihole.apiToken p]]>
         (<["customdns" := [action]]>
            (<["domain" := [providers.Name record]]>
               {["ip" := [providers.Value record]]})) |}.

(** The first record of a listing with the name and the type of
    [record]. *)
Definition firstSameNameType (record : DNSRecord) (existing : list DNSRecord)
    : option DNSRecord :=
  head (filter (λ ex, providers.Name ex = providers.Name record
                      ∧ providers.Type_ ex = providers.Type_ record) existing).

(** What one record of a Pi-hole listing looks like: an A or AAAA record,
    AAAA exactly when the value holds a colon, with TTL 300 and a name that
    ends with the zone. *)
Definition piholeListed (zone : string) (record : DNSRecord) : Prop :=
  addressTyped record ∧
  providers.Type_ record
    = (if strings.Contains (providers.Value record) ":" then "AAAA" else "A") ∧
  providers.TTL record = 300%Z ∧
  strings.HasSuffix (providers.Name record) zone = true.

(** A Cloudflare that accepts every request: every response decodes to
    a success whose result unmarshals to [records]. *)
Definition fakeCloudflare (records : list cloudflare.CloudflareRecord)
    : cloudflare.Server unit := {|
  cloudflare.NewRequest := λ _, None;
  cloudflare.Do := λ _ s, (Ok "", s);
  cloudflare.DecodeResponse :=
    λ _, Ok {| cloudflare.Success := true; cloudflare.Errors := [];
               cloudflare.Messages := []; cloudflare.Result_ := "";
               cloudflare.ResultInfo := None |};
  cloudflare.UnmarshalRecords := λ _, Ok records
|}.

(** The provider [NewCloudflareProvider] builds for zone [z1]. *)
Definition exampleCloudflare : cloudflare.CloudflareProvider :=
  {| cloudflare.apiToken := "token"; cloudflare.zoneID := "z1";
     cloudflare.httpClient := {| Timeout := 30 * Second; InsecureSkipVerify := false |};
     cloudflare.baseURL := "https://api.cloudflare.com/client/v4" |}.

(** A record of a Cloudflare response. *)
Definition cloudflareRecord (id name type content : string) : cloudflare.CloudflareRecord :=
  {| cloudflare.ID := id; cloudflare.ZoneID := "z1"; cloudflare.ZoneName := "example.com";
     cloudflare.Name := name; cloudflare.Type_ := type; cloudflare.Content := content;
     cloudflare.TTL := 300; cloudflare.Priority := None; cloudflare.Proxied := Some false;
     cloudflare.Meta := None; cloudflare.Data := None |}.

(** The records of a zone as Cloudflare returns them: the three records of
    [fooNode] and a mail exchanger. *)
Definition exampleCloudflareZone : list cloudflare.CloudflareRecord :=
  [ cloudflareRecord "r1" "foo.example.com" "A" "100.64.0.7";
    cloudflareRecord "r2" "example.com" "MX" "mail.example.com";
    cloudflareRecord "r3" "foo.example.com" "TXT" "dnsscale-managed node_id=123456";
    cloudflareRecord "r4" "foo.example.com" "AAAA" "fd7a:115c:a1e0::7" ].

(** The types [cloudflare.ListRecords] keeps. *)
Definition cloudflareKept (record : cloudflare.CloudflareRecord) : Prop :=
  cloudflare.Type_ record = "A" ∨ cloudflare.Type_ record = "AAAA"
  ∨ cloudflare.Type_ record = "TXT".

(** A Cloudflare record in the shape of the engine. *)
Definition fromCloudflare (record : cloudflare.CloudflareRecord) : DNSRecord :=
  {| providers.Name := cloudflare.Name record;
     providers.Type_ := cloudflare.Type_ record;
     providers.Value := cloudflare.Content record;
     providers.TTL := cloudflare.TTL record |}.

(** The request [cloudflare.makeRequest] builds. *)
Definition cloudflareRequest (c : cloudflare.CloudflareProvider) (method endpoint : string)
    (body : option cloudflare.CloudflareRecord) : cloudflare.Request :=
  {| cloudflare.Method := method;
     cloudflare.URL := cloudflare.baseURL c +:+ endpoint;
     cloudflare.Authorization := "Bearer " +:+ cloudflare.apiToken c;
     cloudflare.Body := body |}.

(** What a GET on [endpoint] comes to, from the server in state [s]: the
    records its result unmarshals to, or the error on the way. *)
Definition cloudflareGet {W : Type} `{!cloudflare.Server W}
    (c : cloudflare.CloudflareProvider) (endpoint : string) (s : W)
    : Result (list cloudflare.CloudflareRecord) :=
  match reply (cloudflare.makeRequest c "GET" endpoint None s) with
  | Ok resp => cloudflare.UnmarshalRecords (cloudflare.Result_ resp)
  | Err e => Err e
  end.

(** A request that reads: a GET without a body. *)
Definition cloudflareRead (q : cloudflare.Request) : Prop :=
  cloudflare.Method q = "GET" ∧ cloudflare.Body q = None.

(** The endpoint of the records of the zone, and of one record of it. *)
Definition recordsEndpoint (c : cloudflare.CloudflareProvider) : string :=
  "/zones/" +:+ cloudflare.zoneID c +:+ "/dns_records".

Definition recordEndpoint (c : cloudflare.CloudflareProvider) (id : string) : string :=
  "/zones/" +:+ cloudflare.zoneID c +:+ "/dns_records/" +:+ id.



(** * Properties *)

(** ** Strings *)

Example Contains_no_colon : strings.Contains "10.0.0.1" ":" = false.
Proof. reflexivity. Qed.

Example Contains_colon : strings.Contains "fd7a:115c::1" ":" = true.
Proof. reflexivity. Qed.

Example HasSuffix_delete : strings.HasSuffix "n1:delete" ":delete" = true.
Proof. reflexivity. Qed.

Example TrimSuffix_delete : strings.TrimSuffix "n1:delete" ":delete" = "n1".
Proof. reflexivity. Qed.

Section StringFacts.

Lemma append_nil (b : string) : "" +:+ b = b.
Proof. reflexivity. Qed.

Lemma append_cons (c : ascii) (a b : string) : String c a +:+ b = String c (a +:+ b).
Proof. reflexivity. Qed.

Lemma append_assoc (a b c : string) : (a +:+ b) +:+ c = a +:+ b +:+ c.
Proof.
  induction a as [|x a IH]; [done |].
  by rewrite !append_cons, IH.
Qed.

Lemma length_append (a b : string) :
  String.length (a +:+ b) = String.length a + String.length b.
Proof.
  induction a as [|c a IH]; [done |].
  rewrite append_cons. simpl. by rewrite IH.
Qed.

Lemma substring_whole (s : string) : String.substring 0 (String.length s) s = s.
Proof. induction s as [|c s IH]; simpl; [done | by rewrite IH]. Qed.

Lemma substring_skip (a b : string) (n : nat) :
  String.substring (String.length a) n (a +:+ b) = String.substring 0 n b.
Proof.
  induction a as [|c a IH]; [done |].
  rewrite append_cons. simpl. apply IH.
Qed.

Lemma substring_take (a b : string) :
  String.substring 0 (String.length a) (a +:+ b) = a.
Proof.
  induction a as [|c a IH]; [by destruct b |].
  rewrite append_cons. simpl. by rewrite IH.
Qed.

Lemma HasSuffix_app (a suffix : string) : strings.HasSuffix (a +:+ suffix) suffix = true.
Proof.
  unfold strings.HasSuffix. rewrite length_append.
  replace (String.length a + String.length suffix - String.length suffix)
    with (String.length a) by lia.
  rewrite substring_skip, substring_whole.
  apply andb_true_iff; split; apply bool_decide_eq_true; [lia | done].
Qed.

Lemma TrimSuffix_app (a suffix : string) : strings.TrimSuffix (a +:+ suffix) suffix = a.
Proof.
  unfold strings.TrimSuffix. rewrite HasSuffix_app, length_append.
  replace (String.length a + String.length suffix - String.length suffix)
    with (String.length a) by lia.
  apply substring_take.
Qed.

Lemma HasPrefix_app (p s : string) : strings.HasPrefix (p +:+ s) p = true.
Proof.
  induction p as [|c p IH]; [done |].
  rewrite append_cons. simpl.
  rewrite IH, andb_true_r. by apply bool_decide_eq_true.
Qed.

Lemma Contains_here (s p : string) :
  strings.HasPrefix s p = true → strings.Contains s p = true.
Proof. intros Hp. destruct s; simpl in *; by rewrite Hp. Qed.

Lemma Contains_app_l (a s p : string) :
  strings.Contains s p = true → strings.Contains (a +:+ s) p = true.
Proof.
  intros Hs. induction a as [|c a IH]; [done |].
  rewrite append_cons. simpl. rewrite IH. apply orb_true_r.
Qed.

(** A string contains each of its infixes. *)
Lemma Contains_infix (a p b : string) : strings.Contains (a +:+ p +:+ b) p = true.
Proof. apply Contains_app_l, Contains_here, HasPrefix_app. Qed.

End StringFacts.

(** ** [nodesEqual] compares the name, the online flag and the addresses *)

Section NodesEqual.

Lemma addressesEqualFrom_true (i : nat) (aAddresses bAddresses : list string) :
  addressesEqualFrom i aAddresses bAddresses = true ↔
  ∀ (j : nat) (addr : string),
    aAddresses !! j = Some addr → bAddresses !! (i + j) = Some addr.
Proof.
  revert i. induction aAddresses as [|addr rest IH]; intros i; simpl.
  - split; [intros _ j x Hj; by rewrite lookup_nil in Hj | done].
  - destruct (bAddresses !! i) as [baddr|] eqn:Hb.
    + case_bool_decide as Hne.
      * split; [done |]. intros Hall.
        specialize (Hall 0 addr eq_refl). rewrite Nat.add_0_r in Hall. congruence.
      * subst baddr. rewrite IH. split.
        -- intros Hall [|j] x Hj; simpl in Hj.
           ++ rewrite Nat.add_0_r. congruence.
           ++ rewrite <- Nat.add_succ_comm. by apply Hall.
        -- intros Hall j x Hj. rewrite Nat.add_succ_comm. by apply Hall.
    + split; [done |]. intros Hall.
      specialize (Hall 0 addr eq_refl). rewrite Nat.add_0_r in Hall. congruence.
Qed.

Lemma nodesEqual_true (a b : TailscaleNode) :
  nodesEqual a b = true ↔
  Name a = Name b ∧ Online a = Online b ∧ Addresses a = Addresses b.
Proof.
  unfold nodesEqual.
  destruct (decide (Name a = Name b)) as [Hn|Hn];
    [| rewrite (bool_decide_eq_true_2 _ Hn); simpl;
       split; [done | intros (Heq & _ & _); done]].
  destruct (decide (Online a = Online b)) as [Ho|Ho];
    [| rewrite (bool_decide_eq_true_2 _ Ho), orb_true_r; simpl;
       split; [done | intros (_ & Heq & _); done]].
  destruct (decide (length (Addresses a) = length (Addresses b))) as [Hl|Hl];
    [| rewrite (bool_decide_eq_true_2 _ Hl), orb_true_r; simpl;
       split; [done | intros (_ & _ & Heq); by rewrite Heq in Hl]].
  rewrite !bool_decide_eq_false_2 by (intros ?; done). simpl.
  rewrite addressesEqualFrom_true. split.
  - intros Hall. repeat split; try done.
    apply list_eq_same_length with (length (Addresses a)); [done | done |].
    intros j x y _ Hx Hy. apply Hall in Hx. simpl in Hx. congruence.
  - intros (_ & _ & Heq) j x Hj. simpl. by rewrite <- Heq.
Qed.

Lemma nodesEqual_refl (a : TailscaleNode) : nodesEqual a a = true.
Proof. by apply nodesEqual_true. Qed.

Lemma nodesEqual_trans (a b c : TailscaleNode) :
  nodesEqual a b = true → nodesEqual b c = true → nodesEqual a c = true.
Proof.
  rewrite !nodesEqual_true.
  intros (Hn & Ho & Ha) (Hn' & Ho' & Ha'). repeat split; congruence.
Qed.

End NodesEqual.

(** ** The change detector *)

Section ChangeDetector.

Implicit Types (r : DNSReconciler) (cur : gmap string bool).
Implicit Types (nodes : list TailscaleNode) (ids : list string).

(** *** The second loop: ids of the cache missing from the fetched list *)

Lemma syncDeleted_fold_queue cur ids r :
  queue (fold_left (syncDeleted cur) ids r) = queue r ++ deletionCalls cur ids.
Proof.
  revert r. induction ids as [|id ids IH]; intros r; simpl.
  - unfold deletionCalls. simpl. by rewrite app_nil_r.
  - rewrite IH. unfold syncDeleted, deletionCalls. rewrite filter_cons.
    destruct (lookupBool cur id) eqn:Hid; simpl.
    + done.
    + by rewrite <- app_assoc.
Qed.

Lemma syncDeleted_fold_cache cur ids r (id : string) :
  nodeCache (fold_left (syncDeleted cur) ids r) !! id =
  if decide (id ∈ ids ∧ lookupBool cur id = false) then None else nodeCache r !! id.
Proof.
  revert r. induction ids as [|k ids IH]; intros r; cbn [fold_left].
  - case_decide as Hin; [| done]. destruct Hin as [Hin _].
    by apply not_elem_of_nil in Hin.
  - rewrite IH. unfold syncDeleted.
    destruct (decide (id ∈ ids ∧ lookupBool cur id = false)) as [[Hin Hc]|Hno].
    + rewrite decide_True; [done |]. split; [by right | done].
    + destruct (lookupBool cur k) eqn:Hk; cbn [negb nodeCache setNodeCache callQueue].
      * case_decide as Hin; [| done]. destruct Hin as [Hin Hc].
        apply elem_of_cons in Hin as [->|Hin]; [congruence |].
        by destruct Hno.
      * destruct (decide (id = k)) as [->|Hne].
        -- rewrite lookup_delete_eq. rewrite decide_True; [done |].
           split; [by left | done].
        -- rewrite lookup_delete_ne by done. case_decide as Hin; [| done].
           destruct Hin as [Hin Hc].
           apply elem_of_cons in Hin as [?|Hin]; [done |].
           by destruct Hno.
Qed.

Lemma syncDeleted_fold_config cur ids r :
  domain (fold_left (syncDeleted cur) ids r) = domain r ∧
  annotations (fold_left (syncDeleted cur) ids r) = annotations r.
Proof.
  revert r. induction ids as [|k ids IH]; intros r; simpl; [done |].
  destruct (IH (syncDeleted cur r k)) as [-> ->].
  unfold syncDeleted. by destruct (lookupBool cur k).
Qed.

(** Nothing to delete: the loop changes nothing. *)
Lemma syncDeleted_fold_id cur ids r :
  (∀ id, id ∈ ids → lookupBool cur id = true) →
  fold_left (syncDeleted cur) ids r = r.
Proof.
  revert r. induction ids as [|k ids IH]; intros r Hall; simpl; [done |].
  unfold syncDeleted at 2. rewrite (Hall k) by left. simpl.
  apply IH. intros id Hin. apply Hall. by right.
Qed.

(** *** The first loop: new or changed nodes *)

(** The two ways through the loop body. *)
Lemma syncNode_cases r cur (n : TailscaleNode) :
  (syncNode (r, cur) n = (r, <[ID n := true]> cur) ∧
   ∃ e, nodeCache r !! ID n = Some e ∧ nodesEqual e n = true)
  ∨
  (syncNode (r, cur) n =
     (callQueue (QAdd (ID n)) (setNodeCache (<[ID n := n]> (nodeCache r)) r),
      <[ID n := true]> cur) ∧
   ∀ e, nodeCache r !! ID n = Some e → nodesEqual e n = false).
Proof.
  unfold syncNode. destruct (nodeCache r !! ID n) as [e|] eqn:He.
  - destruct (nodesEqual e n) eqn:Heq; cbn [negb].
    + left. split; [done |]. by exists e.
    + right. split; [done |]. intros e' [= <-]. done.
  - right. split; [done |]. intros e' [=].
Qed.

Lemma nodeIDs_cons (n : TailscaleNode) nodes : nodeIDs (n :: nodes) = {[ID n]} ∪ nodeIDs nodes.
Proof. done. Qed.

Lemma syncNode_fold_current nodes r cur (id : string) :
  lookupBool (fold_left syncNode nodes (r, cur)).2 id =
  bool_decide (id ∈ nodeIDs nodes) || lookupBool cur id.
Proof.
  revert r cur. induction nodes as [|n nodes IH]; intros r cur; cbn [fold_left].
  - rewrite bool_decide_eq_false_2; [done | set_solver].
  - assert (Hstep : ∀ r', lookupBool (fold_left syncNode nodes (r', <[ID n := true]> cur)).2 id
              = bool_decide (id ∈ nodeIDs (n :: nodes)) || lookupBool cur id).
    { intros r'. rewrite IH, nodeIDs_cons. unfold lookupBool.
      destruct (decide (id = ID n)) as [->|Hne].
      - rewrite lookup_insert_eq. cbn [default]. rewrite orb_true_r.
        by rewrite bool_decide_eq_true_2 by set_solver.
      - rewrite lookup_insert_ne by done.
        f_equal. apply bool_decide_ext. set_solver. }
    destruct (syncNode_cases r cur n) as [[-> _]|[-> _]]; apply Hstep.
Qed.

Lemma syncNode_fold_dom nodes r cur :
  dom (nodeCache (fold_left syncNode nodes (r, cur)).1) =
  dom (nodeCache r) ∪ nodeIDs nodes.
Proof.
  revert r cur. induction nodes as [|n nodes IH]; intros r cur; cbn [fold_left].
  - unfold nodeIDs. set_solver.
  - rewrite nodeIDs_cons.
    destruct (syncNode_cases r cur n) as [[-> (e & He & _)]|[-> _]]; rewrite IH.
    + apply elem_of_dom_2 in He. set_solver.
    + cbn [nodeCache callQueue setNodeCache]. rewrite dom_insert_L. set_solver.
Qed.

Lemma syncNode_fold_config nodes r cur :
  domain (fold_left syncNode nodes (r, cur)).1 = domain r ∧
  annotations (fold_left syncNode nodes (r, cur)).1 = annotations r.
Proof.
  revert r cur. induction nodes as [|n nodes IH]; intros r cur; cbn [fold_left]; [done |].
  destruct (syncNode_cases r cur n) as [[-> _]|[-> _]];
    match goal with
    | |- context [fold_left syncNode nodes (?r', ?cur')] =>
        destruct (IH r' cur') as [-> ->]
    end; done.
Qed.

(** Every call of the first loop is [queue.Add(node.ID)] for a node of
    the fetched list. *)
Lemma syncNode_fold_queue nodes r cur :
  ∃ upserts : list QueueCall,
    queue (fold_left syncNode nodes (r, cur)).1 = queue r ++ upserts ∧
    Forall (λ c, ∃ n, n ∈ nodes ∧ c = QAdd (ID n)) upserts.
Proof.
  revert r cur. induction nodes as [|n nodes IH]; intros r cur; cbn [fold_left].
  - exists []. by rewrite app_nil_r.
  - destruct (syncNode_cases r cur n) as [[-> _]|[-> _]];
      edestruct IH as (ups & -> & Hups).
    + exists ups. split; [done |].
      eapply Forall_impl; [exact Hups |].
      intros c (m & Hm & ->). exists m. split; [by right | done].
    + exists (QAdd (ID n) :: ups). cbn [queue callQueue setNodeCache].
      rewrite <- app_assoc. split; [done |].
      constructor; [exists n; split; [left | done] |].
      eapply Forall_impl; [exact Hups |].
      intros c (m & Hm & ->). exists m. split; [by right | done].
Qed.

(** A fetched list that brings nothing new leaves the first loop without a
    write. *)
Lemma syncNode_fold_id nodes r cur :
  (∀ n, n ∈ nodes → ∃ e, nodeCache r !! ID n = Some e ∧ nodesEqual e n = true) →
  (fold_left syncNode nodes (r, cur)).1 = r.
Proof.
  revert cur. induction nodes as [|n nodes IH]; intros cur Hall; cbn [fold_left]; [done |].
  destruct (syncNode_cases r cur n) as [[-> _]|[_ Hch]].
  - apply IH. intros m Hm. apply Hall. by right.
  - destruct (Hall n) as (e & He & Heq); [left |].
    rewrite (Hch e He) in Heq. done.
Qed.

Lemma syncNode_fold_other nodes r cur (id : string) :
  id ∉ nodeIDs nodes →
  nodeCache (fold_left syncNode nodes (r, cur)).1 !! id = nodeCache r !! id.
Proof.
  revert r cur. induction nodes as [|n nodes IH]; intros r cur Hid; cbn [fold_left]; [done |].
  rewrite nodeIDs_cons in Hid.
  destruct (syncNode_cases r cur n) as [[-> _]|[-> _]]; rewrite IH by set_solver.
  - done.
  - cbn [nodeCache callQueue setNodeCache]. apply lookup_insert_ne. set_solver.
Qed.

(** After the first loop the cache holds, for every fetched node, an
    entry that [nodesEqual] cannot tell from it. *)
Lemma syncNode_fold_entries nodes r cur (n : TailscaleNode) :
  NoDup (ID <$> nodes) → n ∈ nodes →
  ∃ e, nodeCache (fold_left syncNode nodes (r, cur)).1 !! ID n = Some e ∧
       nodesEqual e n = true.
Proof.
  revert r cur. induction nodes as [|m nodes IH]; intros r cur Hnd Hn; cbn [fold_left].
  - by apply not_elem_of_nil in Hn.
  - rewrite fmap_cons in Hnd. apply NoDup_cons in Hnd as [Hm Hnd].
    apply elem_of_cons in Hn as [->|Hn].
    + assert (Hfresh : ID m ∉ nodeIDs nodes) by (unfold nodeIDs; set_solver).
      destruct (syncNode_cases r cur m) as [[-> (e & He & Heq)]|[-> _]];
        rewrite syncNode_fold_other by done.
      * by exists e.
      * exists m. cbn [nodeCache callQueue setNodeCache].
        rewrite lookup_insert_eq. split; [done | apply nodesEqual_refl].
    + destruct (syncNode_cases r cur m) as [[-> _]|[-> _]]; by apply IH.
Qed.

(** *** The order of the second loop *)

Lemma rangeKeys_elem (ord : RangeOrder) (m : gmap string TailscaleNode) (id : string) :
  id ∈ ord m ↔ is_Some (m !! id).
Proof.
  rewrite (rangeKeys_perm ord m), list_elem_of_fmap. split.
  - intros ([k v] & -> & Hkv). apply elem_of_map_to_list in Hkv. by exists v.
  - intros [v Hv]. exists (id, v). split; [done | by apply elem_of_map_to_list].
Qed.

Lemma rangeKeys_NoDup (ord : RangeOrder) (m : gmap string TailscaleNode) : NoDup (ord m).
Proof. rewrite (rangeKeys_perm ord m). apply NoDup_fst_map_to_list. Qed.

(** *** One run on a fetched list *)

Lemma syncNodes_lookup (ord : RangeOrder) nodes r (id : string) :
  nodeCache (syncNodes ord (Ok nodes) r) !! id =
  if decide (id ∈ nodeIDs nodes)
  then nodeCache (fold_left syncNode nodes (r, ∅)).1 !! id
  else None.
Proof.
  unfold syncNodes.
  pose proof (syncNode_fold_current nodes r ∅ id) as Hcur.
  pose proof (syncNode_fold_dom nodes r ∅) as Hdom.
  destruct (fold_left syncNode nodes (r, ∅)) as [r1 cur]. cbn [fst snd] in *.
  rewrite syncDeleted_fold_cache, Hcur. clear Hcur.
  replace (lookupBool ∅ id) with false by done. rewrite orb_false_r.
  destruct (decide (id ∈ nodeIDs nodes)) as [Hin|Hout].
  - rewrite bool_decide_eq_true_2 by done.
    case_decide as Hdel; [by destruct Hdel as [_ [=]] | done].
  - rewrite bool_decide_eq_false_2 by done. case_decide as Hdel; [done |].
    destruct (nodeCache r1 !! id) as [e|] eqn:He; [| done].
    destruct Hdel. split; [| done]. apply rangeKeys_elem. by exists e.
Qed.

Lemma syncNodes_dom (ord : RangeOrder) nodes r :
  dom (nodeCache (syncNodes ord (Ok nodes) r)) = nodeIDs nodes.
Proof.
  apply set_eq. intros id. rewrite elem_of_dom, syncNodes_lookup.
  pose proof (syncNode_fold_dom nodes r ∅) as Hdom.
  case_decide as Hin.
  - split; [done |]. intros _. apply elem_of_dom. rewrite Hdom. set_solver.
  - split; [intros [? [=]] | done].
Qed.

Lemma syncNodes_queue (ord : RangeOrder) nodes r :
  ∃ (upserts : list QueueCall) (cur : gmap string bool) (ids : list string),
    queue (syncNodes ord (Ok nodes) r) = queue r ++ upserts ++ deletionCalls cur ids ∧
    Forall (λ c, ∃ n, n ∈ nodes ∧ c = QAdd (ID n)) upserts ∧
    NoDup ids ∧
    (∀ id, id ∈ ids ↔ id ∈ dom (nodeCache r) ∪ nodeIDs nodes) ∧
    (∀ id, lookupBool cur id = bool_decide (id ∈ nodeIDs nodes)).
Proof.
  unfold syncNodes.
  destruct (syncNode_fold_queue nodes r ∅) as (ups & Hq & Hups).
  pose proof (syncNode_fold_current nodes r ∅) as Hcur.
  pose proof (syncNode_fold_dom nodes r ∅) as Hdom.
  destruct (fold_left syncNode nodes (r, ∅)) as [r1 cur]. cbn [fst snd] in *.
  exists ups, cur, (ord (nodeCache r1)).
  rewrite syncDeleted_fold_queue, Hq, <- app_assoc.
  split_and!; [done | done | apply rangeKeys_NoDup | |].
  - intros id. by rewrite rangeKeys_elem, <- elem_of_dom, Hdom.
  - intros id. rewrite Hcur. apply orb_false_r.
Qed.

(** A list the cache already agrees with: the run changes nothing. *)
Lemma syncNodes_stable (ord : RangeOrder) nodes r :
  (∀ n, n ∈ nodes → ∃ e, nodeCache r !! ID n = Some e ∧ nodesEqual e n = true) →
  dom (nodeCache r) ⊆ nodeIDs nodes →
  syncNodes ord (Ok nodes) r = r.
Proof.
  intros Hall Hdom. unfold syncNodes.
  pose proof (syncNode_fold_current nodes r ∅) as Hcur.
  pose proof (syncNode_fold_id nodes r ∅ Hall) as Hid.
  destruct (fold_left syncNode nodes (r, ∅)) as [r1 cur]. cbn [fst snd] in *. subst r1.
  apply syncDeleted_fold_id. intros id Hin.
  rewrite Hcur. apply rangeKeys_elem, elem_of_dom in Hin.
  by rewrite bool_decide_eq_true_2 by set_solver.
Qed.

Lemma syncNodes_entries (ord : RangeOrder) nodes r (n : TailscaleNode) :
  NoDup (ID <$> nodes) → n ∈ nodes →
  ∃ e, nodeCache (syncNodes ord (Ok nodes) r) !! ID n = Some e ∧ nodesEqual e n = true.
Proof.
  intros Hnd Hn. rewrite syncNodes_lookup.
  rewrite decide_True by (unfold nodeIDs; set_solver).
  by apply syncNode_fold_entries.
Qed.

(** *** Counting the deletion keys *)

Lemma suffix_inj (a b suffix : string) : a +:+ suffix = b +:+ suffix → a = b.
Proof.
  intros Heq. rewrite <- (TrimSuffix_app a suffix), <- (TrimSuffix_app b suffix).
  by rewrite Heq.
Qed.

Lemma timesCalled_app (c : QueueCall) (l1 l2 : list QueueCall) :
  timesCalled c (l1 ++ l2) = timesCalled c l1 + timesCalled c l2.
Proof. unfold timesCalled. by rewrite filter_app, length_app. Qed.

Lemma timesCalled_absent (c : QueueCall) (l : list QueueCall) :
  c ∉ l → timesCalled c l = 0.
Proof.
  intros Hc. unfold timesCalled.
  induction l as [|x l IH]; [done |].
  rewrite filter_cons. apply not_elem_of_cons in Hc as [Hx Hl].
  rewrite decide_False by done. by apply IH.
Qed.

Lemma deletionCalls_elem cur ids (id : string) :
  QAdd (id +:+ ":delete") ∈ deletionCalls cur ids ↔ id ∈ ids ∧ lookupBool cur id = false.
Proof.
  unfold deletionCalls. rewrite list_elem_of_fmap. split.
  - intros (k & [= Hk] & Hin). apply suffix_inj in Hk as <-.
    by apply list_elem_of_filter in Hin as [? ?].
  - intros [Hin Hc]. exists id. split; [done |]. by apply list_elem_of_filter.
Qed.

Lemma deletionCalls_count cur ids (id : string) :
  NoDup ids → id ∈ ids → lookupBool cur id = false →
  timesCalled (QAdd (id +:+ ":delete")) (deletionCalls cur ids) = 1.
Proof.
  intros Hnd Hin Hc. induction ids as [|k ids IH]; [by apply not_elem_of_nil in Hin |].
  apply NoDup_cons in Hnd as [Hk Hnd].
  unfold deletionCalls. rewrite filter_cons.
  destruct (decide (k = id)) as [->|Hne].
  - rewrite decide_True by done. rewrite fmap_cons.
    change (timesCalled ?c (?x :: ?l)) with (timesCalled c ([x] ++ l)).
    rewrite timesCalled_app. fold (deletionCalls cur ids).
    rewrite (timesCalled_absent _ (deletionCalls cur ids)).
    + unfold timesCalled. rewrite filter_cons, decide_True by done. done.
    + rewrite deletionCalls_elem. intros [? _]. done.
  - apply elem_of_cons in Hin as [?|Hin]; [done |].
    case_decide as Hk'.
    + rewrite fmap_cons.
      change (timesCalled ?c (?x :: ?l)) with (timesCalled c ([x] ++ l)).
      rewrite timesCalled_app. fold (deletionCalls cur ids). rewrite IH by done.
      rewrite timesCalled_absent; [done |].
      intros Hx. apply list_elem_of_singleton in Hx. injection Hx as Hx.
      apply suffix_inj in Hx. done.
    + fold (deletionCalls cur ids). by apply IH.
Qed.

Lemma differOnlyInTags_nodesEqual (a b : TailscaleNode) :
  differOnlyInTags a b → nodesEqual a b = true.
Proof. intros (_ & Hn & _ & Ha & Ho & _). by apply nodesEqual_true. Qed.

Lemma addRequiredTags_cache (requiredTags : list string) r :
  nodeCache (addRequiredTags requiredTags r) = nodeCache r.
Proof.
  revert r. induction requiredTags as [|tag tags IH]; intros r; [done |].
  unfold addRequiredTags. cbn [fold_left]. fold (addRequiredTags tags). by rewrite IH.
Qed.

Lemma newReconciler_cache (zone : string) (requiredTags : list string) :
  nodeCache (newReconciler zone requiredTags) = ∅.
Proof. unfold newReconciler. by rewrite addRequiredTags_cache. Qed.

Lemma pollCycles_dom polls r nodes :
  dom (nodeCache r) = nodeIDs nodes →
  dom (nodeCache (pollCycles polls r)) = nodeIDs (lastFetched polls nodes).
Proof.
  revert r nodes. induction polls as [|[ord [fetched|e]] polls IH]; intros r nodes Hr.
  - done.
  - apply IH, syncNodes_dom.
  - by apply IH.
Qed.

End ChangeDetector.

(** ** What the specification states about the change detector *)

(** C5. [L1] is a fetched list in which the id names the node (no id
    occurs twice), and [L2] a fetched list with the same ids in which every
    node differs from the node of [L1] with its id only in the tag list.
    Running the change detector on [L2] against the cache that a run on [L1]
    built adds no key to the queue and leaves the key set of the cache as it
    was. *)
Theorem syncNodes_tag_change_silent (ord1 ord2 : RangeOrder)
    (L1 L2 : list TailscaleNode) (r0 : DNSReconciler) :
  NoDup (ID <$> L1) →
  (∀ n2, n2 ∈ L2 → ∃ n1, n1 ∈ L1 ∧ differOnlyInTags n1 n2) →
  (∀ n1, n1 ∈ L1 → ∃ n2, n2 ∈ L2 ∧ ID n2 = ID n1) →
  let r1 := syncNodes ord1 (Ok L1) r0 in
  let r2 := syncNodes ord2 (Ok L2) r1 in
  queue r2 = queue r1 ∧ dom (nodeCache r2) = dom (nodeCache r1).
Proof.
  intros Hnd Hfrom Honto r1 r2.
  assert (Hstable : r2 = r1); [| by rewrite Hstable].
  apply syncNodes_stable.
  - intros n2 Hn2. destruct (Hfrom n2 Hn2) as (n1 & Hn1 & Hd).
    destruct (syncNodes_entries ord1 L1 r0 n1 Hnd Hn1) as (e & He & Heq).
    exists e. destruct Hd as (Hid & Hrest). rewrite <- Hid. split; [done |].
    eapply nodesEqual_trans; [exact Heq |].
    by apply differOnlyInTags_nodesEqual.
  - unfold r1. rewrite syncNodes_dom. unfold nodeIDs.
    intros id Hid. apply elem_of_list_to_set, list_elem_of_fmap in Hid as (n1 & -> & Hn1).
    destruct (Honto n1 Hn1) as (n2 & Hn2 & <-).
    apply elem_of_list_to_set, list_elem_of_fmap. by exists n2.
Qed.

Lemma syncNodes_tag_change_silent_witness :
  NoDup (ID <$> [webServer; dbServer]) ∧
  (∀ n2, n2 ∈ [dbServer; webServerRetagged] →
         ∃ n1, n1 ∈ [webServer; dbServer] ∧ differOnlyInTags n1 n2) ∧
  (∀ n1, n1 ∈ [webServer; dbServer] →
         ∃ n2, n2 ∈ [dbServer; webServerRetagged] ∧ ID n2 = ID n1) ∧
  let r1 := syncNodes defaultOrder (Ok [webServer; dbServer]) (newReconciler "example.com" []) in
  let r2 := syncNodes defaultOrder (Ok [dbServer; webServerRetagged]) r1 in
  queue r2 = queue r1 ∧ dom (nodeCache r2) = dom (nodeCache r1).
Proof.
  assert (Hnd : NoDup (ID <$> [webServer; dbServer]))
    by (apply (bool_decide_unpack _); vm_compute; reflexivity).
  assert (Hfrom : ∀ n2, n2 ∈ [dbServer; webServerRetagged] →
                        ∃ n1, n1 ∈ [webServer; dbServer] ∧ differOnlyInTags n1 n2).
  { intros n2 Hn2. apply elem_of_cons in Hn2 as [->|Hn2].
    - exists dbServer. split; [apply list_elem_of_further, list_elem_of_here |].
      repeat split.
    - apply list_elem_of_singleton in Hn2 as ->.
      exists webServer. split; [apply list_elem_of_here |]. repeat split. }
  assert (Honto : ∀ n1, n1 ∈ [webServer; dbServer] →
                        ∃ n2, n2 ∈ [dbServer; webServerRetagged] ∧ ID n2 = ID n1).
  { intros n1 Hn1. apply elem_of_cons in Hn1 as [->|Hn1].
    - exists webServerRetagged. split; [apply list_elem_of_further, list_elem_of_here |].
      reflexivity.
    - apply list_elem_of_singleton in Hn1 as ->.
      exists dbServer. split; [apply list_elem_of_here | reflexivity]. }
  split; [exact Hnd |]. split; [exact Hfrom |]. split; [exact Honto |].
  exact (syncNodes_tag_change_silent defaultOrder defaultOrder _ _
           (newReconciler "example.com" []) Hnd Hfrom Honto).
Defined.

(** C6. A node that is in the cache and not in the fetched list: the run
    removes its id from the cache, and the calls the run makes on the queue
    are the [Add(node.ID)] calls of the first loop followed by the
    [Add(id + ":delete")] calls of the second, among which the one for this
    id occurs exactly once. When no fetched node has the string
    [id + ":delete"] as its own id, that key is added exactly once in the
    whole run. *)
Theorem syncNodes_deleted_node (ord : RangeOrder) (nodes : list TailscaleNode)
    (r : DNSReconciler) (id : string) (node : TailscaleNode) :
  nodeCache r !! id = Some node →
  id ∉ nodeIDs nodes →
  let r' := syncNodes ord (Ok nodes) r in
  nodeCache r' !! id = None ∧
  ∃ upserts deletions : list QueueCall,
    queue r' = queue r ++ upserts ++ deletions ∧
    Forall (λ c, ∃ n, n ∈ nodes ∧ c = QAdd (ID n)) upserts ∧
    Forall (λ c, ∃ k, is_Some (nodeCache r !! k) ∧ (k ∉ nodeIDs nodes) ∧
                      c = QAdd (k +:+ ":delete")) deletions ∧
    timesCalled (QAdd (id +:+ ":delete")) deletions = 1 ∧
    ((id +:+ ":delete") ∉ nodeIDs nodes →
     timesCalled (QAdd (id +:+ ":delete")) (upserts ++ deletions) = 1).
Proof.
  intros Hnode Hgone r'. split.
  - unfold r'. rewrite syncNodes_lookup. by rewrite decide_False.
  - destruct (syncNodes_queue ord nodes r) as (ups & cur & ids & Hq & Hups & Hnd & Hids & Hcur).
    assert (Hone : timesCalled (QAdd (id +:+ ":delete")) (deletionCalls cur ids) = 1).
    { apply deletionCalls_count; [done | |].
      - apply Hids. apply elem_of_union_l, elem_of_dom. by exists node.
      - rewrite Hcur. by apply bool_decide_eq_false_2. }
    exists ups, (deletionCalls cur ids). split_and!; [done | done | | done |].
    + apply Forall_forall. intros c Hc.
      apply list_elem_of_fmap in Hc as (k & -> & Hk).
      apply list_elem_of_filter in Hk as [Hk Hin].
      rewrite Hcur in Hk. apply bool_decide_eq_false in Hk.
      exists k. split_and!; [| done | done].
      apply Hids in Hin. apply elem_of_union in Hin as [Hin|Hin]; [| done].
      by apply elem_of_dom.
    + intros Hfree. rewrite timesCalled_app, Hone.
      rewrite timesCalled_absent; [done |].
      intros Hin. rewrite Forall_forall in Hups.
      destruct (Hups _ Hin) as (n & Hn & [= Heq]).
      apply Hfree. unfold nodeIDs. rewrite Heq. set_solver.
Qed.

(** Remark on the key encoding: the deletion key of a node is its id
    followed by [:delete], a string that another node may have as its id.
    Here [n1] left and a node with the id [n1:delete] arrived: the first
    loop adds that id as an upsert key and the second loop adds the same
    string as the deletion key of [n1]. *)
Example deletion_key_collision :
  queue (syncNodes defaultOrder (Ok [oddlyNamed]) (polledOnce [webServer]))
  = queue (polledOnce [webServer]) ++ [QAdd "n1:delete"; QAdd "n1:delete"].
Proof. vm_compute. reflexivity. Qed.

Lemma syncNodes_deleted_node_witness :
  nodeCache (polledOnce [webServer; dbServer]) !! "n1" = Some webServer ∧
  ("n1" ∉ nodeIDs [dbServer]) ∧
  let r := polledOnce [webServer; dbServer] in
  let r' := syncNodes defaultOrder (Ok [dbServer]) r in
  nodeCache r' !! "n1" = None ∧
  ∃ upserts deletions : list QueueCall,
    queue r' = queue r ++ upserts ++ deletions ∧
    Forall (λ c, ∃ n, n ∈ [dbServer] ∧ c = QAdd (ID n)) upserts ∧
    Forall (λ c, ∃ k, is_Some (nodeCache r !! k) ∧ (k ∉ nodeIDs [dbServer]) ∧
                      c = QAdd (k +:+ ":delete")) deletions ∧
    timesCalled (QAdd ("n1" +:+ ":delete")) deletions = 1 ∧
    (("n1" +:+ ":delete") ∉ nodeIDs [dbServer] →
     timesCalled (QAdd ("n1" +:+ ":delete")) (upserts ++ deletions) = 1).
Proof.
  assert (Hin : nodeCache (polledOnce [webServer; dbServer]) !! "n1" = Some webServer)
    by (vm_compute; reflexivity).
  assert (Hgone : "n1" ∉ nodeIDs [dbServer])
    by (apply (bool_decide_unpack _); vm_compute; reflexivity).
  split; [exact Hin |]. split; [exact Hgone |].
  exact (syncNodes_deleted_node defaultOrder [dbServer] _ "n1" webServer Hin Hgone).
Defined.

(** C7. After a run of the change detector on a fetched list, the ids in
    the node cache are the ids of that list, whatever the cache held before;
    and after any sequence of poll cycles from the empty cache, the ids in
    the cache are those of the list the last successful poll fetched. *)
Theorem syncNodes_cache_ids :
  (∀ (ord : RangeOrder) (nodes : list TailscaleNode) (r : DNSReconciler),
     dom (nodeCache (syncNodes ord (Ok nodes) r)) = nodeIDs nodes) ∧
  (∀ (polls : list (RangeOrder * Result (list TailscaleNode)))
     (zone : string) (requiredTags : list string),
     dom (nodeCache (pollCycles polls (newReconciler zone requiredTags)))
     = nodeIDs (lastFetched polls [])).
Proof.
  split.
  - apply syncNodes_dom.
  - intros polls zone requiredTags. apply pollCycles_dom.
    rewrite newReconciler_cache. unfold nodeIDs. cbn. apply dom_empty_L.
Qed.

(** C10. When fetching the node list fails, [syncNodes] returns with the
    node cache as it was and without a call on the work queue. *)
Theorem syncNodes_fetch_error (ord : RangeOrder) (e : error) (r : DNSReconciler) :
  nodeCache (syncNodes ord (Err e) r) = nodeCache r ∧
  queue (syncNodes ord (Err e) r) = queue r.
Proof. split; reflexivity. Qed.

(** ** The deletion path *)

Section Deletion.
Context {B : Type} `{!DNSProvider B}.

Implicit Types (r : DNSReconciler) (b : B) (records : list DNSRecord).

Lemma deleteNamed_requests (zone name : string) records b :
  request <$> calls (deleteNamed zone name records b) = ReqDelete zone <$> named name records.
Proof.
  revert b. induction records as [|rd records IH]; intros b; [done |].
  unfold named. cbn [deleteNamed]. rewrite filter_cons.
  case_bool_decide as Hname.
  - rewrite decide_True by done. unfold bind. cbn [calls callDeleteRecord].
    rewrite fmap_app, IH. done.
  - rewrite decide_False by done. apply IH.
Qed.

Lemma findAndDelete_requests (zone nodeID : string) records (rest : list DNSRecord) b :
  request <$> calls (findAndDelete zone nodeID records rest b) =
  match firstOwnershipRecord nodeID rest with
  | Some t => ReqDelete zone <$> named (providers.Name t) records
  | None => []
  end.
Proof.
  induction rest as [|rd rest IH]; [done |].
  unfold firstOwnershipRecord. cbn [findAndDelete]. rewrite filter_cons.
  destruct (isOwnershipRecord nodeID rd) eqn:Hrd.
  - rewrite decide_True by done. cbn [head]. apply deleteNamed_requests.
  - rewrite decide_False by done. apply IH.
Qed.

(** The calls and the result of [deleteNodeDNS], from the answer of the
    listing. *)
Lemma deleteNodeDNS_requests r (nodeID : string) b :
  request <$> calls (deleteNodeDNS r nodeID b) =
    ReqList (domain r) ::
    match (ListRecords (domain r) b).1 with
    | Ok records =>
        match firstOwnershipRecord nodeID records with
        | Some t => ReqDelete (domain r) <$> named (providers.Name t) records
        | None => []
        end
    | Err _ => []
    end
  ∧ value (deleteNodeDNS r nodeID b) =
    match (ListRecords (domain r) b).1 with
    | Ok _ => None
    | Err e => Some e
    end.
Proof.
  unfold deleteNodeDNS, bind, callListRecords. cbn [value backend calls].
  destruct (ListRecords (domain r) b).1 as [records|e]; cbn [value calls ret].
  - rewrite app_nil_r. cbn [fmap list_fmap app]. split; [| done].
    f_equal. apply findAndDelete_requests.
  - done.
Qed.

(** A key [id + ":delete"] takes the deletion path, for the id [id]. *)
Lemma reconcile_delete_key r (nodeID : string) :
  reconcile r (nodeID +:+ ":delete") = deleteNodeDNS r nodeID.
Proof. unfold reconcile. by rewrite HasSuffix_app, TrimSuffix_app. Qed.

Lemma firstOwnershipRecord_Some (nodeID : string) records (t : DNSRecord) :
  firstOwnershipRecord nodeID records = Some t →
  t ∈ records ∧ isOwnershipRecord nodeID t = true.
Proof.
  unfold firstOwnershipRecord. intros Hhead.
  apply head_Some_elem_of, list_elem_of_filter in Hhead. tauto.
Qed.

Lemma firstOwnershipRecord_None (nodeID : string) records :
  firstOwnershipRecord nodeID records = None ↔
  ∀ t, t ∈ records → isOwnershipRecord nodeID t = false.
Proof.
  unfold firstOwnershipRecord. rewrite head_None. split.
  - intros Hnil t Ht. destruct (isOwnershipRecord nodeID t) eqn:Hown; [| done].
    assert (Hin : t ∈ filter (λ record, isOwnershipRecord nodeID record = true) records)
      by by apply list_elem_of_filter.
    rewrite Hnil in Hin. by apply not_elem_of_nil in Hin.
  - intros Hall. apply elem_of_nil_inv. intros t Ht.
    apply list_elem_of_filter in Ht as [Hown Ht]. rewrite (Hall t Ht) in Hown. done.
Qed.

(** C1. Given the record list that [ListRecords] returned: when the list
    holds a TXT record whose value contains [node_id=<id>], the first such
    record of the list names the sweep, and [deleteNodeDNS] calls
    [DeleteRecord] once for each record of the list with that name, of any
    type, in list order, and for no other record; when no TXT record of
    the list matches, it makes no call but the listing. It returns [nil]
    in both cases. *)
Theorem deleteNodeDNS_sweep r (nodeID : string) b records (b' : B) :
  ListRecords (domain r) b = (Ok records, b') →
  let run := deleteNodeDNS r nodeID b in
  value run = None ∧
  ((∃ t, t ∈ records ∧ isOwnershipRecord nodeID t = true) →
   ∃ t, firstOwnershipRecord nodeID records = Some t ∧
        t ∈ records ∧ isOwnershipRecord nodeID t = true ∧
        request <$> calls run =
          ReqList (domain r) :: (ReqDelete (domain r) <$> named (providers.Name t) records)) ∧
  ((∀ t, t ∈ records → isOwnershipRecord nodeID t = false) →
   request <$> calls run = [ReqList (domain r)]).
Proof.
  intros Hlist run.
  destruct (deleteNodeDNS_requests r nodeID b) as [Hcalls Hvalue].
  rewrite Hlist in Hcalls, Hvalue. cbn [fst] in Hcalls, Hvalue.
  split_and!; [done | |].
  - intros (t0 & Ht0 & Hown0).
    destruct (firstOwnershipRecord nodeID records) as [t|] eqn:Hfirst.
    + exists t. destruct (firstOwnershipRecord_Some _ _ _ Hfirst) as [Ht Hown]. done.
    + rewrite firstOwnershipRecord_None in Hfirst.
      rewrite (Hfirst t0 Ht0) in Hown0. done.
  - intros Hnone. apply firstOwnershipRecord_None in Hnone.
    unfold run. by rewrite Hcalls, Hnone.
Qed.

End Deletion.

Lemma deleteNodeDNS_sweep_witness :
  @ListRecords _ (fakeProvider neverRefuses) "example.com" exampleZone
    = (Ok exampleZone, exampleZone) ∧
  let run := @deleteNodeDNS _ (fakeProvider neverRefuses)
               (newReconciler "example.com" []) "123456" exampleZone in
  value run = None ∧
  ((∃ t, t ∈ exampleZone ∧ isOwnershipRecord "123456" t = true) →
   ∃ t, firstOwnershipRecord "123456" exampleZone = Some t ∧
        t ∈ exampleZone ∧ isOwnershipRecord "123456" t = true ∧
        request <$> calls run =
          ReqList "example.com" :: (ReqDelete "example.com" <$> named (providers.Name t) exampleZone)) ∧
  ((∀ t, t ∈ exampleZone → isOwnershipRecord "123456" t = false) →
   request <$> calls run = [ReqList "example.com"]).
Proof.
  split; [reflexivity |].
  exact (@deleteNodeDNS_sweep _ (fakeProvider neverRefuses)
           (newReconciler "example.com" []) "123456" exampleZone exampleZone exampleZone
           eq_refl).
Defined.

(** The sweep of the specification's example: the three records at
    [foo.example.com] and nothing else. *)
Example sweep_of_foo :
  request <$> calls (@deleteNodeDNS _ (fakeProvider neverRefuses)
                       (newReconciler "example.com" []) "123456" exampleZone)
  = ReqList "example.com"
    :: (ReqDelete "example.com" <$> nodeRecords (newReconciler "example.com" []) fooNode).
Proof. vm_compute. reflexivity. Qed.

(** ** The Route53 provider never lists an ownership record *)

Section Route53Facts.
Context {C : Type} `{!route53.Client C}.

Lemma appendRecordSet_addressTyped (records : list DNSRecord) (rrs : types.ResourceRecordSet) :
  Forall addressTyped records → Forall addressTyped (appendRecordSet records rrs).
Proof.
  intros Hrecords. unfold appendRecordSet.
  destruct (bool_decide (types.Type_ rrs = "A") || bool_decide (types.Type_ rrs = "AAAA"))
    eqn:Htype; [| done].
  apply orb_true_iff in Htype.
  assert (Hrrs : types.Type_ rrs = "A" ∨ types.Type_ rrs = "AAAA")
    by (destruct Htype as [Ht|Ht]; apply bool_decide_eq_true in Ht; tauto).
  clear Htype. revert records Hrecords.
  induction (types.ResourceRecords rrs) as [|rr rrs' IH]; intros records Hrecords; [done |].
  cbn [fold_left]. apply IH. apply Forall_app. split; [done |].
  by apply Forall_singleton.
Qed.

Lemma listPages_addressTyped (pages : list (Result route53.ListResourceRecordSetsOutput))
    (records : list DNSRecord) :
  Forall addressTyped records →
  match listPages pages records with
  | Ok records' => Forall addressTyped records'
  | Err _ => True
  end.
Proof.
  revert records. induction pages as [|[page|e] pages IH]; intros records Hrecords;
    cbn [listPages]; [done | | done].
  apply IH. clear IH.
  revert records Hrecords.
  induction (route53.ResourceRecordSets page) as [|rrs sets IH]; intros records Hrecords;
    [done |].
  cbn [fold_left]. by apply IH, appendRecordSet_addressTyped.
Qed.

Lemma addressTyped_not_ownership (nodeID : string) (records : list DNSRecord) :
  Forall addressTyped records → firstOwnershipRecord nodeID records = None.
Proof.
  intros Hall. apply firstOwnershipRecord_None. intros t Ht.
  rewrite Forall_forall in Hall. unfold isOwnershipRecord.
  rewrite bool_decide_eq_false_2; [done |].
  destruct (Hall t Ht) as [-> | ->]; done.
Qed.

(** C3. Whatever the Route53 backend answers, [Route53Provider.ListRecords]
    returns an error or a list of records that all have type A or AAAA, none
    of type TXT; so a deletion key reconciled against the Route53 provider
    makes the listing call and not one [DeleteRecord] call. *)
Theorem Route53_deletion_never_sweeps :
  (∀ (zone : string) (p : Route53Provider C),
     match (Route53_ListRecords zone p).1 with
     | Ok records =>
         Forall addressTyped records ∧
         Forall (λ record, providers.Type_ record ≠ "TXT") records
     | Err _ => True
     end) ∧
  (∀ (r : DNSReconciler) (nodeID : string) (p : Route53Provider C),
     request <$> calls (reconcile r (nodeID +:+ ":delete") p) = [ReqList (domain r)]).
Proof.
  assert (Hlist : ∀ (zone : string) (p : Route53Provider C),
            match (Route53_ListRecords zone p).1 with
            | Ok records => Forall addressTyped records
            | Err _ => True
            end).
  { intros zone p. unfold Route53_ListRecords.
    destruct (route53.ListResourceRecordSetsPages (zoneID p) (client p)) as [pages c].
    cbn [fst]. by apply listPages_addressTyped. }
  split.
  - intros zone p. specialize (Hlist zone p).
    destruct (Route53_ListRecords zone p).1 as [records|e]; [| done].
    split; [done |]. eapply Forall_impl; [exact Hlist |].
    intros record [Ht|Ht]; rewrite Ht; done.
  - intros r nodeID p. rewrite reconcile_delete_key.
    destruct (deleteNodeDNS_requests r nodeID p) as [-> _].
    specialize (Hlist (domain r) p). cbn [ListRecords Route53Provider_DNSProvider].
    destruct (Route53_ListRecords (domain r) p).1 as [records|e]; [| done].
    by rewrite addressTyped_not_ownership.
Qed.

End Route53Facts.

(** A hosted zone that holds the ownership record of [fooNode]: the
    listing drops it, and the deletion key of the node deletes nothing. *)
Example Route53_sweep_example :
  let p := {| client := fooHostedZone; zoneID := "Z123" |} in
  (@Route53_ListRecords _ fakeRoute53 "example.com" p).1
    = Ok (addressRecord (newReconciler "example.com" []) fooNode <$> Addresses fooNode) ∧
  request <$> calls (@reconcile _ (@Route53Provider_DNSProvider _ fakeRoute53)
                       (newReconciler "example.com" []) "123456:delete" p)
    = [ReqList "example.com"].
Proof. split; vm_compute; reflexivity. Qed.

(** ** The upsert path and the worker *)

Section Upsert.
Context {B : Type} `{!DNSProvider B}.

Implicit Types (r : DNSReconciler) (b : B) (node : TailscaleNode).

Lemma updateAddresses_cons r node (addr : string) (rest : list string) :
  updateAddresses r node (addr :: rest) =
  (err <~ callUpdateRecord (domain r) (addressRecord r node addr) ;;
   match err with
   | Some e => ret (Some ("failed to update DNS record: " +:+ e))
   | None => updateAddresses r node rest
   end).
Proof. reflexivity. Qed.

(** The address loop either runs to its end with every update answered
    [nil], or stops at the first update the backend refuses. *)
Lemma updateAddresses_run r node (addrs : list string) b :
  (value (updateAddresses r node addrs b) = None ∧
   calls (updateAddresses r node addrs b) = succeeded r node addrs)
  ∨
  (∃ (before : list string) (addr : string) (rest : list string) (e : error),
     addrs = before ++ addr :: rest ∧
     value (updateAddresses r node addrs b) = Some ("failed to update DNS record: " +:+ e) ∧
     calls (updateAddresses r node addrs b) =
       succeeded r node before ++ [CallUpdate (domain r) (addressRecord r node addr) (Some e)]).
Proof.
  revert b. induction addrs as [|addr addrs IH]; intros b.
  - left. done.
  - rewrite updateAddresses_cons. unfold bind, callUpdateRecord. cbn [value backend calls].
    destruct (UpdateRecord (domain r) (addressRecord r node addr) b) as [[e|] b1] eqn:Hans;
      cbn [fst snd].
    + right. exists [], addr, addrs, e. done.
    + destruct (IH b1) as [[Hv Hc]|(before & a & rest & e & Hsplit & Hv & Hc)].
      * left. rewrite Hv, Hc. done.
      * right. exists (addr :: before), a, rest, e. rewrite Hv, Hc, Hsplit. done.
Qed.

Lemma succeeded_no_failure r node (addrs : list string) :
  existsb failedAddressUpdate (succeeded r node addrs) = false ∧
  existsb failedOwnershipUpdate (succeeded r node addrs) = false.
Proof.
  unfold succeeded. induction addrs as [|addr addrs [IH1 IH2]]; [done |].
  rewrite fmap_cons. cbn [existsb failedAddressUpdate failedOwnershipUpdate orb]. done.
Qed.

Lemma addressRecord_failure r node (addr : string) (e : error) :
  failedAddressUpdate (CallUpdate (domain r) (addressRecord r node addr) (Some e)) = true ∧
  failedOwnershipUpdate (CallUpdate (domain r) (addressRecord r node addr) (Some e)) = false.
Proof. cbn. by destruct (strings.Contains addr ":"). Qed.

Lemma no_update_no_failure (cs : list DNSCall) :
  Forall (λ c, ∀ zone record err, c ≠ CallUpdate zone record err) cs →
  existsb failedAddressUpdate cs = false ∧ existsb failedOwnershipUpdate cs = false.
Proof.
  induction 1 as [|c cs Hc _ [IH1 IH2]]; [done |].
  cbn [existsb]. rewrite IH1, IH2.
  destruct c as [| |zone record err|]; try done. by destruct (Hc zone record err).
Qed.

(** The upsert path proper: the key is no deletion key, the node is in the
    cache and passes the tag filter. *)
Lemma reconcile_upsert_run r (key : string) node b :
  strings.HasSuffix key ":delete" = false →
  nodeCache r !! key = Some node →
  shouldManageNode r node = true →
  (value (reconcile r key b) = None ∧
   ∃ txtErr, calls (reconcile r key b) =
               succeeded r node (Addresses node)
               ++ [CallUpdate (domain r) (txtRecord r node) txtErr])
  ∨
  (∃ (before : list string) (addr : string) (rest : list string) (e : error),
     Addresses node = before ++ addr :: rest ∧
     value (reconcile r key b) = Some ("failed to update DNS record: " +:+ e) ∧
     calls (reconcile r key b) =
       succeeded r node before
       ++ [CallUpdate (domain r) (addressRecord r node addr) (Some e)]).
Proof.
  intros Hkey Hnode Hmanage. unfold reconcile. rewrite Hkey, Hnode, Hmanage. cbn [negb].
  unfold bind. cbn [value backend calls].
  destruct (updateAddresses_run r node (Addresses node) b)
    as [[Hv Hc]|(before & a & rest & e & Hsplit & Hv & Hc)]; rewrite Hv, Hc.
  - left. cbn [value calls ret callUpdateRecord]. split; [done |].
    eexists. by rewrite app_nil_r.
  - right. exists before, a, rest, e. cbn [value calls ret]. by rewrite app_nil_r.
Qed.

(** The calls of any run of [reconcile]: none of them an update, or those
    of the upsert path for the cached node. *)
Lemma reconcile_run r (key : string) b :
  Forall (λ c, ∀ zone record err, c ≠ CallUpdate zone record err) (calls (reconcile r key b))
  ∨
  (∃ node,
     strings.HasSuffix key ":delete" = false ∧
     nodeCache r !! key = Some node ∧
     shouldManageNode r node = true).
Proof.
  destruct (strings.HasSuffix key ":delete") eqn:Hkey.
  - left. unfold reconcile. rewrite Hkey.
    destruct (deleteNodeDNS_requests r (strings.TrimSuffix key ":delete") b) as [Hreq _].
    apply Forall_forall. intros c Hc zone record err ->.
    apply (list_elem_of_fmap_2 request) in Hc. rewrite Hreq in Hc. cbn [request] in Hc.
    apply elem_of_cons in Hc as [[=]|Hc].
    destruct (ListRecords (domain r) b).1 as [records|e]; [| by apply not_elem_of_nil in Hc].
    destruct (firstOwnershipRecord _ records); [| by apply not_elem_of_nil in Hc].
    apply list_elem_of_fmap in Hc as (rd & [=] & _).
  - destruct (nodeCache r !! key) as [node|] eqn:Hnode.
    + destruct (shouldManageNode r node) eqn:Hmanage.
      * right. by exists node.
      * left. unfold reconcile. rewrite Hkey, Hnode, Hmanage. by apply Forall_nil.
    + left. unfold reconcile. rewrite Hkey, Hnode. by apply Forall_nil.
Qed.

(** One item of the worker: the queue calls follow the result of
    [reconcile], and the worker itself calls no backend. *)
Lemma workerItem_run (item : string) r b :
  calls (workerItem item r b) = calls (reconcile r item b) ∧
  queue (value (workerItem item r b)) =
    queue r ++ [match value (reconcile r item b) with
                | Some _ => QAddRateLimited item
                | None => QForget item
                end; QDone item].
Proof.
  unfold workerItem, bind. cbn [value backend calls ret]. rewrite app_nil_r.
  split; [done |]. destruct (value (reconcile r item b)); cbn [queue callQueue];
    by rewrite <- app_assoc.
Qed.

Lemma existsb_snoc {A : Type} (f : A → bool) (l : list A) (x : A) :
  existsb f (l ++ [x]) = existsb f l || f x.
Proof. rewrite existsb_app. cbn. by rewrite orb_false_r. Qed.

(** C2, as the code has it. For a cached node that passes the tag filter,
    reconciled under a key that is no deletion key: when no per-address
    [UpdateRecord] call of the run fails, the run calls [UpdateRecord] once
    per address of the node, in order, with the record named
    [<name>.<domain>], of type AAAA when the address contains a colon and A
    otherwise, with the address as value and TTL 300, then once with the TXT
    record of that name whose value is [dnsscale-managed node_id=<id>]
    between two double quotes, TTL 300; and it makes no other call. *)
Theorem reconcile_upsert_calls r (key : string) node b :
  strings.HasSuffix key ":delete" = false →
  nodeCache r !! key = Some node →
  shouldManageNode r node = true →
  existsb failedAddressUpdate (calls (reconcile r key b)) = false →
  request <$> calls (reconcile r key b) =
    ((λ addr,
        ReqUpdate (domain r)
          {| providers.Name := Name node +:+ "." +:+ domain r;
             providers.Type_ := if strings.Contains addr ":" then "AAAA" else "A";
             providers.Value := addr;
             providers.TTL := 300 |}) <$> Addresses node)
    ++ [ReqUpdate (domain r)
          {| providers.Name := Name node +:+ "." +:+ domain r;
             providers.Type_ := "TXT";
             providers.Value := dquote +:+ "dnsscale-managed node_id=" +:+ ID node +:+ dquote;
             providers.TTL := 300 |}].
Proof.
  intros Hkey Hnode Hmanage Hok.
  destruct (reconcile_upsert_run r key node b Hkey Hnode Hmanage)
    as [[_ (txtErr & Hc)]|(before & a & rest & e & _ & _ & Hc)]; rewrite Hc in Hok |- *.
  - rewrite fmap_app. unfold succeeded. rewrite <- list_fmap_compose. done.
  - rewrite existsb_snoc in Hok.
    destruct (addressRecord_failure r node a e) as [Hfail _]. rewrite Hfail in Hok.
    by rewrite orb_true_r in Hok.
Qed.

(** C8. A run of [reconcile] in which no per-address [UpdateRecord] call
    failed and the [UpdateRecord] call for the TXT record did: [reconcile]
    returns [nil], and the worker calls [Forget] on the key, then [Done], and
    never [AddRateLimited]. *)
Theorem reconcile_ownership_failure_forgets r (key : string) b :
  existsb failedAddressUpdate (calls (reconcile r key b)) = false →
  existsb failedOwnershipUpdate (calls (reconcile r key b)) = true →
  value (reconcile r key b) = None ∧
  queue (value (workerItem key r b)) = queue r ++ [QForget key; QDone key].
Proof.
  intros Haddr Htxt.
  assert (Hnil : value (reconcile r key b) = None).
  { destruct (reconcile_run r key b) as [Hnone|(node & Hkey & Hnode & Hmanage)].
    - apply no_update_no_failure in Hnone as [_ Hnone]. congruence.
    - destruct (reconcile_upsert_run r key node b Hkey Hnode Hmanage)
        as [[Hv _]|(before & a & rest & e & _ & _ & Hc)]; [done |].
      rewrite Hc, existsb_snoc in Haddr.
      destruct (addressRecord_failure r node a e) as [Hfail _]. rewrite Hfail in Haddr.
      by rewrite orb_true_r in Haddr. }
  split; [done |].
  destruct (workerItem_run key r b) as [_ ->]. by rewrite Hnil.
Qed.

(** C9. A run of [reconcile] in which a per-address [UpdateRecord] call
    failed: [reconcile] returns an error, the failed call is the last
    backend call of the run (every call before it succeeded, and the worker
    adds none), and the worker calls [AddRateLimited] on the key, then
    [Done], and never [Forget]. *)
Theorem reconcile_address_failure_requeues r (key : string) b :
  existsb failedAddressUpdate (calls (reconcile r key b)) = true →
  (∃ e, value (reconcile r key b) = Some e) ∧
  (∃ (before : list DNSCall) (c : DNSCall),
     calls (workerItem key r b) = before ++ [c] ∧
     failedAddressUpdate c = true ∧
     existsb failedAddressUpdate before = false) ∧
  queue (value (workerItem key r b)) = queue r ++ [QAddRateLimited key; QDone key].
Proof.
  intros Hfail.
  destruct (workerItem_run key r b) as [-> ->].
  destruct (reconcile_run r key b) as [Hnone|(node & Hkey & Hnode & Hmanage)].
  - apply no_update_no_failure in Hnone as [Hnone _]. congruence.
  - destruct (reconcile_upsert_run r key node b Hkey Hnode Hmanage)
      as [[_ (txtErr & Hc)]|(before & a & rest & e & _ & Hv & Hc)].
    + rewrite Hc, existsb_snoc in Hfail.
      destruct (succeeded_no_failure r node (Addresses node)) as [Hs _].
      rewrite Hs in Hfail. cbn in Hfail. by destruct txtErr.
    + rewrite Hv, Hc. split_and!; [by eexists | | done].
      exists (succeeded r node before), (CallUpdate (domain r) (addressRecord r node a) (Some e)).
      split_and!; [done | apply addressRecord_failure | apply succeeded_no_failure].
Qed.

End Upsert.

(** The upsert example of the specification: an A, an AAAA and a TXT
    record at [web-server.example.com], all with TTL 300. *)
Example upsert_of_web_server :
  request <$> calls (@reconcile _ (fakeProvider neverRefuses) (polledOnce [webServer]) "n1" []) =
  [ ReqUpdate "example.com"
      {| providers.Name := "web-server.example.com"; providers.Type_ := "A";
         providers.Value := "100.64.1.1"; providers.TTL := 300 |};
    ReqUpdate "example.com"
      {| providers.Name := "web-server.example.com"; providers.Type_ := "AAAA";
         providers.Value := "fd7a:115c:a1e0::1"; providers.TTL := 300 |};
    ReqUpdate "example.com"
      {| providers.Name := "web-server.example.com"; providers.Type_ := "TXT";
         providers.Value := dquote +:+ "dnsscale-managed node_id=n1" +:+ dquote;
         providers.TTL := 300 |} ].
Proof. vm_compute. reflexivity. Qed.

(** The tag filter example of the specification: required tag [tag:prod],
    node tagged [tag:dev]; the key is reconciled with success and without a
    backend call. *)
Example tag_filter_skips :
  let r := syncNodes defaultOrder (Ok [webServer]) (newReconciler "example.com" ["tag:prod"]) in
  shouldManageNode r webServer = false ∧
  value (@reconcile _ (fakeProvider neverRefuses) r "n1" []) = None ∧
  calls (@reconcile _ (fakeProvider neverRefuses) r "n1" []) = [].
Proof. vm_compute. done. Qed.

Lemma reconcile_upsert_calls_witness :
  let r := polledOnce [webServer] in
  strings.HasSuffix "n1" ":delete" = false ∧
  nodeCache r !! "n1" = Some webServer ∧
  shouldManageNode r webServer = true ∧
  existsb failedAddressUpdate
    (calls (@reconcile _ (fakeProvider refusesTXT) r "n1" [])) = false ∧
  request <$> calls (@reconcile _ (fakeProvider refusesTXT) r "n1" []) =
    ((λ addr,
        ReqUpdate (domain r)
          {| providers.Name := Name webServer +:+ "." +:+ domain r;
             providers.Type_ := if strings.Contains addr ":" then "AAAA" else "A";
             providers.Value := addr;
             providers.TTL := 300 |}) <$> Addresses webServer)
    ++ [ReqUpdate (domain r)
          {| providers.Name := Name webServer +:+ "." +:+ domain r;
             providers.Type_ := "TXT";
             providers.Value := dquote +:+ "dnsscale-managed node_id=" +:+ ID webServer +:+ dquote;
             providers.TTL := 300 |}].
Proof.
  intros r.
  assert (Hkey : strings.HasSuffix "n1" ":delete" = false) by reflexivity.
  assert (Hnode : nodeCache r !! "n1" = Some webServer) by (vm_compute; reflexivity).
  assert (Hmanage : shouldManageNode r webServer = true) by (vm_compute; reflexivity).
  assert (Hok : existsb failedAddressUpdate
                  (calls (@reconcile _ (fakeProvider refusesTXT) r "n1" [])) = false)
    by (vm_compute; reflexivity).
  split_and!; [exact Hkey | exact Hnode | exact Hmanage | exact Hok |].
  exact (@reconcile_upsert_calls _ (fakeProvider refusesTXT) r "n1" webServer []
           Hkey Hnode Hmanage Hok).
Defined.

(** C2 as stated fails: against a backend that refuses the AAAA record,
    the cached node passes the tag filter and the run makes two calls, for
    the A and the AAAA record, and none for the TXT record. *)
Lemma reconcile_upsert_calls_counterexample :
  let r := polledOnce [webServer] in
  nodeCache r !! "n1" = Some webServer ∧
  shouldManageNode r webServer = true ∧
  request <$> calls (@reconcile _ (fakeProvider refusesAAAA) r "n1" []) =
    [ReqUpdate "example.com" (addressRecord r webServer "100.64.1.1");
     ReqUpdate "example.com" (addressRecord r webServer "fd7a:115c:a1e0::1")] ∧
  request <$> calls (@reconcile _ (fakeProvider refusesAAAA) r "n1" []) ≠
    (ReqUpdate "example.com" ∘ addressRecord r webServer <$> Addresses webServer)
    ++ [ReqUpdate "example.com" (txtRecord r webServer)].
Proof.
  intros r. split_and!; [vm_compute; reflexivity .. |].
  vm_compute. intros Heq. discriminate Heq.
Qed.

Lemma reconcile_ownership_failure_forgets_witness :
  let r := polledOnce [webServer] in
  existsb failedAddressUpdate
    (calls (@reconcile _ (fakeProvider refusesTXT) r "n1" [])) = false ∧
  existsb failedOwnershipUpdate
    (calls (@reconcile _ (fakeProvider refusesTXT) r "n1" [])) = true ∧
  value (@reconcile _ (fakeProvider refusesTXT) r "n1" []) = None ∧
  queue (value (@workerItem _ (fakeProvider refusesTXT) "n1" r []))
    = queue r ++ [QForget "n1"; QDone "n1"].
Proof.
  intros r.
  assert (Haddr : existsb failedAddressUpdate
                    (calls (@reconcile _ (fakeProvider refusesTXT) r "n1" [])) = false)
    by (vm_compute; reflexivity).
  assert (Htxt : existsb failedOwnershipUpdate
                   (calls (@reconcile _ (fakeProvider refusesTXT) r "n1" [])) = true)
    by (vm_compute; reflexivity).
  split; [exact Haddr |]. split; [exact Htxt |].
  exact (@reconcile_ownership_failure_forgets _ (fakeProvider refusesTXT) r "n1" [] Haddr Htxt).
Defined.

Lemma reconcile_address_failure_requeues_witness :
  let r := polledOnce [webServer] in
  existsb failedAddressUpdate
    (calls (@reconcile _ (fakeProvider refusesAAAA) r "n1" [])) = true ∧
  (∃ e, value (@reconcile _ (fakeProvider refusesAAAA) r "n1" []) = Some e) ∧
  (∃ (before : list DNSCall) (c : DNSCall),
     calls (@workerItem _ (fakeProvider refusesAAAA) "n1" r []) = before ++ [c] ∧
     failedAddressUpdate c = true ∧
     existsb failedAddressUpdate before = false) ∧
  queue (value (@workerItem _ (fakeProvider refusesAAAA) "n1" r []))
    = queue r ++ [QAddRateLimited "n1"; QDone "n1"].
Proof.
  intros r.
  assert (Hfail : existsb failedAddressUpdate
                    (calls (@reconcile _ (fakeProvider refusesAAAA) r "n1" [])) = true)
    by (vm_compute; reflexivity).
  split; [exact Hfail |].
  exact (@reconcile_address_failure_requeues _ (fakeProvider refusesAAAA) r "n1" [] Hfail).
Defined.

(** ** The ownership test is a substring test *)

Section OwnershipMatch.
Context {B : Type} `{!DNSProvider B}.

Lemma txtRecord_matches_prefix (r : DNSReconciler) (node : TailscaleNode) (Y suffix : string) :
  ID node = Y +:+ suffix → isOwnershipRecord Y (txtRecord r node) = true.
Proof.
  intros Hid. unfold isOwnershipRecord, txtRecord. cbn [providers.Type_ providers.Value].
  rewrite bool_decide_eq_true_2 by done. cbn [andb]. rewrite Hid.
  replace (dquote +:+ "dnsscale-managed node_id=" +:+ (Y +:+ suffix) +:+ dquote)
    with ((dquote +:+ "dnsscale-managed ") +:+ ("node_id=" +:+ Y) +:+ (suffix +:+ dquote)).
  - apply Contains_infix.
  - rewrite !append_assoc. done.
Qed.

Lemma addressRecord_not_TXT (r : DNSReconciler) (node : TailscaleNode) (addr : string) :
  providers.Type_ (addressRecord r node addr) ≠ "TXT".
Proof. unfold addressRecord. cbn. by destruct (strings.Contains addr ":"). Qed.

Lemma addressRecords_no_ownership (r : DNSReconciler) (node : TailscaleNode)
    (nodeID : string) (addrs : list string) :
  filter (λ record, isOwnershipRecord nodeID record = true) (addressRecord r node <$> addrs) = [].
Proof.
  induction addrs as [|addr addrs IH]; [done |].
  rewrite fmap_cons, filter_cons_False; [done |].
  unfold isOwnershipRecord. rewrite bool_decide_eq_false_2; [done |].
  apply addressRecord_not_TXT.
Qed.

Lemma nodeRecords_named (r : DNSReconciler) (node : TailscaleNode) :
  named (providers.Name (txtRecord r node)) (nodeRecords r node) = nodeRecords r node.
Proof.
  unfold named, nodeRecords. rewrite filter_app, filter_cons_True, filter_nil by done.
  f_equal. induction (Addresses node) as [|addr addrs IH]; [done |].
  rewrite fmap_cons, filter_cons_True by done. by rewrite IH.
Qed.

(** C4. The ownership test is [strings.Contains] on the TXT value: for a
    node X whose id is [Y] followed by a non-empty suffix, the ownership
    record of X passes the test for the other id [Y], and a deletion key for
    [Y], reconciled against a zone that lists the records published for X,
    calls [DeleteRecord] for every one of them. *)
Theorem deleteNodeDNS_prefix_id_sweeps (r : DNSReconciler) (nodeX : TailscaleNode)
    (Y suffix : string) (b b' : B) :
  suffix ≠ "" →
  ID nodeX = Y +:+ suffix →
  ListRecords (domain r) b = (Ok (nodeRecords r nodeX), b') →
  Y ≠ ID nodeX ∧
  strings.HasPrefix (ID nodeX) Y = true ∧
  isOwnershipRecord Y (txtRecord r nodeX) = true ∧
  request <$> calls (reconcile r (Y +:+ ":delete") b) =
    ReqList (domain r) :: (ReqDelete (domain r) <$> nodeRecords r nodeX).
Proof.
  intros Hsuffix Hid Hlist. split_and!.
  - intros Heq. rewrite Hid in Heq. apply (f_equal String.length) in Heq.
    rewrite length_append in Heq. destruct suffix; [done | cbn in Heq; lia].
  - rewrite Hid. apply HasPrefix_app.
  - by eapply txtRecord_matches_prefix.
  - rewrite reconcile_delete_key.
    destruct (deleteNodeDNS_requests r Y b) as [-> _]. rewrite Hlist. cbn [fst].
    assert (Hfirst : firstOwnershipRecord Y (nodeRecords r nodeX) = Some (txtRecord r nodeX)).
    { unfold firstOwnershipRecord, nodeRecords.
      rewrite filter_app, addressRecords_no_ownership.
      rewrite filter_cons_True; [done |]. by eapply txtRecord_matches_prefix. }
    by rewrite Hfirst, nodeRecords_named.
Qed.

End OwnershipMatch.

Lemma deleteNodeDNS_prefix_id_sweeps_witness :
  let r := newReconciler "example.com" [] in
  "56" ≠ "" ∧
  ID fooNode = "1234" +:+ "56" ∧
  @ListRecords _ (fakeProvider neverRefuses) (domain r) (nodeRecords r fooNode)
    = (Ok (nodeRecords r fooNode), nodeRecords r fooNode) ∧
  "1234" ≠ ID fooNode ∧
  strings.HasPrefix (ID fooNode) "1234" = true ∧
  isOwnershipRecord "1234" (txtRecord r fooNode) = true ∧
  request <$> calls (@reconcile _ (fakeProvider neverRefuses) r ("1234" +:+ ":delete")
                       (nodeRecords r fooNode)) =
    ReqList (domain r) :: (ReqDelete (domain r) <$> nodeRecords r fooNode).
Proof.
  intros r.
  assert (Hsuffix : "56" ≠ "") by discriminate.
  assert (Hid : ID fooNode = "1234" +:+ "56") by reflexivity.
  assert (Hlist : @ListRecords _ (fakeProvider neverRefuses) (domain r) (nodeRecords r fooNode)
                  = (Ok (nodeRecords r fooNode), nodeRecords r fooNode)) by reflexivity.
  split_and!; [exact Hsuffix | exact Hid | exact Hlist | ..];
    apply (@deleteNodeDNS_prefix_id_sweeps _ (fakeProvider neverRefuses) r fooNode
             "1234" "56" (nodeRecords r fooNode) (nodeRecords r fooNode) Hsuffix Hid Hlist).
Defined.

(** * Further properties of the engine *)

(** ** What the change detector reports *)

Section Detection.

Implicit Types (r : DNSReconciler) (cur : gmap string bool).
Implicit Types (nodes : list TailscaleNode).

Lemma syncNode_fold_silent_for nodes r cur (id : string) :
  id ∉ nodeIDs nodes →
  ∃ upserts : list QueueCall,
    queue (fold_left syncNode nodes (r, cur)).1 = queue r ++ upserts ∧
    QAdd id ∉ upserts.
Proof.
  intros Hid. destruct (syncNode_fold_queue nodes r cur) as (ups & Hq & Hups).
  exists ups. split; [done |]. intros Hin.
  rewrite Forall_forall in Hups. destruct (Hups _ Hin) as (n & Hn & [= ->]).
  apply Hid. unfold nodeIDs. set_solver.
Qed.

(** A fetched node that the cache lacks, or holds in a state [nodesEqual]
    tells apart, is written to the cache and queued once by the first
    loop. *)
Lemma syncNode_fold_changed nodes r cur (n : TailscaleNode) :
  NoDup (ID <$> nodes) → n ∈ nodes →
  (∀ e, nodeCache r !! ID n = Some e → nodesEqual e n = false) →
  ∃ upserts : list QueueCall,
    queue (fold_left syncNode nodes (r, cur)).1 = queue r ++ upserts ∧
    timesCalled (QAdd (ID n)) upserts = 1 ∧
    nodeCache (fold_left syncNode nodes (r, cur)).1 !! ID n = Some n.
Proof.
  revert r cur. induction nodes as [|m nodes IH]; intros r cur Hnd Hn Hch; cbn [fold_left].
  - by apply not_elem_of_nil in Hn.
  - rewrite fmap_cons in Hnd. apply NoDup_cons in Hnd as [Hm Hnd].
    apply elem_of_cons in Hn as [->|Hn].
    + assert (Hfresh : ID m ∉ nodeIDs nodes) by (unfold nodeIDs; set_solver).
      destruct (syncNode_cases r cur m) as [[_ (e & He & Heq)]|[-> _]].
      { rewrite (Hch e He) in Heq. done. }
      destruct (syncNode_fold_silent_for nodes
                  (callQueue (QAdd (ID m)) (setNodeCache (<[ID m := m]> (nodeCache r)) r))
                  (<[ID m := true]> cur) (ID m) Hfresh) as (ups & Hq & Hsilent).
      exists (QAdd (ID m) :: ups). rewrite Hq. cbn [queue callQueue setNodeCache].
      rewrite <- app_assoc. split_and!; [done | |].
      * change (QAdd (ID m) :: ups) with ([QAdd (ID m)] ++ ups).
        rewrite timesCalled_app, (timesCalled_absent _ ups) by done.
        unfold timesCalled. by rewrite filter_cons_True.
      * rewrite syncNode_fold_other by done. cbn [nodeCache callQueue setNodeCache].
        apply lookup_insert_eq.
    + assert (Hne : ID m ≠ ID n).
      { intros Heq. apply Hm. rewrite Heq. apply list_elem_of_fmap. by exists n. }
      destruct (syncNode_cases r cur m) as [[-> _]|[-> _]].
      * by apply IH.
      * edestruct (IH (callQueue (QAdd (ID m)) (setNodeCache (<[ID m := m]> (nodeCache r)) r))
                      (<[ID m := true]> cur) Hnd Hn) as (ups & Hq & Hone & Hcache).
        { cbn [nodeCache callQueue setNodeCache]. intros e.
          rewrite lookup_insert_ne by done. apply Hch. }
        exists (QAdd (ID m) :: ups). rewrite Hq. cbn [queue callQueue setNodeCache].
        rewrite <- app_assoc. split_and!; [done | | done].
        change (QAdd (ID m) :: ups) with ([QAdd (ID m)] ++ ups).
        rewrite timesCalled_app, Hone. rewrite timesCalled_absent; [done |].
        intros Hin. apply list_elem_of_singleton in Hin. congruence.
Qed.

Lemma deletionCalls_suffixed cur (ids : list string) (key : string) :
  strings.HasSuffix key ":delete" = false → QAdd key ∉ deletionCalls cur ids.
Proof.
  intros Hkey Hin. unfold deletionCalls in Hin.
  apply list_elem_of_fmap in Hin as (k & [= ->] & _).
  by rewrite HasSuffix_app in Hkey.
Qed.

End Detection.

Section Detection2.

Implicit Types (r : DNSReconciler) (nodes : list TailscaleNode).

Lemma syncNodes_unfold (ord : RangeOrder) nodes r :
  queue (syncNodes ord (Ok nodes) r) =
    queue (fold_left syncNode nodes (r, ∅)).1
    ++ deletionCalls (fold_left syncNode nodes (r, ∅)).2
         (ord (nodeCache (fold_left syncNode nodes (r, ∅)).1)).
Proof.
  unfold syncNodes. destruct (fold_left syncNode nodes (r, ∅)) as [r1 cur].
  apply syncDeleted_fold_queue.
Qed.

Lemma syncNodes_config (ord : RangeOrder) (listed : Result (list TailscaleNode)) r :
  domain (syncNodes ord listed r) = domain r ∧
  annotations (syncNodes ord listed r) = annotations r.
Proof.
  destruct listed as [nodes|e]; [| done]. unfold syncNodes.
  pose proof (syncNode_fold_config nodes r ∅) as [Hd Ha].
  destruct (fold_left syncNode nodes (r, ∅)) as [r1 cur]. cbn [fst] in Hd, Ha.
  destruct (syncDeleted_fold_config cur (ord (nodeCache r1)) r1) as [-> ->]. done.
Qed.

Lemma pollCycles_cons (ord : RangeOrder) (listed : Result (list TailscaleNode)) polls r :
  pollCycles ((ord, listed) :: polls) r = pollCycles polls (syncNodes ord listed r).
Proof. reflexivity. Qed.

Lemma pollCycles_config polls r :
  domain (pollCycles polls r) = domain r ∧
  annotations (pollCycles polls r) = annotations r.
Proof.
  revert r. induction polls as [|[ord listed] polls IH]; intros r; [done |].
  rewrite pollCycles_cons.
  destruct (IH (syncNodes ord listed r)) as [-> ->]. apply syncNodes_config.
Qed.

Lemma addRequiredTags_annotations (requiredTags : list string) r (tag : string) :
  is_Some (annotations (addRequiredTags requiredTags r) !! tag) ↔
  tag ∈ requiredTags ∨ is_Some (annotations r !! tag).
Proof.
  revert r. induction requiredTags as [|t tags IH]; intros r.
  - cbn. split; [by right | intros [Hin|?]; [by apply not_elem_of_nil in Hin | done]].
  - unfold addRequiredTags. cbn [fold_left]. fold (addRequiredTags tags).
    rewrite IH. cbn [annotations]. rewrite elem_of_cons.
    destruct (decide (tag = t)) as [->|Hne].
    + rewrite lookup_insert_eq. split; [intros _; by left; left | intros _; by right].
    + rewrite lookup_insert_ne by done. tauto.
Qed.

Lemma anyTagAnnotated_true (annotations : gmap string string) (tags : list string) :
  anyTagAnnotated annotations tags = true ↔
  ∃ tag, tag ∈ tags ∧ is_Some (annotations !! tag).
Proof.
  induction tags as [|t tags IH]; cbn [anyTagAnnotated].
  - split; [done | intros (tag & Hin & _); by apply not_elem_of_nil in Hin].
  - destruct (annotations !! t) as [v|] eqn:Ht.
    + split; [| done]. intros _. exists t. split; [left | by exists v].
    + rewrite IH. split.
      * intros (tag & Hin & Hsome). exists tag. split; [by right | done].
      * intros (tag & Hin & Hsome). apply elem_of_cons in Hin as [->|Hin].
        -- rewrite Ht in Hsome. by destruct Hsome.
        -- by exists tag.
Qed.

End Detection2.

(** [nodesEqual] holds exactly when the two nodes have the same name, the
    same online flag and the same address list, element by element in list
    order: the id, the hostname, the tags and the last-seen instant play no
    part, and the same addresses in another order make the nodes unequal. *)
Theorem nodesEqual_iff (a b : TailscaleNode) :
  nodesEqual a b = true ↔
  Name a = Name b ∧ Online a = Online b ∧
  length (Addresses a) = length (Addresses b) ∧
  ∀ i, Addresses a !! i = Addresses b !! i.
Proof.
  rewrite nodesEqual_true. split.
  - intros (Hn & Ho & Ha). rewrite Ha. done.
  - intros (Hn & Ho & _ & Ha). split_and!; [done | done |]. by apply list_eq.
Qed.

(** A fetched node that is new to the cache, or that [nodesEqual] tells
    apart from its cached entry, replaces the entry and has its id added to
    the queue exactly once in the run. The ids of the fetched list are
    pairwise distinct and the id is no deletion key. *)
Theorem syncNodes_reports_change (ord : RangeOrder) (nodes : list TailscaleNode)
    (r : DNSReconciler) (n : TailscaleNode) :
  NoDup (ID <$> nodes) →
  n ∈ nodes →
  strings.HasSuffix (ID n) ":delete" = false →
  (∀ e, nodeCache r !! ID n = Some e → nodesEqual e n = false) →
  nodeCache (syncNodes ord (Ok nodes) r) !! ID n = Some n ∧
  ∃ added : list QueueCall,
    queue (syncNodes ord (Ok nodes) r) = queue r ++ added ∧
    timesCalled (QAdd (ID n)) added = 1.
Proof.
  intros Hnd Hn Hkey Hch.
  destruct (syncNode_fold_changed nodes r ∅ n Hnd Hn Hch) as (ups & Hq & Hone & Hcache).
  split.
  - rewrite syncNodes_lookup, decide_True; [done |]. unfold nodeIDs. set_solver.
  - rewrite syncNodes_unfold, Hq, <- app_assoc. eexists. split; [done |].
    rewrite timesCalled_app, Hone, timesCalled_absent; [done |].
    by apply deletionCalls_suffixed.
Qed.

Lemma syncNodes_reports_change_witness :
  NoDup (ID <$> [webServerReordered; dbServer]) ∧
  webServerReordered ∈ [webServerReordered; dbServer] ∧
  strings.HasSuffix (ID webServerReordered) ":delete" = false ∧
  (∀ e, nodeCache (polledOnce [webServer]) !! ID webServerReordered = Some e →
        nodesEqual e webServerReordered = false) ∧
  nodeCache (syncNodes defaultOrder (Ok [webServerReordered; dbServer]) (polledOnce [webServer]))
    !! ID webServerReordered = Some webServerReordered ∧
  ∃ added : list QueueCall,
    queue (syncNodes defaultOrder (Ok [webServerReordered; dbServer]) (polledOnce [webServer]))
      = queue (polledOnce [webServer]) ++ added ∧
    timesCalled (QAdd (ID webServerReordered)) added = 1.
Proof.
  assert (Hnd : NoDup (ID <$> [webServerReordered; dbServer]))
    by (apply (bool_decide_unpack _); vm_compute; reflexivity).
  assert (Hn : webServerReordered ∈ [webServerReordered; dbServer]) by apply list_elem_of_here.
  assert (Hkey : strings.HasSuffix (ID webServerReordered) ":delete" = false) by reflexivity.
  assert (Hch : ∀ e, nodeCache (polledOnce [webServer]) !! ID webServerReordered = Some e →
                     nodesEqual e webServerReordered = false).
  { intros e He.
    assert (Hweb : nodeCache (polledOnce [webServer]) !! ID webServerReordered = Some webServer)
      by (vm_compute; reflexivity).
    rewrite Hweb in He. injection He as <-. vm_compute. reflexivity. }
  split_and!; [exact Hnd | exact Hn | exact Hkey | exact Hch | ..];
    apply (syncNodes_reports_change defaultOrder _ (polledOnce [webServer])
             webServerReordered Hnd Hn Hkey Hch).
Defined.

(** The tag filter of a running reconciler: after any number of polls, a
    node is managed exactly when no required tag was configured or the node
    carries one of the required tags (compared as whole strings). *)
Theorem shouldManageNode_iff (polls : list (RangeOrder * Result (list TailscaleNode)))
    (zone : string) (requiredTags : list string) (node : TailscaleNode) :
  shouldManageNode (pollCycles polls (newReconciler zone requiredTags)) node = true ↔
  requiredTags = [] ∨ ∃ tag, tag ∈ Tags node ∧ tag ∈ requiredTags.
Proof.
  unfold shouldManageNode.
  destruct (pollCycles_config polls (newReconciler zone requiredTags)) as [_ ->].
  assert (Hann : ∀ tag, is_Some (annotations (newReconciler zone requiredTags) !! tag)
                        ↔ tag ∈ requiredTags).
  { intros tag. unfold newReconciler. rewrite addRequiredTags_annotations.
    cbn [annotations NewDNSReconciler]. rewrite lookup_empty. split; [| by left].
    intros [?|Hsome]; [done | by destruct Hsome]. }
  case_bool_decide as Hsize.
  - rewrite anyTagAnnotated_true. split.
    + intros (tag & Hin & Hsome). right. exists tag. by rewrite <- Hann.
    + intros [->|(tag & Hin & Htag)].
      * cbn in Hsize. rewrite map_size_empty in Hsize. lia.
      * exists tag. by rewrite Hann.
  - split; [| done]. intros _. left.
    assert (Hempty : annotations (newReconciler zone requiredTags) = ∅).
    { apply map_size_empty_iff. lia. }
    destruct requiredTags as [|t tags]; [done |].
    assert (Hin : is_Some (annotations (newReconciler zone (t :: tags)) !! t))
      by (apply Hann; left).
    rewrite Hempty, lookup_empty in Hin. by destruct Hin.
Qed.

(** ** The other ways through [reconcile] *)

Section ReconcileBranches.
Context {B : Type} `{!DNSProvider B}.

Implicit Types (r : DNSReconciler) (b : B).

(** The upsert key of a node that has left: once a poll no longer lists
    the id, reconciling the key (itself no deletion key) fails with the
    not-found error without a backend call, and the worker hands the key
    back with [AddRateLimited]. *)
Theorem reconcile_stale_key (ord : RangeOrder) (nodes : list TailscaleNode)
    r (id : string) b :
  id ∉ nodeIDs nodes →
  strings.HasSuffix id ":delete" = false →
  let r' := syncNodes ord (Ok nodes) r in
  value (reconcile r' id b) = Some ("node " +:+ id +:+ " not found in cache") ∧
  calls (reconcile r' id b) = [] ∧
  backend (reconcile r' id b) = b ∧
  queue (value (workerItem id r' b)) = queue r' ++ [QAddRateLimited id; QDone id].
Proof.
  intros Hid Hkey r'.
  assert (Hgone : nodeCache r' !! id = None).
  { unfold r'. rewrite syncNodes_lookup. by rewrite decide_False. }
  assert (Hrun : reconcile r' id b
                 = ret (Some ("node " +:+ id +:+ " not found in cache")) b).
  { unfold reconcile. by rewrite Hkey, Hgone. }
  destruct (workerItem_run id r' b) as [_ ->]. rewrite Hrun. done.
Qed.

(** A cached node that the tag filter turns down: [reconcile] returns
    [nil] without a backend call, and the worker calls [Forget] and
    [Done]. *)
Theorem reconcile_filtered_node r (key : string) (node : TailscaleNode) b :
  strings.HasSuffix key ":delete" = false →
  nodeCache r !! key = Some node →
  shouldManageNode r node = false →
  value (reconcile r key b) = None ∧
  calls (reconcile r key b) = [] ∧
  backend (reconcile r key b) = b ∧
  queue (value (workerItem key r b)) = queue r ++ [QForget key; QDone key].
Proof.
  intros Hkey Hnode Hmanage.
  assert (Hrun : reconcile r key b = ret None b).
  { unfold reconcile. by rewrite Hkey, Hnode, Hmanage. }
  destruct (workerItem_run key r b) as [_ ->]. rewrite Hrun. done.
Qed.

(** A deletion key whose listing fails: [reconcile] returns the error of
    [ListRecords], the listing is its only backend call, and the worker
    hands the key back with [AddRateLimited]. *)
Theorem reconcile_listing_failure r (nodeID : string) b (e : error) (b' : B) :
  ListRecords (domain r) b = (Err e, b') →
  value (reconcile r (nodeID +:+ ":delete") b) = Some e ∧
  calls (reconcile r (nodeID +:+ ":delete") b) = [CallList (domain r) (Err e)] ∧
  backend (reconcile r (nodeID +:+ ":delete") b) = b' ∧
  queue (value (workerItem (nodeID +:+ ":delete") r b))
    = queue r ++ [QAddRateLimited (nodeID +:+ ":delete"); QDone (nodeID +:+ ":delete")].
Proof.
  intros Hlist.
  destruct (workerItem_run (nodeID +:+ ":delete") r b) as [_ ->].
  rewrite reconcile_delete_key.
  unfold deleteNodeDNS, bind, callListRecords. rewrite Hlist. done.
Qed.

End ReconcileBranches.

Lemma reconcile_stale_key_witness :
  ("n1" ∉ nodeIDs [dbServer]) ∧
  strings.HasSuffix "n1" ":delete" = false ∧
  let r' := syncNodes defaultOrder (Ok [dbServer]) (polledOnce [webServer; dbServer]) in
  value (@reconcile _ (fakeProvider neverRefuses) r' "n1" [])
    = Some ("node " +:+ "n1" +:+ " not found in cache") ∧
  calls (@reconcile _ (fakeProvider neverRefuses) r' "n1" []) = [] ∧
  backend (@reconcile _ (fakeProvider neverRefuses) r' "n1" []) = [] ∧
  queue (value (@workerItem _ (fakeProvider neverRefuses) "n1" r' []))
    = queue r' ++ [QAddRateLimited "n1"; QDone "n1"].
Proof.
  assert (Hid : "n1" ∉ nodeIDs [dbServer])
    by (apply (bool_decide_unpack _); vm_compute; reflexivity).
  assert (Hkey : strings.HasSuffix "n1" ":delete" = false) by reflexivity.
  split; [exact Hid |]. split; [exact Hkey |].
  exact (@reconcile_stale_key _ (fakeProvider neverRefuses) defaultOrder [dbServer]
           (polledOnce [webServer; dbServer]) "n1" [] Hid Hkey).
Defined.

Lemma reconcile_filtered_node_witness :
  let r := syncNodes defaultOrder (Ok [webServer]) (newReconciler "example.com" ["tag:prod"]) in
  strings.HasSuffix "n1" ":delete" = false ∧
  nodeCache r !! "n1" = Some webServer ∧
  shouldManageNode r webServer = false ∧
  value (@reconcile _ (fakeProvider neverRefuses) r "n1" []) = None ∧
  calls (@reconcile _ (fakeProvider neverRefuses) r "n1" []) = [] ∧
  backend (@reconcile _ (fakeProvider neverRefuses) r "n1" []) = [] ∧
  queue (value (@workerItem _ (fakeProvider neverRefuses) "n1" r []))
    = queue r ++ [QForget "n1"; QDone "n1"].
Proof.
  intros r.
  assert (Hkey : strings.HasSuffix "n1" ":delete" = false) by reflexivity.
  assert (Hnode : nodeCache r !! "n1" = Some webServer) by (vm_compute; reflexivity).
  assert (Hmanage : shouldManageNode r webServer = false) by (vm_compute; reflexivity).
  split_and!; [exact Hkey | exact Hnode | exact Hmanage | ..];
    apply (@reconcile_filtered_node _ (fakeProvider neverRefuses) r "n1" webServer []
             Hkey Hnode Hmanage).
Defined.

Lemma reconcile_listing_failure_witness :
  let r := newReconciler "example.com" [] in
  @ListRecords _ unreachableProvider (domain r) tt = (Err "connection refused", tt) ∧
  value (@reconcile _ unreachableProvider r ("n1" +:+ ":delete") tt)
    = Some "connection refused" ∧
  calls (@reconcile _ unreachableProvider r ("n1" +:+ ":delete") tt)
    = [CallList (domain r) (Err "connection refused")] ∧
  backend (@reconcile _ unreachableProvider r ("n1" +:+ ":delete") tt) = tt ∧
  queue (value (@workerItem _ unreachableProvider ("n1" +:+ ":delete") r tt))
    = queue r ++ [QAddRateLimited ("n1" +:+ ":delete"); QDone ("n1" +:+ ":delete")].
Proof.
  intros r.
  assert (Hlist : @ListRecords _ unreachableProvider (domain r) tt
                  = (Err "connection refused", tt)) by reflexivity.
  split; [exact Hlist |].
  exact (@reconcile_listing_failure _ unreachableProvider r "n1" tt
           "connection refused" tt Hlist).
Defined.

(** * Configuration and the choice of the provider *)

Section Validation.

Implicit Types (c : Config).

Lemma inStrings_elem (x : string) (valid : list string) :
  inStrings x valid = true ↔ x ∈ valid.
Proof.
  induction valid as [|v valid IH]; cbn [inStrings].
  - split; [done | intros Hin; by apply not_elem_of_nil in Hin].
  - case_bool_decide as Hx.
    + split; [intros _; subst; left | done].
    + rewrite IH, elem_of_cons. split; [by right | by intros [?|?]].
Qed.

Lemma validateProvider_None (d : DNSConfig) :
  validateProvider d = None ↔
  (Provider d = "route53" ∧ ZoneID d ≠ "") ∨
  (Provider d = "cloudflare" ∧ ZoneID d ≠ "" ∧
   CloudflareConfig.APIToken (Cloudflare d) ≠ "") ∨
  (Provider d = "pihole" ∧ PiholeConfig.BaseURL (Pihole d) ≠ "" ∧
   PiholeConfig.APIToken (Pihole d) ≠ "").
Proof.
  unfold validateProvider.
  repeat case_bool_decide; split; try done; try (intros _; tauto);
    intros [(? & ?)|[(? & ? & ?)|(? & ? & ?)]]; congruence.
Qed.

(** The stages of a successful validation. *)
Lemma Validate_ok c (c' : Config) :
  Validate c = (c', None) ↔
  APIKey (Tailscale c) ≠ "" ∧ Tailnet (Tailscale c) ≠ "" ∧
  Provider (DNS c) ≠ "" ∧ Domain (DNS c) ≠ "" ∧
  validateProvider (DNS c) = None ∧
  ∃ c1, validateLevel (defaultApp c) = (c1, None) ∧ validateFormat c1 = (c', None).
Proof.
  unfold Validate. repeat case_bool_decide; try (split; [done | tauto]).
  destruct (validateProvider (DNS c)) as [e|]; [split; [done | by intros (_ & _ & _ & _ & ? & _)] |].
  destruct (validateLevel (defaultApp c)) as [c1 [e|]] eqn:Hlevel.
  - split; [done |]. intros (_ & _ & _ & _ & _ & c2 & [=] & _).
  - split.
    + intros Hformat. split_and!; try done. by exists c1.
    + intros (_ & _ & _ & _ & _ & c2 & [= <-] & Hformat). done.
Qed.

Lemma defaultApp_spec c :
  Tailscale (defaultApp c) = Tailscale c ∧ DNS (defaultApp c) = DNS c ∧
  Logging (defaultApp c) = Logging c ∧
  RequiredTags (App (defaultApp c)) = RequiredTags (App c) ∧
  Workers (App (defaultApp c)) = (if bool_decide (Workers (App c) ≤ 0)%Z
                                  then 2%Z else Workers (App c)) ∧
  PollInterval (App (defaultApp c)) = (if bool_decide (PollInterval (App c) ≤ 0)%Z
                                       then (30 * Second)%Z else PollInterval (App c)).
Proof. unfold defaultApp. repeat case_bool_decide; done. Qed.

Lemma validateLevel_ok c (c1 : Config) :
  validateLevel c = (c1, None) →
  Tailscale c1 = Tailscale c ∧ DNS c1 = DNS c ∧ App c1 = App c ∧
  Format (Logging c1) = Format (Logging c) ∧
  Level (Logging c1) = (if bool_decide (Level (Logging c) = "")
                        then "info" else Level (Logging c)) ∧
  Level (Logging c1) ∈ validLevels.
Proof.
  unfold validateLevel.
  destruct (inStrings (Level (Logging c)) validLevels) eqn:Hin; cbn [negb].
  - intros [= <-]. apply inStrings_elem in Hin. split_and!; try done.
    case_bool_decide as Hempty; [| done].
    rewrite Hempty in Hin. vm_compute in Hin. set_solver.
  - case_bool_decide as Hempty; [| done]. intros [= <-]. cbn.
    split_and!; try done. set_solver.
Qed.

Lemma validateFormat_ok c (c1 : Config) :
  validateFormat c = (c1, None) →
  Tailscale c1 = Tailscale c ∧ DNS c1 = DNS c ∧ App c1 = App c ∧
  Level (Logging c1) = Level (Logging c) ∧
  Format (Logging c1) = (if bool_decide (Format (Logging c) = "")
                         then "console" else Format (Logging c)) ∧
  Format (Logging c1) ∈ validFormats.
Proof.
  unfold validateFormat.
  destruct (inStrings (Format (Logging c)) validFormats) eqn:Hin; cbn [negb].
  - intros [= <-]. apply inStrings_elem in Hin. split_and!; try done.
    case_bool_decide as Hempty; [| done].
    rewrite Hempty in Hin. vm_compute in Hin. set_solver.
  - case_bool_decide as Hempty; [| done]. intros [= <-]. cbn.
    split_and!; try done. set_solver.
Qed.

(** What a successful validation changed and what it left. *)
Lemma Validate_ok_fields c (c' : Config) :
  Validate c = (c', None) →
  Tailscale c' = Tailscale c ∧ DNS c' = DNS c ∧
  RequiredTags (App c') = RequiredTags (App c) ∧
  Workers (App c') = (if bool_decide (Workers (App c) ≤ 0)%Z
                      then 2%Z else Workers (App c)) ∧
  PollInterval (App c') = (if bool_decide (PollInterval (App c) ≤ 0)%Z
                           then (30 * Second)%Z else PollInterval (App c)) ∧
  Level (Logging c') = (if bool_decide (Level (Logging c) = "")
                        then "info" else Level (Logging c)) ∧
  Format (Logging c') = (if bool_decide (Format (Logging c) = "")
                         then "console" else Format (Logging c)) ∧
  Level (Logging c') ∈ validLevels ∧ Format (Logging c') ∈ validFormats.
Proof.
  intros Hok. apply Validate_ok in Hok as (_ & _ & _ & _ & _ & c1 & Hlevel & Hformat).
  destruct (defaultApp_spec c) as (Ht & Hd & Hl & Htags & Hw & Hp).
  apply validateLevel_ok in Hlevel as (Ht1 & Hd1 & Ha1 & Hf1 & Hl1 & Hv1).
  apply validateFormat_ok in Hformat as (Ht2 & Hd2 & Ha2 & Hl2 & Hf2 & Hv2).
  rewrite Hl in Hf1, Hl1.
  split_and!.
  - congruence.
  - congruence.
  - by rewrite Ha2, Ha1.
  - by rewrite Ha2, Ha1.
  - by rewrite Ha2, Ha1.
  - by rewrite Hl2.
  - by rewrite Hf2, Hf1.
  - by rewrite Hl2.
  - done.
Qed.

End Validation.

Section ValidationFacts.

Implicit Types (c : Config).

Lemma validateLevel_valid c :
  Level (Logging c) ∈ validLevels → validateLevel c = (c, None).
Proof. intros Hin. unfold validateLevel. apply inStrings_elem in Hin. by rewrite Hin. Qed.

Lemma validateFormat_valid c :
  Format (Logging c) ∈ validFormats → validateFormat c = (c, None).
Proof. intros Hin. unfold validateFormat. apply inStrings_elem in Hin. by rewrite Hin. Qed.

Lemma validateLevel_accepts c :
  (∃ c1, validateLevel c = (c1, None)) ↔
  Level (Logging c) = "" ∨ Level (Logging c) ∈ validLevels.
Proof.
  unfold validateLevel. destruct (inStrings (Level (Logging c)) validLevels) eqn:Hin; cbn [negb].
  - apply inStrings_elem in Hin. split; [by right | by exists c].
  - case_bool_decide as Hempty.
    + split; [by left | by eexists].
    + split; [by intros (c1 & [=]) |]. intros [?|Hv]; [done |].
      apply inStrings_elem in Hv. congruence.
Qed.

Lemma validateFormat_accepts c :
  (∃ c1, validateFormat c = (c1, None)) ↔
  Format (Logging c) = "" ∨ Format (Logging c) ∈ validFormats.
Proof.
  unfold validateFormat. destruct (inStrings (Format (Logging c)) validFormats) eqn:Hin; cbn [negb].
  - apply inStrings_elem in Hin. split; [by right | by exists c].
  - case_bool_decide as Hempty.
    + split; [by left | by eexists].
    + split; [by intros (c1 & [=]) |]. intros [?|Hv]; [done |].
      apply inStrings_elem in Hv. congruence.
Qed.

Lemma defaultApp_positive c :
  (0 < Workers (App c))%Z → (0 < PollInterval (App c))%Z → defaultApp c = c.
Proof.
  intros Hw Hp. unfold defaultApp.
  rewrite (bool_decide_eq_false_2 (Workers (App c) ≤ 0)%Z) by lia.
  by rewrite bool_decide_eq_false_2 by lia.
Qed.

End ValidationFacts.

(** [Validate] accepts a configuration exactly when the API key, the
    tailnet and the domain are set, the provider is one of [route53],
    [cloudflare] and [pihole] with the settings it needs (a zone id for the
    first two, the API token for Cloudflare, the base URL and the API token
    for Pi-hole), and the logging level and format are each empty or one of
    the supported words. The worker count and the poll interval never cause
    a rejection. *)
Theorem Validate_accepts (c : Config) :
  (∃ c', Validate c = (c', None)) ↔
  APIKey (Tailscale c) ≠ "" ∧ Tailnet (Tailscale c) ≠ "" ∧ Domain (DNS c) ≠ "" ∧
  ((Provider (DNS c) = "route53" ∧ ZoneID (DNS c) ≠ "") ∨
   (Provider (DNS c) = "cloudflare" ∧ ZoneID (DNS c) ≠ "" ∧
    CloudflareConfig.APIToken (Cloudflare (DNS c)) ≠ "") ∨
   (Provider (DNS c) = "pihole" ∧ PiholeConfig.BaseURL (Pihole (DNS c)) ≠ "" ∧
    PiholeConfig.APIToken (Pihole (DNS c)) ≠ "")) ∧
  (Level (Logging c) = "" ∨ Level (Logging c) ∈ validLevels) ∧
  (Format (Logging c) = "" ∨ Format (Logging c) ∈ validFormats).
Proof.
  split.
  - intros (c' & Hok). apply Validate_ok in Hok as (Hk & Ht & Hp & Hd & Hprov & c1 & Hl & Hf).
    apply validateProvider_None in Hprov.
    split_and!; [done | done | done | done | |].
    + assert (Hacc : ∃ c2, validateLevel (defaultApp c) = (c2, None)) by by exists c1.
      apply validateLevel_accepts in Hacc.
      by destruct (defaultApp_spec c) as (_ & _ & -> & _) in Hacc.
    + assert (Hacc : ∃ c2, validateFormat c1 = (c2, None)) by by exists c'.
      apply validateFormat_accepts in Hacc.
      apply validateLevel_ok in Hl as (_ & _ & _ & Hfmt & _).
      destruct (defaultApp_spec c) as (_ & _ & Hlog & _).
      by rewrite Hfmt, Hlog in Hacc.
  - intros (Hk & Ht & Hd & Hprov & Hl & Hf).
    assert (Hp : Provider (DNS c) ≠ "").
    { destruct Hprov as [(-> & _)|[(-> & _)|(-> & _)]]; done. }
    apply validateProvider_None in Hprov.
    destruct (defaultApp_spec c) as (_ & _ & Hlog & _).
    assert (Hl1 : ∃ c1, validateLevel (defaultApp c) = (c1, None)).
    { apply validateLevel_accepts. by rewrite Hlog. }
    destruct Hl1 as (c1 & Hl1).
    assert (Hf1 : ∃ c2, validateFormat c1 = (c2, None)).
    { apply validateFormat_accepts.
      destruct (validateLevel_ok _ _ Hl1) as (_ & _ & _ & -> & _). by rewrite Hlog. }
    destruct Hf1 as (c2 & Hf1). exists c2. apply Validate_ok.
    split_and!; try done. by exists c1.
Qed.

(** An accepted configuration comes back as it was given but for four
    defaults: 2 workers for a count that is not positive, 30 seconds for a
    poll interval that is not positive, level [info] and format [console]
    for an empty level and an empty format. *)
Theorem Validate_fills_defaults (c c' : Config) :
  Validate c = (c', None) →
  Tailscale c' = Tailscale c ∧ DNS c' = DNS c ∧
  RequiredTags (App c') = RequiredTags (App c) ∧
  Workers (App c') = (if bool_decide (Workers (App c) ≤ 0)%Z
                      then 2%Z else Workers (App c)) ∧
  PollInterval (App c') = (if bool_decide (PollInterval (App c) ≤ 0)%Z
                           then (30 * Second)%Z else PollInterval (App c)) ∧
  Level (Logging c') = (if bool_decide (Level (Logging c) = "")
                        then "info" else Level (Logging c)) ∧
  Format (Logging c') = (if bool_decide (Format (Logging c) = "")
                         then "console" else Format (Logging c)).
Proof.
  intros Hok. apply Validate_ok_fields in Hok.
  destruct Hok as (H1 & H2 & H3 & H4 & H5 & H6 & H7 & _). done.
Qed.

Lemma Validate_fills_defaults_witness :
  Validate piholeConfig = (piholeConfigValidated, None) ∧
  Tailscale piholeConfigValidated = Tailscale piholeConfig ∧
  DNS piholeConfigValidated = DNS piholeConfig ∧
  RequiredTags (App piholeConfigValidated) = RequiredTags (App piholeConfig) ∧
  Workers (App piholeConfigValidated)
    = (if bool_decide (Workers (App piholeConfig) ≤ 0)%Z
       then 2%Z else Workers (App piholeConfig)) ∧
  PollInterval (App piholeConfigValidated)
    = (if bool_decide (PollInterval (App piholeConfig) ≤ 0)%Z
       then (30 * Second)%Z else PollInterval (App piholeConfig)) ∧
  Level (Logging piholeConfigValidated)
    = (if bool_decide (Level (Logging piholeConfig) = "")
       then "info" else Level (Logging piholeConfig)) ∧
  Format (Logging piholeConfigValidated)
    = (if bool_decide (Format (Logging piholeConfig) = "")
       then "console" else Format (Logging piholeConfig)).
Proof.
  assert (Hok : Validate piholeConfig = (piholeConfigValidated, None))
    by (vm_compute; reflexivity).
  split; [exact Hok |].
  exact (Validate_fills_defaults piholeConfig piholeConfigValidated Hok).
Defined.

(** Validation is idempotent: a configuration that [Validate] accepted
    and completed is accepted again and left as it is. *)
Theorem Validate_idempotent (c c' : Config) :
  Validate c = (c', None) → Validate c' = (c', None).
Proof.
  intros Hok. pose proof (Validate_ok_fields _ _ Hok)
    as (Ht & Hd & _ & Hw & Hp & _ & _ & Hlv & Hfv).
  apply Validate_ok in Hok as (Hk & Htn & Hpr & Hdom & Hprov & _).
  apply Validate_ok. rewrite Ht, Hd. split_and!; try done.
  exists c'. rewrite defaultApp_positive.
  - split; [by apply validateLevel_valid | by apply validateFormat_valid].
  - rewrite Hw. clear Hw Hp. case_bool_decide; lia.
  - rewrite Hp. clear Hw Hp. unfold Second. case_bool_decide; lia.
Qed.

Lemma Validate_idempotent_witness :
  Validate piholeConfig = (piholeConfigValidated, None) ∧
  Validate piholeConfigValidated = (piholeConfigValidated, None).
Proof.
  assert (Hok : Validate piholeConfig = (piholeConfigValidated, None))
    by (vm_compute; reflexivity).
  split; [exact Hok |].
  exact (Validate_idempotent piholeConfig piholeConfigValidated Hok).
Defined.

(** A configuration that [Validate] accepted passes every check of
    [createDNSProvider] and of the constructors it calls: the provider value
    is built from the configured settings (the Pi-hole base URL without a
    trailing slash), and the only error left is a failed load of the AWS
    configuration for Route53. *)
Theorem createDNSProvider_after_Validate {C : Type} (loaded : Result C) (c c' : Config) :
  Validate c = (c', None) →
  match createDNSProvider loaded c' with
  | Ok (Route53Value p) =>
      Provider (DNS c') = "route53" ∧ loaded = Ok (client p) ∧
      zoneID p = ZoneID (DNS c')
  | Ok (CloudflareValue p) =>
      Provider (DNS c') = "cloudflare" ∧
      cloudflare.apiToken p = CloudflareConfig.APIToken (Cloudflare (DNS c')) ∧
      cloudflare.zoneID p = ZoneID (DNS c')
  | Ok (PiholeValue p) =>
      Provider (DNS c') = "pihole" ∧
      pihole.apiToken p = PiholeConfig.APIToken (Pihole (DNS c')) ∧
      pihole.baseURL p = strings.TrimSuffix (PiholeConfig.BaseURL (Pihole (DNS c'))) "/" ∧
      InsecureSkipVerify (pihole.httpClient p)
        = PiholeConfig.TLSInsecureSkipVerify (Pihole (DNS c'))
  | Err e => Provider (DNS c') = "route53" ∧ loaded = Err e
  end.
Proof.
  intros Hok. pose proof (Validate_ok_fields _ _ Hok) as (_ & Hd & _).
  apply Validate_ok in Hok as (_ & _ & _ & _ & Hprov & _).
  rewrite <- Hd in Hprov. apply validateProvider_None in Hprov.
  unfold createDNSProvider.
  destruct Hprov as [(Hp & Hz)|[(Hp & Hz & Htok)|(Hp & Hbase & Htok)]]; rewrite Hp.
  - cbn. destruct loaded as [cl|e]; cbn; done.
  - cbn. rewrite (bool_decide_eq_false_2 _ Htok).
    unfold cloudflare.NewCloudflareProvider.
    rewrite (bool_decide_eq_false_2 _ Htok), (bool_decide_eq_false_2 _ Hz). cbn. done.
  - cbn. rewrite (bool_decide_eq_false_2 _ Htok), (bool_decide_eq_false_2 _ Hbase). cbn.
    unfold pihole.NewPiholeProvider.
    rewrite (bool_decide_eq_false_2 _ Htok), (bool_decide_eq_false_2 _ Hbase). cbn. done.
Qed.

Lemma createDNSProvider_after_Validate_witness :
  Validate piholeConfig = (piholeConfigValidated, None) ∧
  match createDNSProvider (Ok tt) piholeConfigValidated with
  | Ok (Route53Value p) =>
      Provider (DNS piholeConfigValidated) = "route53" ∧ Ok tt = Ok (client p) ∧
      zoneID p = ZoneID (DNS piholeConfigValidated)
  | Ok (CloudflareValue p) =>
      Provider (DNS piholeConfigValidated) = "cloudflare" ∧
      cloudflare.apiToken p
        = CloudflareConfig.APIToken (Cloudflare (DNS piholeConfigValidated)) ∧
      cloudflare.zoneID p = ZoneID (DNS piholeConfigValidated)
  | Ok (PiholeValue p) =>
      Provider (DNS piholeConfigValidated) = "pihole" ∧
      pihole.apiToken p = PiholeConfig.APIToken (Pihole (DNS piholeConfigValidated)) ∧
      pihole.baseURL p
        = strings.TrimSuffix (PiholeConfig.BaseURL (Pihole (DNS piholeConfigValidated))) "/" ∧
      InsecureSkipVerify (pihole.httpClient p)
        = PiholeConfig.TLSInsecureSkipVerify (Pihole (DNS piholeConfigValidated))
  | Err e => Provider (DNS piholeConfigValidated) = "route53" ∧ Ok tt = Err e
  end.
Proof.
  assert (Hok : Validate piholeConfig = (piholeConfigValidated, None))
    by (vm_compute; reflexivity).
  split; [exact Hok |].
  exact (createDNSProvider_after_Validate (Ok tt) piholeConfig piholeConfigValidated Hok).
Defined.

(** * Devices and the listing of nodes *)

Section DeviceNames.

Lemma HasPrefix_refl (s : string) : strings.HasPrefix s s = true.
Proof.
  induction s as [|c s IH]; [done |]. cbn [strings.HasPrefix].
  by rewrite IH, bool_decide_eq_true_2.
Qed.

Lemma HasPrefix_dot (c : ascii) (s : string) :
  strings.HasPrefix (String c s) "." = bool_decide (c = "."%char).
Proof. cbn. apply andb_true_r. Qed.

(** [strings.Index] for the one-character string [.]: the text before the
    first dot is a prefix without a dot. *)
Lemma strings_Index_dot (s : string) :
  (strings_Index s "." = (-1)%Z ∧ strings.Contains s "." = false)
  ∨
  ((0 ≤ strings_Index s ".")%Z ∧
   strings.Contains (String.substring 0 (Z.to_nat (strings_Index s ".")) s) "." = false ∧
   strings.HasPrefix s (String.substring 0 (Z.to_nat (strings_Index s ".")) s) = true ∧
   (strings_Index s "." = 0%Z ↔ strings.HasPrefix s "." = true) ∧
   ((0 < strings_Index s ".")%Z →
    String.substring 0 (Z.to_nat (strings_Index s ".")) s ≠ "")).
Proof.
  induction s as [|c s IH].
  - left. done.
  - cbn [strings_Index]. rewrite HasPrefix_dot.
    case_bool_decide as Hc.
    + right. split_and!; [done | done | done | done | lia].
    + destruct IH as [[Hi Hno]|(Hi & Hno & Hpre & _ & _)].
      * left. rewrite Hi. split; [done |].
        cbn [strings.Contains]. rewrite HasPrefix_dot, Hno.
        by rewrite bool_decide_eq_false_2.
      * right. rewrite bool_decide_eq_false_2 by lia.
        replace (Z.to_nat (strings_Index s "." + 1)) with (S (Z.to_nat (strings_Index s ".")))
          by lia.
        cbn [String.substring]. split_and!.
        -- lia.
        -- cbn [strings.Contains]. rewrite HasPrefix_dot, Hno.
           by rewrite bool_decide_eq_false_2.
        -- cbn [strings.HasPrefix]. rewrite Hpre. by rewrite bool_decide_eq_true_2.
        -- split; [lia | done].
        -- done.
Qed.

End DeviceNames.

(** The name a device is given: it is a prefix of the device name, or of
    the hostname when the device name is empty. Unless that string starts
    with a dot, the name holds no dot; a string that starts with a dot is
    kept whole; and the name is empty only if the string is. *)
Theorem deviceName_label (d : TailscaleDevice.t) :
  strings.HasPrefix (nameSource d) (deviceName d) = true ∧
  (strings.HasPrefix (nameSource d) "." = false →
   strings.Contains (deviceName d) "." = false) ∧
  (strings.HasPrefix (nameSource d) "." = true → deviceName d = nameSource d) ∧
  (nameSource d ≠ "" → deviceName d ≠ "").
Proof.
  unfold deviceName. fold (nameSource d).
  destruct (strings_Index_dot (nameSource d))
    as [[Hi Hno]|(Hi & Hno & Hpre & Hzero & Hnonempty)].
  - rewrite Hi, bool_decide_eq_false_2 by lia.
    split_and!; [apply HasPrefix_refl | done | done | done].
  - case_bool_decide as Hpos.
    + split_and!; [done | done | | by intros _; apply Hnonempty].
      intros Hdot. apply Hzero in Hdot. lia.
    + assert (Hz : strings_Index (nameSource d) "." = 0%Z) by lia.
      apply Hzero in Hz. split_and!; [apply HasPrefix_refl | congruence | done | done].
Qed.

Section Listing.

Implicit Types (devices : list TailscaleDevice.t) (nodes : list TailscaleNode).

Lemma convertDevices_spec (clock : nat → Z) (tick : nat) devices nodes :
  convertDevices clock tick devices nodes =
  nodes ++ imap (λ i d, ToTailscaleNode (clock (tick + i)) d) (authorized devices).
Proof.
  revert tick nodes. induction devices as [|d devices IH]; intros tick nodes.
  - cbn. by rewrite app_nil_r.
  - cbn [convertDevices]. unfold authorized. rewrite filter_cons.
    destruct (TailscaleDevice.Authorized d) eqn:Hd; cbn [negb].
    + rewrite decide_True by done. rewrite IH, <- app_assoc. cbn [imap app].
      rewrite Nat.add_0_r. do 2 f_equal. apply imap_ext. intros i x _. cbn.
      f_equal. f_equal. lia.
    + rewrite decide_False by done. apply IH.
Qed.

Lemma convertDevices_ids (clock : nat → Z) devices :
  ID <$> convertDevices clock 0 devices [] = TailscaleDevice.ID <$> authorized devices.
Proof.
  rewrite convertDevices_spec. cbn [app]. rewrite fmap_imap.
  generalize (authorized devices). intros l. revert clock.
  induction l as [|d l IH]; intros clock; [done |]. cbn [imap fmap list_fmap].
  f_equal. apply (IH (clock ∘ S)).
Qed.

End Listing.

(** From a response with status 200 whose body decodes, [ListNodes]
    returns one node per authorized device, in the order of the response,
    and none for a device that is not authorized; the i-th of them is
    converted with the i-th reading of the clock. *)
Theorem ListNodes_authorized_only (clock : nat → Z) (status : string)
    (devices : list TailscaleDevice.t) :
  ListNodes clock (Responded 200 status (Ok devices))
    = Ok (imap (λ i d, ToTailscaleNode (clock i) d) (authorized devices)) ∧
  (∀ nodes, ListNodes clock (Responded 200 status (Ok devices)) = Ok nodes →
     ID <$> nodes = TailscaleDevice.ID <$> authorized devices ∧
     ∀ n, n ∈ nodes →
          ∃ d, d ∈ devices ∧ TailscaleDevice.Authorized d = true ∧
               ID n = TailscaleDevice.ID d ∧ Name n = deviceName d ∧
               Addresses n = TailscaleDevice.Addresses d ∧
               Tags n = TailscaleDevice.Tags d).
Proof.
  assert (Hlist : ListNodes clock (Responded 200 status (Ok devices))
                  = Ok (convertDevices clock 0 devices [])) by done.
  split.
  - rewrite Hlist, convertDevices_spec. done.
  - intros nodes Hnodes. rewrite Hlist in Hnodes. injection Hnodes as <-.
    split; [apply convertDevices_ids |].
    intros n Hn. rewrite convertDevices_spec in Hn. cbn [app] in Hn.
    apply list_elem_of_lookup in Hn as [i Hi].
    rewrite list_lookup_imap in Hi.
    destruct (authorized devices !! i) as [d|] eqn:Hd; [| done].
    injection Hi as <-. exists d.
    apply list_elem_of_lookup_2, list_elem_of_filter in Hd as [Hauth Hin]. done.
Qed.

(** A poll whose exchange with the Tailscale API is anything but a
    response with status 200 and a body that decodes (no request, no
    response, another status, an undecodable body) makes [ListNodes] return
    an error and leaves the reconciler, its cache and its queue as they
    were. *)
Theorem pollOnce_failed_listing (ord : RangeOrder) (clock : nat → Z)
    (exchange : TailscaleExchange) (r : DNSReconciler) :
  (∀ status devices, exchange ≠ Responded 200 status (Ok devices)) →
  (∃ e, ListNodes clock exchange = Err e) ∧ pollOnce ord clock exchange r = r.
Proof.
  intros Hbad.
  assert (Herr : ∃ e, ListNodes clock exchange = Err e).
  { destruct exchange as [e|e|code status [devices|e]]; cbn [ListNodes]; try by eexists.
    - case_bool_decide as Hcode; [by eexists |].
      destruct (Hbad status devices). f_equal.
      destruct (decide (code = 200%Z)); [done | by destruct Hcode].
    - case_bool_decide; by eexists. }
  split; [done |]. destruct Herr as (e & He). unfold pollOnce. by rewrite He.
Qed.

Lemma pollOnce_failed_listing_witness :
  (∀ status devices,
     Responded 503 "503 Service Unavailable" (Ok [laptopDevice])
     ≠ Responded 200 status (Ok devices)) ∧
  (∃ e, ListNodes (stoppedClock 2000)
          (Responded 503 "503 Service Unavailable" (Ok [laptopDevice])) = Err e) ∧
  pollOnce defaultOrder (stoppedClock 2000)
    (Responded 503 "503 Service Unavailable" (Ok [laptopDevice])) (polledOnce [webServer])
  = polledOnce [webServer].
Proof.
  assert (Hbad : ∀ status devices,
            Responded 503 "503 Service Unavailable" (Ok [laptopDevice])
            ≠ Responded 200 status (Ok devices)) by (intros status devices; discriminate).
  split; [exact Hbad |].
  exact (pollOnce_failed_listing defaultOrder (stoppedClock 2000) _ (polledOnce [webServer]) Hbad).
Defined.

(** A cached node whose device the API still lists, but no longer as
    authorized, is treated as a node that left: the poll removes its id from
    the cache and adds its deletion key to the queue. *)
Theorem pollOnce_unauthorized_device (ord : RangeOrder) (clock : nat → Z)
    (status : string) (devices : list TailscaleDevice.t) (r : DNSReconciler)
    (id : string) (node : TailscaleNode) :
  nodeCache r !! id = Some node →
  (∀ d, d ∈ devices → TailscaleDevice.ID d = id → TailscaleDevice.Authorized d = false) →
  let r' := pollOnce ord clock (Responded 200 status (Ok devices)) r in
  nodeCache r' !! id = None ∧
  ∃ added : list QueueCall,
    queue r' = queue r ++ added ∧ QAdd (id +:+ ":delete") ∈ added.
Proof.
  intros Hnode Hunauth r'.
  assert (Hlist : ListNodes clock (Responded 200 status (Ok devices))
                  = Ok (convertDevices clock 0 devices [])) by done.
  assert (Hgone : id ∉ nodeIDs (convertDevices clock 0 devices [])).
  { unfold nodeIDs. rewrite convertDevices_ids. intros Hin.
    apply elem_of_list_to_set, list_elem_of_fmap in Hin as (d & -> & Hd).
    apply list_elem_of_filter in Hd as [Hauth Hd].
    rewrite (Hunauth d Hd eq_refl) in Hauth. done. }
  unfold r', pollOnce. rewrite Hlist. split.
  - rewrite syncNodes_lookup. by rewrite decide_False.
  - destruct (syncNodes_queue ord (convertDevices clock 0 devices []) r)
      as (ups & cur & ids & Hq & _ & _ & Hids & Hcur).
    exists (ups ++ deletionCalls cur ids). split; [done |].
    apply elem_of_app. right. apply deletionCalls_elem. split.
    + apply Hids. apply elem_of_union_l, elem_of_dom. by exists node.
    + rewrite Hcur. by apply bool_decide_eq_false_2.
Qed.

Lemma pollOnce_unauthorized_device_witness :
  nodeCache (polledOnce [webServer]) !! "n1" = Some webServer ∧
  (∀ d, d ∈ [laptopUnauthorized] → TailscaleDevice.ID d = "n1" →
        TailscaleDevice.Authorized d = false) ∧
  let r' := pollOnce defaultOrder (stoppedClock 2000)
              (Responded 200 "200 OK" (Ok [laptopUnauthorized])) (polledOnce [webServer]) in
  nodeCache r' !! "n1" = None ∧
  ∃ added : list QueueCall,
    queue r' = queue (polledOnce [webServer]) ++ added ∧ QAdd ("n1" +:+ ":delete") ∈ added.
Proof.
  assert (Hnode : nodeCache (polledOnce [webServer]) !! "n1" = Some webServer)
    by (vm_compute; reflexivity).
  assert (Hunauth : ∀ d, d ∈ [laptopUnauthorized] → TailscaleDevice.ID d = "n1" →
                         TailscaleDevice.Authorized d = false).
  { intros d Hd _. apply list_elem_of_singleton in Hd as ->. reflexivity. }
  split; [exact Hnode |]. split; [exact Hunauth |].
  exact (pollOnce_unauthorized_device defaultOrder (stoppedClock 2000) "200 OK"
           [laptopUnauthorized] (polledOnce [webServer]) "n1" webServer Hnode Hunauth).
Defined.

(** * The Pi-hole provider *)

Section PiholeFacts.
Context {W : Type} `{!pihole.Server W}.

Implicit Types (p : pihole.PiholeProvider) (s : W) (record : DNSRecord).

Lemma substring_split (s : string) (k : nat) :
  k ≤ String.length s →
  String.substring 0 k s +:+ String.substring k (String.length s - k) s = s.
Proof.
  revert k. induction s as [|c s IH]; intros k Hk.
  - destruct k; [done | cbn in Hk; lia].
  - destruct k as [|k].
    + cbn [String.substring String.length]. rewrite append_nil.
      replace (S (String.length s) - 0) with (S (String.length s)) by lia.
      cbn [String.substring]. f_equal. apply substring_whole.
    + cbn [String.substring String.length]. rewrite append_cons. f_equal.
      replace (S (String.length s) - S k) with (String.length s - k) by lia.
      apply IH. cbn in Hk. lia.
Qed.

(** A string with the suffix is what [TrimSuffix] leaves, followed by the
    suffix. *)
Lemma TrimSuffix_split (s suffix : string) :
  strings.HasSuffix s suffix = true → s = strings.TrimSuffix s suffix +:+ suffix.
Proof.
  intros Hsuf. unfold strings.TrimSuffix. rewrite Hsuf.
  unfold strings.HasSuffix in Hsuf. apply andb_true_iff in Hsuf as [Hlen Hsub].
  apply bool_decide_eq_true in Hlen. apply bool_decide_eq_true in Hsub.
  pose proof (substring_split s (String.length s - String.length suffix)) as Hsplit.
  replace (String.length s - (String.length s - String.length suffix))
    with (String.length suffix) in Hsplit by lia.
  rewrite Hsub in Hsplit. symmetry. apply Hsplit. lia.
Qed.

Lemma makeRequest_sent p (method endpoint : string) (params : gmap string (list string)) s
    (resp : pihole.Response) :
  reply (pihole.makeRequest p method endpoint params s) = Ok resp →
  sent (pihole.makeRequest p method endpoint params s)
  = [ {| pihole.Method := method; pihole.URL := pihole.baseURL p +:+ endpoint;
         pihole.Values := <["auth" := [pihole.apiToken p]]> params |} ].
Proof.
  unfold pihole.makeRequest.
  destruct (pihole.NewRequest _) as [e|]; [done |]. done.
Qed.

Lemma makeRequest_shape p (method endpoint : string) (params : gmap string (list string)) s :
  sent (pihole.makeRequest p method endpoint params s) = [] ∨
  sent (pihole.makeRequest p method endpoint params s)
  = [ {| pihole.Method := method; pihole.URL := pihole.baseURL p +:+ endpoint;
         pihole.Values := <["auth" := [pihole.apiToken p]]> params |} ].
Proof.
  unfold pihole.makeRequest.
  destruct (pihole.NewRequest _) as [e|]; [by left | by right].
Qed.

Lemma appendEntry_fold (zone : string) (data : list (list string)) (records : list DNSRecord) :
  Forall (piholeListed zone) records →
  Forall (piholeListed zone) (fold_left (pihole.appendEntry zone) data records).
Proof.
  revert records. induction data as [|entry data IH]; intros records Hrecords; [done |].
  cbn [fold_left]. apply IH. unfold pihole.appendEntry.
  destruct entry as [|domain [|ipAddress rest]]; [done | done |].
  destruct (strings.HasSuffix domain zone) eqn:Hzone; [| done].
  apply Forall_app. split; [done |]. apply Forall_singleton.
  unfold piholeListed, addressTyped. cbn.
  destruct (strings.Contains ipAddress ":"); split_and!; tauto.
Qed.

Lemma ListRecords_run p (zone : string) s :
  match reply (pihole.ListRecords p zone s) with
  | Ok records =>
      Forall (piholeListed zone) records ∧
      sent (pihole.ListRecords p zone s) = [piholeListRequest p]
  | Err _ =>
      sent (pihole.ListRecords p zone s) = [] ∨
      sent (pihole.ListRecords p zone s) = [piholeListRequest p]
  end.
Proof.
  unfold pihole.ListRecords, hbind. cbn [reply sent server].
  pose proof (makeRequest_shape p "GET" "/admin/api.php" {["customdns" := [""]]} s) as Hshape.
  pose proof (makeRequest_sent p "GET" "/admin/api.php" {["customdns" := [""]]} s) as Hsent.
  destruct (reply (pihole.makeRequest p "GET" "/admin/api.php" {["customdns" := [""]]} s))
    as [resp|e]; cbn [reply sent hret].
  - rewrite (Hsent resp eq_refl).
    case_bool_decide; cbn [reply sent hret]; [by right |].
    destruct (pihole.DecodeCustomDNS (pihole.Body resp)) as [data|e]; cbn [reply sent hret].
    + split; [| done]. by apply appendEntry_fold.
    + by right.
  - rewrite app_nil_r. done.
Qed.

End PiholeFacts.

Section HTTPMonad.
Context {Q W A A' : Type}.

Lemma hbind_reply (m : H Q W A) (k : A → H Q W A') (s : W) :
  reply (hbind m k s) = reply (k (reply (m s)) (server (m s))).
Proof. reflexivity. Qed.

Lemma hbind_sent (m : H Q W A) (k : A → H Q W A') (s : W) :
  sent (hbind m k s) = sent (m s) ++ sent (k (reply (m s)) (server (m s))).
Proof. reflexivity. Qed.

Lemma hbind_server (m : H Q W A) (k : A → H Q W A') (s : W) :
  server (hbind m k s) = server (k (reply (m s)) (server (m s))).
Proof. reflexivity. Qed.

End HTTPMonad.

Section PiholeWrites.
Context {W : Type} `{!pihole.Server W}.

Implicit Types (p : pihole.PiholeProvider) (s : W) (record : DNSRecord).

Lemma addressTyped_test record :
  addressTyped record ↔
  bool_decide (providers.Type_ record ≠ "A") && bool_decide (providers.Type_ record ≠ "AAAA")
  = false.
Proof.
  unfold addressTyped. rewrite andb_false_iff, !bool_decide_eq_false.
  split; (intros [Ht|Ht]; [left | right]); [by intros ? | by intros ? | |];
    by apply dec_stable.
Qed.

Lemma DeleteRecord_run p (zone : string) record s :
  addressTyped record →
  reply (pihole.DeleteRecord p zone record s) = None →
  sent (pihole.DeleteRecord p zone record s) = [piholeWriteRequest p "delete" record].
Proof.
  intros Htyped. apply addressTyped_test in Htyped.
  unfold pihole.DeleteRecord. rewrite Htyped. unfold hbind. cbn [reply sent server].
  match goal with
  | |- context [pihole.makeRequest p ?m ?e ?v s] =>
      pose proof (makeRequest_sent p m e v s) as Hsent;
      destruct (reply (pihole.makeRequest p m e v s)) as [resp|e'] eqn:Hreply
  end; cbn [reply sent hret]; [| done].
  intros _. rewrite (Hsent resp eq_refl), app_nil_r. done.
Qed.

Lemma deleteExisting_run p (zone : string) record (existing : list DNSRecord) s :
  Forall addressTyped existing →
  reply (pihole.deleteExisting p zone record existing s) = None →
  sent (pihole.deleteExisting p zone record existing s)
  = match firstSameNameType record existing with
    | Some ex => [piholeWriteRequest p "delete" ex]
    | None => []
    end.
Proof.
  induction existing as [|ex existing IH]; intros Htyped; [done |].
  apply Forall_cons in Htyped as [Hex Htyped].
  unfold firstSameNameType. cbn [pihole.deleteExisting]. rewrite filter_cons.
  destruct (bool_decide (providers.Name ex = providers.Name record)
            && bool_decide (providers.Type_ ex = providers.Type_ record)) eqn:Hmatch.
  - apply andb_true_iff in Hmatch as [Hn Ht].
    apply bool_decide_eq_true in Hn. apply bool_decide_eq_true in Ht.
    rewrite decide_True by done. cbn [head].
    unfold hbind. cbn [reply sent server].
    pose proof (DeleteRecord_run p zone ex s Hex) as Hdel.
    destruct (reply (pihole.DeleteRecord p zone ex s)) as [e|]; cbn [reply sent hret]; [done |].
    intros _. rewrite Hdel by done. done.
  - rewrite decide_False.
    + by apply IH.
    + intros [Hn Ht]. apply andb_false_iff in Hmatch as [Hm|Hm];
        apply bool_decide_eq_false in Hm; done.
Qed.

End PiholeWrites.

(** [NewPiholeProvider] succeeds exactly when the base URL and the API
    token are given, keeps the token, and takes one trailing slash, if there
    is one, off the base URL (a second trailing slash stays). *)
Theorem NewPiholeProvider_trims (baseURL apiToken : string) (tls : bool)
    (p : pihole.PiholeProvider) :
  pihole.NewPiholeProvider baseURL apiToken tls = Ok p →
  baseURL ≠ "" ∧ apiToken ≠ "" ∧ pihole.apiToken p = apiToken ∧
  InsecureSkipVerify (pihole.httpClient p) = tls ∧
  ((strings.HasSuffix baseURL "/" = false ∧ pihole.baseURL p = baseURL)
   ∨ baseURL = pihole.baseURL p +:+ "/").
Proof.
  unfold pihole.NewPiholeProvider. repeat case_bool_decide; try done.
  intros [= <-]. cbn. split_and!; try done.
  destruct (strings.HasSuffix baseURL "/") eqn:Hslash.
  - right. by apply TrimSuffix_split.
  - left. unfold strings.TrimSuffix. by rewrite Hslash.
Qed.

Lemma NewPiholeProvider_trims_witness :
  pihole.NewPiholeProvider "http://192.168.1.100/" "secret" false = Ok examplePihole ∧
  "http://192.168.1.100/" ≠ "" ∧ "secret" ≠ "" ∧ pihole.apiToken examplePihole = "secret" ∧
  InsecureSkipVerify (pihole.httpClient examplePihole) = false ∧
  ((strings.HasSuffix "http://192.168.1.100/" "/" = false
    ∧ pihole.baseURL examplePihole = "http://192.168.1.100/")
   ∨ "http://192.168.1.100/" = pihole.baseURL examplePihole +:+ "/").
Proof.
  assert (Hnew : pihole.NewPiholeProvider "http://192.168.1.100/" "secret" false
                 = Ok examplePihole) by (vm_compute; reflexivity).
  split; [exact Hnew |].
  exact (NewPiholeProvider_trims "http://192.168.1.100/" "secret" false examplePihole Hnew).
Defined.

(** A listing of the Pi-hole provider holds only A and AAAA records (AAAA
    exactly when the address holds a colon), all with TTL 300 and a name
    that ends with the zone, and never a TXT record; the provider sends the
    one GET request for it, or none when the request cannot be built. *)
Theorem Pihole_ListRecords_addresses {W : Type} `{!pihole.Server W}
    (p : pihole.PiholeProvider) (zone : string) (s : W) :
  match reply (pihole.ListRecords p zone s) with
  | Ok records =>
      Forall (piholeListed zone) records ∧
      Forall (λ record, providers.Type_ record ≠ "TXT") records ∧
      sent (pihole.ListRecords p zone s) = [piholeListRequest p]
  | Err _ =>
      sent (pihole.ListRecords p zone s) = [] ∨
      sent (pihole.ListRecords p zone s) = [piholeListRequest p]
  end.
Proof.
  pose proof (ListRecords_run p zone s) as Hrun.
  destruct (reply (pihole.ListRecords p zone s)) as [records|e]; [| done].
  destruct Hrun as [Hlisted Hsent]. split_and!; [done | | done].
  eapply Forall_impl; [exact Hlisted |].
  intros record ([Ht|Ht] & _); rewrite Ht; done.
Qed.

(** Against the Pi-hole provider a deletion key never deletes: the listing
    holds no TXT record, so the sweep finds no ownership record and the
    listing is the only call of the run. *)
Theorem Pihole_deletion_never_sweeps {W : Type} `{!pihole.Server W}
    (r : DNSReconciler) (nodeID : string) (b : pihole.PiholeProvider * W) :
  request <$> calls (@reconcile _ pihole.PiholeProvider_DNSProvider r
                       (nodeID +:+ ":delete") b)
  = [ReqList (domain r)].
Proof.
  rewrite reconcile_delete_key.
  destruct (@deleteNodeDNS_requests _ pihole.PiholeProvider_DNSProvider r nodeID b) as [-> _].
  cbn [ListRecords pihole.PiholeProvider_DNSProvider fst].
  pose proof (ListRecords_run b.1 (domain r) b.2) as Hrun.
  destruct (reply (pihole.ListRecords b.1 (domain r) b.2)) as [records|e]; [| done].
  destruct Hrun as [Hlisted _].
  rewrite addressTyped_not_ownership; [done |].
  eapply Forall_impl; [exact Hlisted |]. by intros record (Ht & _).
Qed.

(** For a record that is neither an A nor an AAAA record, the Pi-hole
    provider sends nothing: [UpdateRecord] answers with an error that names
    the type, and [DeleteRecord] answers [nil]. *)
Theorem Pihole_other_types {W : Type} `{!pihole.Server W}
    (p : pihole.PiholeProvider) (zone : string) (record : DNSRecord) (s : W) :
  ¬ addressTyped record →
  reply (pihole.UpdateRecord p zone record s)
    = Some ("pi-hole only supports A and AAAA records, got " +:+ providers.Type_ record) ∧
  sent (pihole.UpdateRecord p zone record s) = [] ∧
  server (pihole.UpdateRecord p zone record s) = s ∧
  reply (pihole.DeleteRecord p zone record s) = None ∧
  sent (pihole.DeleteRecord p zone record s) = [] ∧
  server (pihole.DeleteRecord p zone record s) = s.
Proof.
  intros Hother.
  assert (Htest : bool_decide (providers.Type_ record ≠ "A")
                  && bool_decide (providers.Type_ record ≠ "AAAA") = true).
  { destruct (bool_decide (providers.Type_ record ≠ "A")
              && bool_decide (providers.Type_ record ≠ "AAAA")) eqn:Htest; [done |].
    by apply addressTyped_test in Htest. }
  unfold pihole.UpdateRecord, pihole.DeleteRecord. rewrite Htest. done.
Qed.

Lemma Pihole_other_types_witness :
  let txt := txtRecord (newReconciler "example.com" []) webServer in
  ¬ addressTyped txt ∧
  reply (@pihole.UpdateRecord _ (fakePihole []) examplePihole "example.com" txt tt)
    = Some ("pi-hole only supports A and AAAA records, got " +:+ providers.Type_ txt) ∧
  sent (@pihole.UpdateRecord _ (fakePihole []) examplePihole "example.com" txt tt) = [] ∧
  server (@pihole.UpdateRecord _ (fakePihole []) examplePihole "example.com" txt tt) = tt ∧
  reply (@pihole.DeleteRecord _ (fakePihole []) examplePihole "example.com" txt tt) = None ∧
  sent (@pihole.DeleteRecord _ (fakePihole []) examplePihole "example.com" txt tt) = [] ∧
  server (@pihole.DeleteRecord _ (fakePihole []) examplePihole "example.com" txt tt) = tt.
Proof.
  intros txt.
  assert (Hother : ¬ addressTyped txt) by (intros [Ht|Ht]; discriminate Ht).
  split; [exact Hother |].
  exact (@Pihole_other_types _ (fakePihole []) examplePihole "example.com" txt tt Hother).
Defined.

Section UpsertAnswers.
Context {B : Type} `{!DNSProvider B}.

(** A successful run of the upsert path ends with the update of the
    ownership record, answered by the provider. *)
Lemma reconcile_upsert_answer (r : DNSReconciler) (key : string) (node : TailscaleNode) (b : B) :
  strings.HasSuffix key ":delete" = false →
  nodeCache r !! key = Some node →
  shouldManageNode r node = true →
  value (reconcile r key b) = None →
  ∃ b1 : B,
    calls (reconcile r key b) =
      succeeded r node (Addresses node)
      ++ [CallUpdate (domain r) (txtRecord r node)
            (UpdateRecord (domain r) (txtRecord r node) b1).1].
Proof.
  intros Hkey Hnode Hmanage. unfold reconcile. rewrite Hkey, Hnode, Hmanage. cbn [negb].
  unfold bind. cbn [value backend calls].
  destruct (updateAddresses_run r node (Addresses node) b)
    as [[Hv Hc]|(before & a & rest & e & Hsplit & Hv & Hc)]; rewrite Hv, Hc.
  - intros _. cbn [value calls ret callUpdateRecord]. eexists. by rewrite app_nil_r.
  - done.
Qed.

End UpsertAnswers.

(** Against the Pi-hole provider the upsert path never gets its ownership
    record written: a run that returns [nil] for a managed node has updated
    the address records, and its last call, the update of the TXT record,
    was refused by the provider. *)
Theorem Pihole_upsert_leaves_no_marker {W : Type} `{!pihole.Server W}
    (r : DNSReconciler) (key : string) (node : TailscaleNode)
    (b : pihole.PiholeProvider * W) :
  strings.HasSuffix key ":delete" = false →
  nodeCache r !! key = Some node →
  shouldManageNode r node = true →
  value (@reconcile _ pihole.PiholeProvider_DNSProvider r key b) = None →
  calls (@reconcile _ pihole.PiholeProvider_DNSProvider r key b) =
    succeeded r node (Addresses node)
    ++ [CallUpdate (domain r) (txtRecord r node)
          (Some "pi-hole only supports A and AAAA records, got TXT")].
Proof.
  intros Hkey Hnode Hmanage Hnil.
  destruct (@reconcile_upsert_answer _ pihole.PiholeProvider_DNSProvider
              r key node b Hkey Hnode Hmanage Hnil) as (b1 & ->).
  done.
Qed.

Lemma Pihole_upsert_leaves_no_marker_witness :
  let r := polledOnce [webServer] in
  strings.HasSuffix "n1" ":delete" = false ∧
  nodeCache r !! "n1" = Some webServer ∧
  shouldManageNode r webServer = true ∧
  value (@reconcile _ (@pihole.PiholeProvider_DNSProvider _ (fakePihole [])) r "n1"
           (examplePihole, tt)) = None ∧
  calls (@reconcile _ (@pihole.PiholeProvider_DNSProvider _ (fakePihole [])) r "n1"
           (examplePihole, tt)) =
    succeeded r webServer (Addresses webServer)
    ++ [CallUpdate (domain r) (txtRecord r webServer)
          (Some "pi-hole only supports A and AAAA records, got TXT")].
Proof.
  intros r.
  assert (Hkey : strings.HasSuffix "n1" ":delete" = false) by reflexivity.
  assert (Hnode : nodeCache r !! "n1" = Some webServer) by (vm_compute; reflexivity).
  assert (Hmanage : shouldManageNode r webServer = true) by (vm_compute; reflexivity).
  assert (Hnil : value (@reconcile _ (@pihole.PiholeProvider_DNSProvider _ (fakePihole []))
                          r "n1" (examplePihole, tt)) = None) by (vm_compute; reflexivity).
  split_and!; [exact Hkey | exact Hnode | exact Hmanage | exact Hnil |].
  exact (@Pihole_upsert_leaves_no_marker _ (fakePihole []) r "n1" webServer
           (examplePihole, tt) Hkey Hnode Hmanage Hnil).
Defined.

(** A successful [UpdateRecord] of the Pi-hole provider for an A or AAAA
    record replaces: it sends the GET request of the listing, then, when the
    listing holds a record with the same name and type, the POST that deletes
    the first such record (with the address the listing gave), then the POST
    that adds the new record; and nothing else. *)
Theorem Pihole_UpdateRecord_replaces {W : Type} `{!pihole.Server W}
    (p : pihole.PiholeProvider) (zone : string) (record : DNSRecord) (s : W) :
  addressTyped record →
  reply (pihole.UpdateRecord p zone record s) = None →
  ∃ existing : list DNSRecord,
    reply (pihole.ListRecords p zone s) = Ok existing ∧
    sent (pihole.UpdateRecord p zone record s) =
      piholeListRequest p
      :: match firstSameNameType record existing with
         | Some ex => [piholeWriteRequest p "delete" ex]
         | None => []
         end
      ++ [piholeWriteRequest p "add" record].
Proof.
  intros Htyped Hnil. apply addressTyped_test in Htyped.
  unfold pihole.UpdateRecord in *. rewrite Htyped in *.
  rewrite hbind_reply in Hnil. rewrite hbind_sent.
  pose proof (ListRecords_run p zone s) as Hlist.
  destruct (reply (pihole.ListRecords p zone s)) as [existing|e]; [| done].
  destruct Hlist as [Hlisted Hsent]. rewrite Hsent.
  set (s1 := server (pihole.ListRecords p zone s)) in *.
  rewrite hbind_reply in Hnil. rewrite hbind_sent.
  pose proof (deleteExisting_run p zone record existing s1) as Hdel.
  destruct (reply (pihole.deleteExisting p zone record existing s1)) as [e|]; [done |].
  rewrite Hdel; [| by eapply Forall_impl; [exact Hlisted | intros x (Hx & _)] | done].
  set (s2 := server (pihole.deleteExisting p zone record existing s1)) in *.
  rewrite hbind_reply in Hnil. rewrite hbind_sent.
  match goal with
  | |- context [pihole.makeRequest p ?m ?e ?v s2] =>
      pose proof (makeRequest_sent p m e v s2) as Hadd;
      destruct (reply (pihole.makeRequest p m e v s2)) as [resp|e']
  end; [| done].
  exists existing. split; [done |].
  rewrite (Hadd resp eq_refl). cbn [sent hret]. rewrite app_nil_r. done.
Qed.

Lemma Pihole_UpdateRecord_replaces_witness :
  let record := addressRecord (newReconciler "example.com" []) webServer "100.64.1.1" in
  addressTyped record ∧
  reply (@pihole.UpdateRecord _ (fakePihole exampleCustomDNS) examplePihole
           "example.com" record tt) = None ∧
  ∃ existing : list DNSRecord,
    reply (@pihole.ListRecords _ (fakePihole exampleCustomDNS) examplePihole
             "example.com" tt) = Ok existing ∧
    sent (@pihole.UpdateRecord _ (fakePihole exampleCustomDNS) examplePihole
            "example.com" record tt) =
      piholeListRequest examplePihole
      :: match firstSameNameType record existing with
         | Some ex => [piholeWriteRequest examplePihole "delete" ex]
         | None => []
         end
      ++ [piholeWriteRequest examplePihole "add" record].
Proof.
  intros record.
  assert (Htyped : addressTyped record) by (left; reflexivity).
  assert (Hnil : reply (@pihole.UpdateRecord _ (fakePihole exampleCustomDNS) examplePihole
                          "example.com" record tt) = None) by (vm_compute; reflexivity).
  split; [exact Htyped |]. split; [exact Hnil |].
  exact (@Pihole_UpdateRecord_replaces _ (fakePihole exampleCustomDNS) examplePihole
           "example.com" record tt Htyped Hnil).
Defined.

(** The example in full: the listing shows the old address of
    [web-server.example.com]; the update deletes that entry and adds the new
    one. *)
Example Pihole_update_of_web_server :
  let record := addressRecord (newReconciler "example.com" []) webServer "100.64.1.1" in
  sent (@pihole.UpdateRecord _ (fakePihole exampleCustomDNS) examplePihole
          "example.com" record tt) =
  [ piholeListRequest examplePihole;
    piholeWriteRequest examplePihole "delete"
      {| providers.Name := "web-server.example.com"; providers.Type_ := "A";
         providers.Value := "100.64.9.9"; providers.TTL := 300 |};
    piholeWriteRequest examplePihole "add" record ].
Proof. vm_compute. reflexivity. Qed.

(** * The Cloudflare provider *)

Section CloudflareFacts.
Context {W : Type} `{!cloudflare.Server W}.

Implicit Types (c : cloudflare.CloudflareProvider) (s : W) (record : DNSRecord).

Lemma cf_makeRequest_sent c (method endpoint : string)
    (body : option cloudflare.CloudflareRecord) s (resp : cloudflare.CloudflareResponse) :
  reply (cloudflare.makeRequest c method endpoint body s) = Ok resp →
  sent (cloudflare.makeRequest c method endpoint body s)
  = [cloudflareRequest c method endpoint body].
Proof.
  unfold cloudflare.makeRequest. fold (cloudflareRequest c method endpoint body).
  destruct (cloudflare.NewRequest _) as [e|]; [done |]. done.
Qed.

Lemma cf_makeRequest_shape c (method endpoint : string)
    (body : option cloudflare.CloudflareRecord) s :
  sent (cloudflare.makeRequest c method endpoint body s) = [] ∨
  sent (cloudflare.makeRequest c method endpoint body s)
  = [cloudflareRequest c method endpoint body].
Proof.
  unfold cloudflare.makeRequest. fold (cloudflareRequest c method endpoint body).
  destruct (cloudflare.NewRequest _) as [e|]; [by left | by right].
Qed.

Lemma appendRecord_fold (cfRecords : list cloudflare.CloudflareRecord)
    (dnsRecords : list DNSRecord) :
  fold_left cloudflare.appendRecord cfRecords dnsRecords
  = dnsRecords ++ (fromCloudflare <$> filter cloudflareKept cfRecords).
Proof.
  revert dnsRecords. induction cfRecords as [|x cfRecords IH]; intros dnsRecords.
  - cbn. by rewrite app_nil_r.
  - cbn [fold_left]. rewrite IH, filter_cons. unfold cloudflare.appendRecord.
    destruct (decide (cloudflareKept x)) as [Hk|Hk].
    + assert (Htest : bool_decide (cloudflare.Type_ x = "A")
                      || bool_decide (cloudflare.Type_ x = "AAAA")
                      || bool_decide (cloudflare.Type_ x = "TXT") = true).
      { destruct Hk as [Ht|[Ht|Ht]]; rewrite Ht; done. }
      rewrite Htest, <- app_assoc. done.
    + assert (Htest : bool_decide (cloudflare.Type_ x = "A")
                      || bool_decide (cloudflare.Type_ x = "AAAA")
                      || bool_decide (cloudflare.Type_ x = "TXT") = false).
      { unfold cloudflareKept in Hk.
        rewrite !orb_false_iff, !bool_decide_eq_false. tauto. }
      by rewrite Htest.
Qed.

End CloudflareFacts.

(** A successful [ListRecords] of the Cloudflare provider has sent one
    request, a GET on the records of the zone, and returns the records of the
    result that have type A, AAAA or TXT, in the order of the result:
    ownership records are part of the listing, records of other types are
    not. *)
Theorem Cloudflare_ListRecords_keeps {W : Type} `{!cloudflare.Server W}
    (c : cloudflare.CloudflareProvider) (zone : string) (s : W) (records : list DNSRecord) :
  reply (cloudflare.ListRecords c zone s) = Ok records →
  ∃ cfRecords : list cloudflare.CloudflareRecord,
    cloudflareGet c ("/zones/" +:+ cloudflare.zoneID c +:+ "/dns_records") s = Ok cfRecords ∧
    records = fromCloudflare <$> filter cloudflareKept cfRecords ∧
    sent (cloudflare.ListRecords c zone s)
    = [cloudflareRequest c "GET" ("/zones/" +:+ cloudflare.zoneID c +:+ "/dns_records") None].
Proof.
  unfold cloudflare.ListRecords, cloudflareGet. rewrite hbind_reply, hbind_sent.
  pose proof (cf_makeRequest_sent c "GET"
                ("/zones/" +:+ cloudflare.zoneID c +:+ "/dns_records") None s) as Hsent.
  destruct (reply (cloudflare.makeRequest c "GET"
                     ("/zones/" +:+ cloudflare.zoneID c +:+ "/dns_records") None s))
    as [resp|e]; [| done].
  destruct (cloudflare.UnmarshalRecords (cloudflare.Result_ resp)) as [cfRecords|e]; [| done].
  cbn [reply sent hret]. intros [= <-]. exists cfRecords.
  rewrite appendRecord_fold, (Hsent resp eq_refl). done.
Qed.

Lemma Cloudflare_ListRecords_keeps_witness :
  reply (@cloudflare.ListRecords _ (fakeCloudflare exampleCloudflareZone)
           exampleCloudflare "example.com" tt)
    = Ok (fromCloudflare <$> filter cloudflareKept exampleCloudflareZone) ∧
  ∃ cfRecords : list cloudflare.CloudflareRecord,
    @cloudflareGet _ (fakeCloudflare exampleCloudflareZone) exampleCloudflare
      ("/zones/" +:+ cloudflare.zoneID exampleCloudflare +:+ "/dns_records") tt
      = Ok cfRecords ∧
    fromCloudflare <$> filter cloudflareKept exampleCloudflareZone
      = fromCloudflare <$> filter cloudflareKept cfRecords ∧
    sent (@cloudflare.ListRecords _ (fakeCloudflare exampleCloudflareZone)
            exampleCloudflare "example.com" tt)
    = [cloudflareRequest exampleCloudflare "GET"
         ("/zones/" +:+ cloudflare.zoneID exampleCloudflare +:+ "/dns_records") None].
Proof.
  assert (Hok : reply (@cloudflare.ListRecords _ (fakeCloudflare exampleCloudflareZone)
                         exampleCloudflare "example.com" tt)
                = Ok (fromCloudflare <$> filter cloudflareKept exampleCloudflareZone))
    by (vm_compute; reflexivity).
  split; [exact Hok |].
  exact (@Cloudflare_ListRecords_keeps _ (fakeCloudflare exampleCloudflareZone)
           exampleCloudflare "example.com" tt _ Hok).
Defined.

Section CloudflareWrites.
Context {W : Type} `{!cloudflare.Server W}.

Implicit Types (c : cloudflare.CloudflareProvider) (s : W) (record : DNSRecord).

Lemma cf_get_reads c (endpoint : string) s :
  Forall cloudflareRead (sent (cloudflare.makeRequest c "GET" endpoint None s)).
Proof.
  destruct (cf_makeRequest_shape c "GET" endpoint None s) as [-> | ->]; [done |].
  by apply Forall_singleton.
Qed.

Lemma cf_ListRecords_reads c (zone : string) s :
  Forall cloudflareRead (sent (cloudflare.ListRecords c zone s)).
Proof.
  unfold cloudflare.ListRecords. rewrite hbind_sent. apply Forall_app. split.
  - apply cf_get_reads.
  - destruct (reply (cloudflare.makeRequest _ _ _ _ _)) as [resp|e]; [| done].
    by destruct (cloudflare.UnmarshalRecords (cloudflare.Result_ resp)).
Qed.

Lemma cf_findRecordID_reads c record (existing : list DNSRecord) s :
  Forall cloudflareRead (sent (cloudflare.findRecordID c record existing s)).
Proof.
  revert s. induction existing as [|ex existing IH]; intros s; [done |].
  cbn [cloudflare.findRecordID].
  destruct (bool_decide (providers.Name ex = providers.Name record)
            && bool_decide (providers.Type_ ex = providers.Type_ record)); [| apply IH].
  rewrite hbind_sent. apply Forall_app. split; [apply cf_get_reads |].
  destruct (reply (cloudflare.makeRequest _ _ _ _ _)) as [resp|e]; [| done].
  destruct (cloudflare.UnmarshalRecords (cloudflare.Result_ resp)) as [[|first rest]|e];
    [apply IH | done | done].
Qed.

(** The write at the end of [CreateRecord] and of the PUT branch of
    [UpdateRecord]. *)
Lemma cf_write_run c (method endpoint : string) record s :
  let run := hbind (cloudflare.makeRequest c method endpoint (Some (cloudflare.cfRecord record)))
               (λ resp, match resp with
                        | Err e => hret (Some e)
                        | Ok _ => hret None
                        end) s in
  (sent run = [] ∨
   sent run = [cloudflareRequest c method endpoint (Some (cloudflare.cfRecord record))]) ∧
  (reply run = None → sent run ≠ []).
Proof.
  intros run. unfold run. rewrite hbind_sent, hbind_reply.
  pose proof (cf_makeRequest_sent c method endpoint (Some (cloudflare.cfRecord record)) s)
    as Hsent.
  destruct (cf_makeRequest_shape c method endpoint (Some (cloudflare.cfRecord record)) s)
    as [Hshape|Hshape]; rewrite Hshape;
    destruct (reply (cloudflare.makeRequest c method endpoint
                       (Some (cloudflare.cfRecord record)) s)) as [resp|e];
    cbn [sent reply hret app]; split; try (by left); try (by right); try done.
  specialize (Hsent resp eq_refl). congruence.
Qed.

End CloudflareWrites.

(** A successful [DeleteRecord] of the Cloudflare provider looks the record
    up by name and type and deletes the first record the lookup returns,
    whatever its content; when the lookup returns none, it answers [nil]
    after the lookup alone. *)
Theorem Cloudflare_DeleteRecord_first {W : Type} `{!cloudflare.Server W}
    (c : cloudflare.CloudflareProvider) (zone : string) (record : DNSRecord) (s : W) :
  reply (cloudflare.DeleteRecord c zone record s) = None →
  ∃ found : list cloudflare.CloudflareRecord,
    cloudflareGet c (cloudflare.lookupEndpoint c record) s = Ok found ∧
    sent (cloudflare.DeleteRecord c zone record s) =
      cloudflareRequest c "GET" (cloudflare.lookupEndpoint c record) None
      :: match found with
         | [] => []
         | first :: _ =>
             [cloudflareRequest c "DELETE" (recordEndpoint c (cloudflare.ID first)) None]
         end.
Proof.
  unfold cloudflare.DeleteRecord, cloudflareGet. rewrite hbind_reply, hbind_sent.
  pose proof (cf_makeRequest_sent c "GET" (cloudflare.lookupEndpoint c record) None s) as Hsent.
  destruct (reply (cloudflare.makeRequest c "GET" (cloudflare.lookupEndpoint c record) None s))
    as [resp|e]; [| done].
  rewrite (Hsent resp eq_refl).
  destruct (cloudflare.UnmarshalRecords (cloudflare.Result_ resp)) as [[|first rest]|e];
    [| | done].
  - intros _. by exists [].
  - rewrite hbind_reply, hbind_sent. fold (recordEndpoint c (cloudflare.ID first)).
    match goal with
    | |- context [cloudflare.makeRequest c "DELETE" ?e None ?st] =>
        pose proof (cf_makeRequest_sent c "DELETE" e None st) as Hdel;
        destruct (reply (cloudflare.makeRequest c "DELETE" e None st)) as [resp'|e']
    end; [| done].
    intros _. exists (first :: rest). split; [done |].
    rewrite (Hdel resp' eq_refl). done.
Qed.

Lemma Cloudflare_DeleteRecord_first_witness :
  let record := addressRecord (newReconciler "example.com" []) fooNode "100.64.0.7" in
  reply (@cloudflare.DeleteRecord _ (fakeCloudflare exampleCloudflareZone)
           exampleCloudflare "example.com" record tt) = None ∧
  ∃ found : list cloudflare.CloudflareRecord,
    @cloudflareGet _ (fakeCloudflare exampleCloudflareZone) exampleCloudflare
      (cloudflare.lookupEndpoint exampleCloudflare record) tt = Ok found ∧
    sent (@cloudflare.DeleteRecord _ (fakeCloudflare exampleCloudflareZone)
            exampleCloudflare "example.com" record tt) =
      cloudflareRequest exampleCloudflare "GET"
        (cloudflare.lookupEndpoint exampleCloudflare record) None
      :: match found with
         | [] => []
         | first :: _ =>
             [cloudflareRequest exampleCloudflare "DELETE"
                (recordEndpoint exampleCloudflare (cloudflare.ID first)) None]
         end.
Proof.
  intros record.
  assert (Hnil : reply (@cloudflare.DeleteRecord _ (fakeCloudflare exampleCloudflareZone)
                          exampleCloudflare "example.com" record tt) = None)
    by (vm_compute; reflexivity).
  split; [exact Hnil |].
  exact (@Cloudflare_DeleteRecord_first _ (fakeCloudflare exampleCloudflareZone)
           exampleCloudflare "example.com" record tt Hnil).
Defined.

(** Whatever the server answers, [UpdateRecord] of the Cloudflare provider
    sends reads (GET requests without a body) followed by at most one write:
    a POST on the records of the zone, or a PUT on one record of it, with the
    record to publish as body, never proxied. When it answers [nil], the
    write was sent. *)
Theorem Cloudflare_UpdateRecord_one_write {W : Type} `{!cloudflare.Server W}
    (c : cloudflare.CloudflareProvider) (zone : string) (record : DNSRecord) (s : W) :
  cloudflare.Proxied (cloudflare.cfRecord record) = Some false ∧
  ∃ reads writes : list cloudflare.Request,
    sent (cloudflare.UpdateRecord c zone record s) = reads ++ writes ∧
    Forall cloudflareRead reads ∧
    (writes = []
     ∨ writes = [cloudflareRequest c "POST" (recordsEndpoint c)
                   (Some (cloudflare.cfRecord record))]
     ∨ ∃ id, writes = [cloudflareRequest c "PUT" (recordEndpoint c id)
                         (Some (cloudflare.cfRecord record))]) ∧
    (reply (cloudflare.UpdateRecord c zone record s) = None → writes ≠ []).
Proof.
  split; [done |].
  unfold cloudflare.UpdateRecord. rewrite hbind_sent, hbind_reply.
  pose proof (cf_ListRecords_reads c zone s) as Hlist.
  destruct (reply (cloudflare.ListRecords c zone s)) as [existing|e].
  - set (s1 := server (cloudflare.ListRecords c zone s)).
    rewrite hbind_sent, hbind_reply.
    pose proof (cf_findRecordID_reads c record existing s1) as Hfind.
    set (s2 := server (cloudflare.findRecordID c record existing s1)).
    destruct (reply (cloudflare.findRecordID c record existing s1)) as [[id|]|e].
    + destruct (cf_write_run c "PUT" (recordEndpoint c id) record s2) as [Hshape Hsent].
      eexists (_ ++ _), _. rewrite app_assoc. split_and!; [done | | | exact Hsent].
      * by apply Forall_app.
      * destruct Hshape as [Hshape | Hshape];
          [left; exact Hshape | right; right; exists id; exact Hshape].
    + destruct (cf_write_run c "POST" (recordsEndpoint c) record s2) as [Hshape Hsent].
      eexists (_ ++ _), _. rewrite app_assoc. split_and!; [done | | | exact Hsent].
      * by apply Forall_app.
      * destruct Hshape as [Hshape | Hshape];
          [left; exact Hshape | right; left; exact Hshape].
    + eexists (_ ++ _), []. cbn [sent reply hret]. rewrite !app_nil_r.
      split_and!; [done | by apply Forall_app | by left | done].
  - eexists _, []. cbn [sent reply hret]. rewrite !app_nil_r.
    split_and!; [done | done | by left | done].
Qed.

(** * The listing of the Route53 provider *)

Section Route53Pages.




End Route53Pages.


